(** * smallweb: the request dispatch engine

    A shallow embedding of the Go sources of smallweb (the standalone
    handler of [main.go], in the revision that captures the output of
    the child and logs to [.jsonl] files, and the [up] command of
    package [cmd]) and the properties of its dispatch pipeline: entrypoint resolution,
    environment composition, request serialization, the evaluator
    boundary, the session store, the authentication middleware, the
    privacy decision and the cron driver.

    Conventions.  Go strings are [string] (sequences of bytes).  A Go
    function returning [(T, error)] returns [result T].  Calls into the
    operating system and into third-party libraries (file system,
    godotenv, glob, cron, bcrypt, the child process) are either modelled
    after their documentation or taken as [Variable]s of a [Section]. *)

From Stdlib Require Import ZArith Ascii String List.
From stdpp Require Import gmap strings list fin_maps pretty.

Local Open Scope Z_scope.
Local Open Scope stdpp_scope.

(** ** Results of fallible calls *)

Inductive result (A : Type) : Type :=
  | Ok (a : A)
  | Err (msg : string)
  | Panic (msg : string).
Arguments Ok {A} a.
Arguments Err {A} msg.
Arguments Panic {A} msg.

Global Instance result_ret : MRet result := λ A a, Ok a.
Global Instance result_bind : MBind result := λ A B k r,
  match r with
  | Ok a => k a
  | Err e => Err e
  | Panic e => Panic e
  end.

(** Go's [[]byte]. *)
Abbreviation bytes := (list Byte.byte).

(** ** Package [strings] of the Go library *)

Module strings_.

Definition HasPrefix (s pre : string) : bool := String.prefix pre s.

Definition HasSuffix (s suf : string) : bool :=
  String.prefix (String.rev suf) (String.rev s).

Definition TrimPrefix (s pre : string) : string :=
  if HasPrefix s pre
  then String.substring (String.length pre) (String.length s - String.length pre) s
  else s.

Definition TrimSuffix (s suf : string) : string :=
  if HasSuffix s suf
  then String.substring 0 (String.length s - String.length suf) s
  else s.

(** [split_go sep skip cur s]: [cur] is the current piece, reversed;
    [skip] counts the bytes of a separator that was just recognised
    and is still to be passed over. *)
Fixpoint split_go (sep : string) (skip : nat) (cur s : string) : list string :=
  match s with
  | "" => [String.rev cur]
  | String c s' =>
      match skip with
      | S k => split_go sep k cur s'
      | O =>
          if String.prefix sep s
          then String.rev cur :: split_go sep (String.length sep - 1) "" s'
          else split_go sep 0 (String c cur) s'
      end
  end.

(** [strings.Split(s, sep)] for a non-empty separator: the pieces
    between the non-overlapping occurrences of [sep], left to right.
    With the empty separator Go explodes [s] into its characters; here
    into its bytes. *)
Definition Split (s sep : string) : list string :=
  match sep with
  | "" => (λ c, String c "") <$> list_ascii_of_string s
  | _ => split_go sep 0 "" s
  end.

Fixpoint Join (elems : list string) (sep : string) : string :=
  match elems with
  | [] => ""
  | [e] => e
  | e :: rest => e +:+ sep +:+ Join rest sep
  end.

(** [strings.Cut(s, sep)] for a one-byte separator. *)
Fixpoint cut_go (sep : ascii) (cur s : string) : option (string * string) :=
  match s with
  | "" => None
  | String c s' =>
      if decide (c = sep) then Some (String.rev cur, s')
      else cut_go sep (String c cur) s'
  end.
Definition Cut (s : string) (sep : ascii) : option (string * string) :=
  cut_go sep "" s.

Fixpoint Contains_byte (c : ascii) (s : string) : bool :=
  match s with
  | "" => false
  | String d s' => if decide (d = c) then true else Contains_byte c s'
  end.

End strings_.

(** ** Packages [path] and [path/filepath] (Unix) *)

Module path.

(** One step of the lexical processing of [Clean]: [out] is the stack
    of the elements kept so far, the last one first. *)
Definition clean_step (rooted : bool) (out : list string) (c : string) : list string :=
  if decide (c = "" ∨ c = ".") then out
  else if decide (c = "..") then
    match out with
    | top :: rest => if decide (top = "..") then ".." :: out else rest
    | [] => if rooted then [] else [".."]
    end
  else c :: out.

(** [path.Clean]: single slashes, no [.] element, no inner [..]
    element, no [..] at the start of a rooted path; the empty result
    is [.]. *)
Definition Clean (p : string) : string :=
  if decide (p = "") then "."
  else
    let rooted := strings_.HasPrefix p "/" in
    let out := rev (fold_left (clean_step rooted) (strings_.Split p "/") []) in
    let body := strings_.Join out "/" in
    if rooted then "/" +:+ body
    else if decide (body = "") then "." else body.

(** [path.Join]: empty elements are ignored, the rest is joined with
    slashes and cleaned; the empty string when there is nothing. *)
Definition Join (elem : list string) : string :=
  match filter (λ e, e ≠ "") elem with
  | [] => ""
  | es => Clean (strings_.Join es "/")
  end.

(** The text after the last slash of [s], and the text up to and
    including it ([path.Split]). *)
Fixpoint split_last_go (dir cur s : string) : string * string :=
  match s with
  | "" => (String.rev dir, String.rev cur)
  | String c s' =>
      if decide (c = "/"%char)
      then split_last_go (String c (String.rev_app (String.rev cur) dir)) "" s'
      else split_last_go dir (String c cur) s'
  end.
Definition Split (p : string) : string * string := split_last_go "" "" p.

Fixpoint strip_trailing_slashes_rev (r : string) : string :=
  match r with
  | String "/" r' => strip_trailing_slashes_rev r'
  | _ => r
  end.

Definition Base (p : string) : string :=
  if decide (p = "") then "."
  else
    let p1 := String.rev (strip_trailing_slashes_rev (String.rev p)) in
    let p2 := snd (Split p1) in
    if decide (p2 = "") then "/" else p2.

Definition Dir (p : string) : string := Clean (fst (Split p)).

(** [filepath.Ext]: the suffix of the last element of [p] that starts
    at its last dot; empty when there is no dot. *)
Fixpoint ext_go (cur : option string) (s : string) : string :=
  match s with
  | "" => default "" cur
  | String c s' =>
      if decide (c = "/"%char) then ext_go None s'
      else if decide (c = "."%char) then ext_go (Some s) s'
      else ext_go cur s'
  end.
Definition Ext (p : string) : string := ext_go None p.

End path.


(** ** Entrypoint resolution ([main.go], [inferEntrypoint]) *)

Definition extensions : list string := [".js"; ".ts"; ".jsx"; ".tsx"].

Section Resolver.

(** [exists(path)]: [os.Stat] succeeds on [path]. *)
Variable exists_ : string → bool.

(** One [for _, ext := range extensions] loop of [inferEntrypoint]:
    [mk ext] is the candidate built in the loop body, and the loop
    returns at the first candidate that exists. *)
Fixpoint try_extensions (mk : string → string) (exts : list string) : option string :=
  match exts with
  | [] => None
  | ext :: exts' =>
      let entrypoint := mk ext in
      if exists_ entrypoint then Some entrypoint
      else try_extensions mk exts'
  end.

Definition inferEntrypoint (rootDir alias : string) : result string :=
  match try_extensions (λ ext, path.Join [rootDir; alias +:+ ext]) extensions with
  | Some entrypoint => Ok entrypoint
  | None =>
  match try_extensions (λ ext, path.Join [rootDir; alias; "mod" +:+ ext]) extensions with
  | Some entrypoint => Ok entrypoint
  | None =>
  match try_extensions (λ ext, path.Join [rootDir; alias; alias +:+ ext]) extensions with
  | Some entrypoint => Ok entrypoint
  | None =>
      let entrypoint := path.Join [rootDir; alias; "index.html"] in
      if exists_ entrypoint then Ok entrypoint
      else Err "entrypoint not found"
  end end end.

End Resolver.

(** The candidates in the order of the specification: the file next to
    the app directory, then [mod], then the file named after the app,
    each with the four extensions in order, then [index.html]. *)
Definition entrypoint_candidates (rootDir alias : string) : list string :=
  [ path.Join [rootDir; alias +:+ ".js"];
    path.Join [rootDir; alias +:+ ".ts"];
    path.Join [rootDir; alias +:+ ".jsx"];
    path.Join [rootDir; alias +:+ ".tsx"];
    path.Join [rootDir; alias; "mod.js"];
    path.Join [rootDir; alias; "mod.ts"];
    path.Join [rootDir; alias; "mod.jsx"];
    path.Join [rootDir; alias; "mod.tsx"];
    path.Join [rootDir; alias; alias +:+ ".js"];
    path.Join [rootDir; alias; alias +:+ ".ts"];
    path.Join [rootDir; alias; alias +:+ ".jsx"];
    path.Join [rootDir; alias; alias +:+ ".tsx"];
    path.Join [rootDir; alias; "index.html"] ].

(** [p] is the first element of [cands] that exists. *)
Definition first_existing (exists_ : string → bool) (cands : list string) (p : string) : Prop :=
  ∃ i : nat, cands !! i = Some p ∧ exists_ p = true ∧
    ∀ (j : nat) (q : string), (j < i)%nat → cands !! j = Some q → exists_ q = false.

(** ** The alias of a request *)

(** The leftmost label of a host: everything before its first dot, the
    whole host when it has none. *)
Fixpoint leftmost_label (host : string) : string :=
  match host with
  | "" => ""
  | String c rest =>
      if decide (c = "."%char) then "" else String c (leftmost_label rest)
  end.

(** [strings.Split(host, ".")[0]] in [Handler.ServeHTTP] of [main.go];
    indexing an empty slice panics ([None]). *)
Definition alias_of_host (host : string) : option string :=
  strings_.Split host "." !! 0%nat.

(** [strings.TrimSuffix(r.Host, fmt.Sprintf(".%s", domain))] in the
    handler of the [up] command. *)
Definition appname_of_host (host domain : string) : string :=
  strings_.TrimSuffix host ("." +:+ domain).

(** ** Environment composition ([main.go], [loadEnv]) *)

Section Env.

Variable exists_ : string → bool.
(** [godotenv.Read(path)]: the parsed file, or the read or parse error. *)
Variable godotenv_Read : string → result (gmap string string).

(** [for k, v := range dirEnv { env[k] = v }] *)
Definition overlay (env dirEnv : gmap string string) : gmap string string :=
  map_fold (λ k v acc, <[k:=v]> acc) env dirEnv.

Definition loadEnv (root entrypoint : string) : result (gmap string string) :=
  if decide (path.Ext entrypoint = ".html") then Ok ∅
  else
    let rootEnvPath := path.Join [root; ".env"] in
    env ← (if exists_ rootEnvPath then godotenv_Read rootEnvPath else Ok ∅);
    let envPath := path.Join [path.Dir entrypoint; ".env"] in
    if negb (exists_ envPath) || bool_decide (envPath = rootEnvPath) then Ok env
    else
      dirEnv ← godotenv_Read envPath;
      Ok (overlay env dirEnv).

(** What an [.env] file contributes: nothing when it is absent. *)
Definition env_of_file (p : string) : result (gmap string string) :=
  if exists_ p then godotenv_Read p else Ok ∅.

End Env.

(** ** Package [time]

    An instant is the number of nanoseconds since the zero time, a
    duration a number of nanoseconds; locations and monotonic readings
    are not modelled, so [==] on [time.Time] is equality of instants. *)

Module time.
Definition Nanosecond : Z := 1.
Definition Second : Z := 1000000000.
Definition Minute : Z := 60 * Second.
Definition Hour : Z := 60 * Minute.
Definition Add (t d : Z) : Z := t + d.
Definition After (t u : Z) : bool := bool_decide (u < t).
(** [t.Truncate(d)] for [d > 0]: [t] rounded down to a multiple of [d]. *)
Definition Truncate (t d : Z) : Z := if decide (d ≤ 0) then t else t - t `mod` d.
End time.

(** ** Package [net/http]: requests and the response writer *)

Record URL : Type := mkURL {
  Scheme : string;
  Opaque : string;
  User : option string;      (* the rendered userinfo, when present *)
  Host : string;
  Path : string;
  OmitHost : bool;
  ForceQuery : bool;
  RawQuery : string;
  Fragment : string;
}.

Record Request : Type := mkRequest {
  Method : string;
  rURL : URL;
  Header : gmap string (list string);
  Body : result bytes;       (* what [io.ReadAll(req.Body)] yields *)
  rHost : string;
  TLS : bool;                (* [req.TLS != nil] *)
}.

Section UrlString.

(** The escaping functions of [net/url]. *)
Variable EscapedPath : URL → string.
Variable EscapedFragment : URL → string.
Variable escapeHost : string → string.

Definition first_segment (p : string) : string :=
  match strings_.Cut p "/" with
  | Some (seg, _) => seg
  | None => p
  end.

(** The [String] method of [URL]: [scheme:opaque?query#fragment] or
    [scheme://userinfo@host/path?query#fragment]. *)
Definition URL_String (u : URL) : string :=
  let buf0 := if decide (Scheme u = "") then "" else Scheme u +:+ ":" in
  let buf1 :=
    if decide (Opaque u = "") then
      let buf_auth :=
        if bool_decide (Scheme u ≠ "" ∨ Host u ≠ "" ∨ User u ≠ None) then
          if OmitHost u && bool_decide (Host u = "") && bool_decide (User u = None)
          then buf0
          else
            buf0
            +:+ (if bool_decide (Host u ≠ "" ∨ Path u ≠ "" ∨ User u ≠ None)
                 then "//" else "")
            +:+ (match User u with Some ui => ui +:+ "@" | None => "" end)
            +:+ (if decide (Host u = "") then "" else escapeHost (Host u))
        else buf0 in
      let p := EscapedPath u in
      let buf_slash :=
        if bool_decide (p ≠ "") && negb (strings_.HasPrefix p "/")
           && bool_decide (Host u ≠ "")
        then buf_auth +:+ "/" else buf_auth in
      let buf_dot :=
        if bool_decide (buf_slash = "")
           && strings_.Contains_byte ":" (first_segment p)
        then "./" else buf_slash in
      buf_dot +:+ p
    else buf0 +:+ Opaque u in
  let buf2 :=
    if ForceQuery u || bool_decide (RawQuery u ≠ "")
    then buf1 +:+ "?" +:+ RawQuery u else buf1 in
  if decide (Fragment u = "") then buf2
  else buf2 +:+ "#" +:+ EscapedFragment u.

End UrlString.

(** The calls a handler makes on its [http.ResponseWriter], in order. *)

Record Cookie : Type := mkCookie {
  cName : string;
  cValue : string;
  cExpires : Z;
  cPath : string;
  cSameSiteLax : bool;
  cHttpOnly : bool;
  cSecure : bool;
}.

Inductive wop : Type :=
  | HeaderSet (k v : string)      (* [w.Header().Set(k, v)] *)
  | HeaderAdd (k v : string)      (* [w.Header().Add(k, v)] *)
  | WriteHeader (code : Z)
  | Write (b : bytes)
  | SetCookie (c : Cookie)        (* [http.SetCookie(w, c)] *)
  | Redirect (url : string) (code : Z).   (* [http.Redirect(w, r, url, code)] *)

(** A trace lists the calls a handler makes on the response writer of
    an HTTP/1.1 connection that is not hijacked, a call that panics
    included (it is then the last one).  [Redirect] stands for what
    [http.Redirect] does to the header and its [w.WriteHeader(code)];
    the short HTML body it adds for a [GET] is left out. *)

Definition LF : string := String (ascii_of_nat 10) "".

(** [http.Error(w, msg, code)]: a plain-text reply whose body is [msg]
    and a line feed. *)
Definition http_Error (msg : string) (code : Z) : list wop :=
  [ HeaderSet "Content-Type" "text/plain; charset=utf-8";
    HeaderSet "X-Content-Type-Options" "nosniff";
    WriteHeader code;
    Write (String.list_byte_of_string (msg +:+ LF)) ].

Definition StatusOK : Z := 200.
Definition StatusSeeOther : Z := 303.
Definition StatusTemporaryRedirect : Z := 307.
Definition StatusBadRequest : Z := 400.
Definition StatusUnauthorized : Z := 401.
Definition StatusNotFound : Z := 404.
Definition StatusInternalServerError : Z := 500.

(** [checkWriteHeaderCode] of [net/http]: [WriteHeader] panics on a
    code outside 100..999 when the header is not yet written. *)
Definition valid_code (code : Z) : bool := (100 <=? code) && (code <=? 999).

Definition invalid_WriteHeader_code (code : Z) : string :=
  "invalid WriteHeader code " +:+ pretty code.

(** A 1xx code other than 101 is sent at once as an informational
    response and leaves the status of the reply open. *)
Definition informational (code : Z) : bool :=
  (100 <=? code) && (code <=? 199) && negb (code =? 101).

(** [WriteHeader] of the server while the header is not written: the
    status of the reply after the call, as far as the call decides it.
    [None]: the call panics.  [Some None]: the status is still open. *)
Definition write_header (code : Z) : option (option Z) :=
  if valid_code code then
    if informational code then Some None else Some (Some code)
  else None.

(** The status line a sequence of calls produces, [None] when a call
    panics before there is one: the first [WriteHeader] (or redirect)
    with a code that is not informational wins, a [Write] before any of
    them and the end of the handler imply 200.  Once the header is
    written a further [WriteHeader] is superfluous and returns. *)
Fixpoint status_of (ops : list wop) : option Z :=
  match ops with
  | [] => Some StatusOK
  | WriteHeader code :: ops' | Redirect _ code :: ops' =>
      match write_header code with
      | Some (Some status) => Some status
      | Some None => status_of ops'
      | None => None
      end
  | Write _ :: _ => Some StatusOK
  | _ :: ops' => status_of ops'
  end.

(** The bytes the handler passed to [w.Write]. *)
Fixpoint body_of (ops : list wop) : bytes :=
  match ops with
  | [] => []
  | Write b :: ops' => b ++ body_of ops'
  | _ :: ops' => body_of ops'
  end.

(** The message of the run-time panic of [s[i]] for a slice of length
    [n ≤ i]. *)
Definition index_out_of_range (i n : nat) : string :=
  "runtime error: index out of range [" +:+ pretty i +:+ "] with length " +:+ pretty n.

(** ** Request serialization ([main.go], [serializeRequest]) *)

Record SerializedRequest : Type := mkSerializedRequest {
  Url : string;
  sMethod : string;
  sHeaders : list (list string);
  sBody : bytes;
}.

(** A [range] over a Go map visits every key once, in an order the
    language leaves open: [visit] is that order. *)
Definition range_map {V : Type} (m : gmap string V) (visit : list string) : list (string * V) :=
  omap (λ k, (k,.) <$> m !! k) visit.

(** [for k, v := range req.Header { res.Headers = append(res.Headers,
    []string{k, v[0]}) }]; [v[0]] of an empty slice panics. *)
Fixpoint header_pairs (kvs : list (string * list string)) (acc : list (list string))
  : result (list (list string)) :=
  match kvs with
  | [] => Ok acc
  | (k, v) :: kvs' =>
      match v !! 0%nat with
      | Some v0 => header_pairs kvs' (acc ++ [[k; v0]])
      | None => Panic (index_out_of_range 0 0)
      end
  end.

(** The pair emitted for the header name [k] of [m]: the name and its
    first value. *)
Definition first_value_pair (m : gmap string (list string)) (k : string)
    (pair : list string) : Prop :=
  ∃ v0 vs, m !! k = Some (v0 :: vs) ∧ pair = [k; v0].

Section Serialize.

Variable EscapedPath : URL → string.
Variable EscapedFragment : URL → string.
Variable escapeHost : string → string.
(** The order in which the [range] over [req.Header] visits the names. *)
Variable visit : list string.

(** [url := req.URL] is a pointer: the assignments to [url.Host] and
    [url.Scheme] change the request, which is returned as well. *)
Definition serializeRequest (req : Request) : result SerializedRequest * Request :=
  let u := rURL req in
  let url :=
    mkURL (if TLS req then "https" else "http") (Opaque u) (User u) (rHost req)
          (Path u) (OmitHost u) (ForceQuery u) (RawQuery u) (Fragment u) in
  let req' := mkRequest (Method req) url (Header req) (Body req) (rHost req) (TLS req) in
  let resUrl := URL_String EscapedPath EscapedFragment escapeHost url in
  let res :=
    headers ← header_pairs (range_map (Header req) visit) [];
    body ← Body req;
    Ok (mkSerializedRequest resUrl (Method req) headers body) in
  (res, req').

End Serialize.

(** ** The standalone handler ([main.go], [Handler.ServeHTTP]) *)

Record SerializedResponse : Type := mkSerializedResponse {
  Status : Z;
  Headers : list (list string);
  Body_ : option bytes;      (* [None] is the nil slice *)
}.

Record CommandInput : Type := mkCommandInput {
  Req : SerializedRequest;
  Entrypoint : string;
  Env : gmap string string;
  Output : string;
}.

Record Log : Type := mkLog {
  lRequest : SerializedRequest;
  lResponse : option SerializedResponse;
  lTimestamp : string;
  lEntrypoint : string;
  lDuration : Z;
  lLogs : bytes;
}.

(** [exec.Cmd]: the program, its arguments, its working directory and
    what it reads from its standard input. *)
Record Cmd : Type := mkCmd {
  cmdName : string;
  cmdArgs : list string;
  cmdDir : string;
  cmdStdin : string;
}.

(** What the handler does, in order. *)
Inductive event : Type :=
  | W (op : wop)                            (* a call on the response writer *)
  | LogWrite (logPath : string) (l : Log)   (* the call [writeLog(l, logPath)] *)
  | RemoveAll (dir : string)                (* the deferred [os.RemoveAll] *)
  | PanicEv (msg : string).

Fixpoint writes (evs : list event) : list wop :=
  match evs with
  | [] => []
  | W op :: evs' => op :: writes evs'
  | _ :: evs' => writes evs'
  end.

(** The operating system, the libraries and the child process, as the
    handler sees them while it serves one request. *)
Record World : Type := mkWorld {
  w_exists : string → bool;
  w_godotenv_Read : string → result (gmap string string);
  w_FileServer : string → Request → list wop;
  w_EscapedPath : URL → string;
  w_EscapedFragment : URL → string;
  w_escapeHost : string → string;
  w_visit : list string;
  w_xdgDataHome : string;
  w_MkdirTemp : result string;
  w_denoExecutable : result string;
  w_Encode : CommandInput → result string;
  w_Now : Z;
  w_Since : Z;
  w_FormatRFC3339 : Z → string;
  (** [cmd.CombinedOutput()]: what the child wrote to its standard
      output and error, and the error of the run (a failure to start,
      a non-zero exit status), if any. *)
  w_CombinedOutput : Cmd → bytes * option string;
  (** [os.Open(output)] once the child has run. *)
  w_Open : string → result bytes;
  (** [json.NewDecoder(f).Decode(&res)] *)
  w_Decode : bytes → result SerializedResponse;
  (** [writeLog(log, logPath)]: the error of opening the file or of
      encoding the record, if any; the handler drops it.  Nothing in
      this revision creates the directory [.logs]. *)
  w_writeLog : string → Log → option string;
}.

Definition dataHome (w : World) : string := path.Join [w_xdgDataHome w; "smallweb"].
Definition sandboxPath (w : World) : string := path.Join [dataHome w; "sandbox.ts"].

(** [if err != nil { http.Error(w, err.Error(), 500); return }] *)
Definition try {A : Type} (r : result A) (k : A → list event) : list event :=
  match r with
  | Ok a => k a
  | Err e => W <$> http_Error e StatusInternalServerError
  | Panic e => [PanicEv e]
  end.

(** [for _, header := range res.Headers { w.Header().Set(header[0],
    header[1]) }]; [w.WriteHeader(res.Status)]; the body when it is not
    nil. *)
Fixpoint write_response_headers (hs : list (list string)) (k : list event) : list event :=
  match hs with
  | [] => k
  | header :: hs' =>
      match header !! 0%nat, header !! 1%nat with
      | Some name, Some value => W (HeaderSet name value) :: write_response_headers hs' k
      | _, _ => [PanicEv (index_out_of_range (length header) (length header))]
      end
  end.

(** [w.WriteHeader(res.Status)] is the first call that sets a status, so
    a status outside 100..999 makes it panic and the body is never
    written. *)
Definition write_response (res : SerializedResponse) : list event :=
  write_response_headers (Headers res)
    (W (WriteHeader (Status res)) ::
     if valid_code (Status res) then
       match Body_ res with
       | Some b => [W (Write b)]
       | None => []
       end
     else [PanicEv (invalid_WriteHeader_code (Status res))]).

(** The length of the first header of [hs] that is not a pair: it has
    fewer than two strings. *)
Definition first_short (hs : list (list string)) : option nat :=
  length <$> find (λ h : list string, bool_decide (length h < 2)%nat) hs.

(** The command of the evaluator: [exec.Command(deno, "run", "-A",
    "--unstable-kv", sandboxPath)] in the directory of the entrypoint,
    reading the encoded input. *)
Definition evaluator_cmd (w : World) (entrypoint deno stdin : string) : Cmd :=
  mkCmd deno ["run"; "-A"; "--unstable-kv"; sandboxPath w] (path.Dir entrypoint) stdin.

(** The handler from [cmd.CombinedOutput()] on: run the child, log, read
    and decode the artifact, write the response. *)
Definition evaluate (w : World) (logPath entrypoint : string) (req : SerializedRequest)
    (output : string) (cmd : Cmd) : list event :=
  let timestamp := w_Now w in
  let '(outputBytes, err) := w_CombinedOutput w cmd in
  let duration := w_Since w in
  match err with
  | Some _ =>
      LogWrite logPath
        (mkLog req None (w_FormatRFC3339 w timestamp) entrypoint duration outputBytes)
      :: (W <$> http_Error (String.string_of_list_byte outputBytes)
                           StatusInternalServerError)
  | None =>
      try (w_Open w output) (λ f,
      try (w_Decode w f) (λ res,
        LogWrite logPath
          (mkLog req (Some res) (w_FormatRFC3339 w timestamp) entrypoint duration
                 outputBytes)
        :: write_response res))
  end.

Definition ServeHTTP (w : World) (rootDir : string) (r : Request) : list event :=
  let host := rHost r in
  match alias_of_host host with
  | None => [PanicEv (index_out_of_range 0 0)]
  | Some alias =>
  try (inferEntrypoint (w_exists w) rootDir alias) (λ entrypoint,
  if decide (path.Base entrypoint = "index.html")
  then W <$> w_FileServer w (path.Dir entrypoint) r
  else
  try (loadEnv (w_exists w) (w_godotenv_Read w) rootDir entrypoint) (λ env,
  try (serializeRequest (w_EscapedPath w) (w_EscapedFragment w) (w_escapeHost w)
         (w_visit w) r).1 (λ req,
  try (w_MkdirTemp w) (λ tempdir,
    (let output := path.Join [tempdir; "response.json"] in
     let input := mkCommandInput req entrypoint env output in
     try (w_denoExecutable w) (λ deno,
     try (w_Encode w input) (λ stdin,
     let cmd := evaluator_cmd w entrypoint deno stdin in
     let logPath := path.Join [rootDir; ".logs"; alias +:+ ".jsonl"] in
     evaluate w logPath entrypoint req output cmd)))
    ++ [RemoveAll tempdir]))))
  end.

(** ** The session and token store (package [cmd], [AuthMiddleware]) *)

Record Session : Type := mkSession {
  sID : string;
  sEmail : string;
  sDomain : string;
  sCreatedAt : Z;
  sExpiresAt : Z;
}.

Record Token : Type := mkToken {
  tHash : string;
}.

Record DB : Type := mkDB {
  sessions : gmap string Session;
  tokens : gmap string Token;
}.

Module database.

(** Modelled from the spec: package [database] ([InsertSession],
    [DeleteSession], [GetSession], [UpdateSession], [GetToken]) is not
    among the sources.  The store keeps one session per id and one token
    per public id; a fetch is a lookup by that key and fails when there
    is no such row, and create, update-expiry and delete each change one
    record.  The fetch of a session does not consult a clock here: the
    middleware tests the expiry itself on the session it is handed. *)
Definition InsertSession (db : DB) (s : Session) : result DB :=
  Ok (mkDB (<[sID s := s]> (sessions db)) (tokens db)).

Definition DeleteSession (db : DB) (sessionID : string) : result DB :=
  Ok (mkDB (delete sessionID (sessions db)) (tokens db)).

Definition GetSession (db : DB) (sessionID : string) : result Session :=
  match sessions db !! sessionID with
  | Some s => Ok s
  | None => Err "sql: no rows in result set"
  end.

Definition UpdateSession (db : DB) (s : Session) : result DB :=
  match sessions db !! sID s with
  | Some _ => Ok (mkDB (<[sID s := s]> (sessions db)) (tokens db))
  | None => Ok db
  end.

Definition GetToken (db : DB) (publicID : string) : result Token :=
  match tokens db !! publicID with
  | Some t => Ok t
  | None => Err "sql: no rows in result set"
  end.

End database.

Definition days (n : Z) : Z := n * 24 * time.Hour.

Section SessionStore.

(** [time.Now()]: the readings of the clock, in the order of the calls. *)
Variable clock : nat → Z.
(** [gonanoid.New()] *)
Variable gonanoid_New : result string.

Definition CreateSession (db : DB) (email domain : string) : result (string * DB) :=
  match gonanoid_New with
  | Ok sessionID =>
      let session :=
        mkSession sessionID email domain (clock 0) (time.Add (clock 1) (days 14)) in
      match database.InsertSession db session with
      | Ok db' => Ok (sessionID, db')
      | Err e => Err ("failed to insert session: " +:+ e)
      | Panic e => Panic e
      end
  | Err e => Err ("failed to generate session ID: " +:+ e)
  | Panic e => Panic e
  end.

End SessionStore.

Definition DeleteSession (db : DB) (sessionID : string) : result DB :=
  match database.DeleteSession db sessionID with
  | Ok db' => Ok db'
  | Err e => Err ("failed to delete session: " +:+ e)
  | Panic e => Panic e
  end.

(** [AuthMiddleware.GetSession], over the fetch of package [database]:
    [fetch] is [database.GetSession(me.db, ·)]. *)
Definition GetSession_over (fetch : string → result Session) (sessionID domain : string)
    : result Session :=
  match fetch sessionID with
  | Ok session =>
      if decide (sDomain session ≠ domain) then Err "session not found"
      else Ok session
  | Err e => Err ("failed to get session: " +:+ e)
  | Panic e => Panic e
  end.

Definition GetSession (db : DB) (sessionID domain : string) : result Session :=
  GetSession_over (database.GetSession db) sessionID domain.

(** The session [s] with a new expiry. *)
Definition with_expiry (s : Session) (expiresAt : Z) : Session :=
  mkSession (sID s) (sEmail s) (sDomain s) (sCreatedAt s) expiresAt.

Definition ExtendSession (db : DB) (sessionID : string) (expiresAt : Z) : result DB :=
  match database.GetSession db sessionID with
  | Ok session =>
      let session' := with_expiry session expiresAt in   (* [session.ExpiresAt = expiresAt] *)
      match database.UpdateSession db session' with
      | Ok db' => Ok db'
      | Err e => Err ("failed to update session: " +:+ e)
      | Panic e => Panic e
      end
  | Err e => Err ("failed to get session: " +:+ e)
  | Panic e => Panic e
  end.

(** Every row of the session table is stored under its own id. *)
Definition db_wf (db : DB) : Prop :=
  ∀ id s, sessions db !! id = Some s → sID s = id.


(** ** Credentials *)

(** Modelled from the spec: [parseToken] is not among the sources.  A
    credential is [<publicId>.<secret>]: it is split at its first dot
    and both sides must be non-empty. *)
Definition parseToken (token : string) : result (string * string) :=
  match strings_.Cut token "." with
  | Some (public, secret) =>
      if bool_decide (public = "") || bool_decide (secret = "")
      then Err "invalid token"
      else Ok (public, secret)
  | None => Err "invalid token"
  end.

Definition lower (c : ascii) : ascii :=
  let n := nat_of_ascii c in
  if (65 <=? n)%nat && (n <=? 90)%nat then ascii_of_nat (n + 32) else c.

Fixpoint EqualFold (s t : string) : bool :=
  match s, t with
  | "", "" => true
  | String a s', String b t' => bool_decide (lower a = lower b) && EqualFold s' t'
  | _, _ => false
  end.

(** [h.Get(key)] for a canonical [key]: the first value, or the empty
    string. *)
Definition Header_Get (h : gmap string (list string)) (key : string) : string :=
  match h !! key with
  | Some (v :: _) => v
  | _ => ""
  end.

Section BasicAuth.

(** [base64.StdEncoding.DecodeString] *)
Variable base64_DecodeString : string → option string.

(** [parseBasicAuth] of [net/http]: the scheme is matched without
    regard to case, the rest is decoded and cut at the first colon. *)
Definition parseBasicAuth (auth : string) : option (string * string) :=
  let pre := "Basic " in
  if (String.length auth <? String.length pre)%nat
     || negb (EqualFold (String.substring 0 (String.length pre) auth) pre)
  then None
  else
    match base64_DecodeString
            (String.substring (String.length pre)
               (String.length auth - String.length pre) auth) with
    | Some cs => strings_.Cut cs ":"
    | None => None
    end.

(** [r.BasicAuth()] *)
Definition BasicAuth (r : Request) : option (string * string) :=
  let auth := Header_Get (Header r) "Authorization" in
  if decide (auth = "") then None else parseBasicAuth auth.

End BasicAuth.

(** ** The authentication middleware ([AuthMiddleware.Wrap]) *)

Record oauthStore : Type := mkOauthStore {
  oState : string;
  oRedirect : string;
}.

(** The libraries and the identity provider, as the middleware sees them
    while it serves one request. *)
Record AuthEnv : Type := mkAuthEnv {
  base64_DecodeString : string → option string;
  (** [bcrypt.CompareHashAndPassword(hash, secret) == nil] *)
  bcrypt_Compare : string → string → bool;
  gonanoid_New : result string;
  generateBase62String : nat → result string;
  (** the readings of [time.Now()], in the order of the calls *)
  clock : nat → Z;
  (** [r.Cookie(name)]: the value of the cookie, or [http.ErrNoCookie] *)
  req_Cookie : Request → string → result string;
  (** [r.URL.Query().Get(key)] *)
  query_Get : URL → string → string;
  json_Marshal_store : oauthStore → result string;
  json_Unmarshal_store : string → result oauthStore;
  url_QueryEscape : string → string;
  url_QueryUnescape : string → result string;
  (** [oauth2Config.AuthCodeURL(state)] and [oauth2Config.Exchange(ctx,
      code)] for the configuration built from [r.Host]; the exchange
      yields the access token *)
  oauth_AuthCodeURL : string → string → string;
  oauth_Exchange : string → string → result string;
  (** the userinfo request: status code and body of the reply *)
  userinfo_Do : string → result (Z * bytes);
  userinfo_Decode : bytes → result string;
}.

(** What the middleware did: the store it leaves, its calls on the
    response writer, what it printed to the log, and whether it ended
    with [next.ServeHTTP(w, r)]. *)
Record Served : Type := mkServed {
  out_db : DB;
  out_ops : list wop;
  out_printed : list string;
  out_next : bool;
}.

Definition sessionCookieName : string := "smallweb-session".
Definition oauthCookieName : string := "smallweb-oauth-store".
Definition DQ : string := String (ascii_of_nat 34) "".

Definition unauthorized : list wop := http_Error "Unauthorized" StatusUnauthorized.
Definition internal_error : list wop :=
  http_Error "Internal Server Error" StatusInternalServerError.

(** [w.Header().Add("WWW-Authenticate", `<scheme> realm="smallweb"`)]
    and [http.Error(w, "Unauthorized", 401)]. *)
Definition challenge (scheme : string) : list wop :=
  HeaderAdd "WWW-Authenticate" (scheme +:+ " realm=" +:+ DQ +:+ "smallweb" +:+ DQ)
  :: unauthorized.

Definition login_redirect (r : Request) : wop :=
  Redirect ("/_auth/login?redirect=" +:+ Path (rURL r)) StatusSeeOther.

Section Wrap.

Variable env : AuthEnv.
(** The [email] argument of [Wrap]. *)
Variable email : string.

(** The body shared by the Basic and the Bearer branch: parse the
    credential, fetch the token by its public id, compare the secret
    with the stored hash. *)
Definition token_branch (db : DB) (scheme credential : string) : Served :=
  match parseToken credential with
  | Ok (public, secret) =>
      match database.GetToken db public with
      | Ok token =>
          if bcrypt_Compare env (tHash token) secret
          then mkServed db [] [] true
          else mkServed db (challenge scheme) [] false
      | _ => mkServed db (challenge scheme) [] false
      end
  | _ => mkServed db (challenge scheme) [] false
  end.

Definition login_branch (db : DB) (r : Request) : Served :=
  match generateBase62String env 16 with
  | Ok state =>
      let store := mkOauthStore state (query_Get env (rURL r) "redirect") in
      let '(value, marshal_ops) :=
        match json_Marshal_store env store with
        | Ok v => (v, [])
        | _ => ("", internal_error)     (* no [return] here *)
        end in
      mkServed db
        (marshal_ops ++
         [ SetCookie (mkCookie oauthCookieName (url_QueryEscape env value)
                        (time.Add (clock env 0) (5 * time.Minute)) "/" true true true);
           Redirect (oauth_AuthCodeURL env (rHost r) state) StatusSeeOther ])
        [] false
  | _ => mkServed db internal_error [] false
  end.

Definition deny (db : DB) (msg : string) : Served :=
  mkServed db unauthorized [msg] false.

Definition callback_branch (db : DB) (r : Request) : Served :=
  match req_Cookie env r oauthCookieName with
  | Ok oauthCookie =>
  match url_QueryUnescape env oauthCookie with
  | Ok value =>
  match json_Unmarshal_store env value with
  | Ok store =>
  if decide (query_Get env (rURL r) "state" ≠ oState store)
  then deny db "state mismatch"
  else
  let code := query_Get env (rURL r) "code" in
  if decide (code = "")
  then mkServed db (http_Error "Bad Request" StatusBadRequest) ["code not found"] false
  else
  match oauth_Exchange env (rHost r) code with
  | Ok accessToken =>
  match userinfo_Do env accessToken with
  | Ok (statusCode, body) =>
  if decide (statusCode ≠ StatusOK) then deny db "userinfo request failed"
  else
  match userinfo_Decode env body with
  | Ok userEmail =>
  match CreateSession (clock env) (gonanoid_New env) db userEmail (rHost r) with
  | Ok (sessionID, db') =>
      mkServed db'
        [ SetCookie (mkCookie oauthCookieName ""
                       (time.Add (clock env 2) (-1 * time.Hour)) "/" true true true);
          SetCookie (mkCookie sessionCookieName sessionID
                       (time.Add (clock env 3) (days 14)) "/" true true true);
          Redirect (oRedirect store) StatusSeeOther ]
        [] false
  | _ => deny db "failed to create session"
  end
  | _ => deny db "failed to decode userinfo"
  end
  | _ => mkServed db internal_error ["failed to execute userinfo request"] false
  end
  | _ => deny db "failed to exchange code"
  end
  | _ => deny db "failed to unmarshal oauth cookie"
  end
  | _ => deny db "failed to unescape oauth cookie"
  end
  | _ => deny db "failed to get oauth cookie"
  end.

Definition logout_branch (db : DB) (r : Request) : Served :=
  match req_Cookie env r sessionCookieName with
  | Ok cookie =>
      match DeleteSession db cookie with
      | Ok db' =>
          let redirect := query_Get env (rURL r) "redirect" in
          let redirect' :=
            if decide (redirect = "") then "https://" +:+ rHost r +:+ "/" else redirect in
          mkServed db'
            [ SetCookie (mkCookie sessionCookieName ""
                           (time.Add (clock env 0) (-1 * time.Hour)) "/" true true true);
              Redirect redirect' StatusSeeOther ]
            [] false
      | _ => deny db "failed to delete session"
      end
  | _ => deny db "failed to get session cookie"
  end.

(** The cookie that makes the browser drop its session cookie. *)
Definition expired_cookie (now : Z) : Cookie :=
  mkCookie sessionCookieName "" (time.Add now (-1 * time.Hour)) "" true true true.

Definition session_branch (db : DB) (r : Request) : Served :=
  match req_Cookie env r sessionCookieName with
  | Ok cookie =>
      match GetSession db cookie (rHost r) with
      | Ok session =>
          if time.After (clock env 0) (sExpiresAt session) then
            match DeleteSession db cookie with
            | Ok db' =>
                mkServed db' [SetCookie (expired_cookie (clock env 1)); login_redirect r]
                         [] false
            | _ => mkServed db internal_error [] false
            end
          else if decide (sEmail session ≠ email) then
            mkServed db unauthorized ["email mismatch"] false
          (* if session is near expiration, extend it *)
          else if time.After (time.Add (clock env 1) (days 7)) (sExpiresAt session) then
            match ExtendSession db cookie (time.Add (clock env 2) (days 14)) with
            | Ok db' => mkServed db' [] [] false
            | _ => mkServed db internal_error [] false
            end
          else mkServed db [] [] true
      | _ =>
          mkServed db [SetCookie (expired_cookie (clock env 0)); login_redirect r] [] false
      end
  | _ => mkServed db [login_redirect r] [] false
  end.

Definition Wrap (db : DB) (r : Request) : Served :=
  match BasicAuth (base64_DecodeString env) r with
  | Some (username, _) => token_branch db "Basic" username
  | None =>
      let authorization := Header_Get (Header r) "Authorization" in
      if strings_.HasPrefix authorization "Bearer " then
        token_branch db "Bearer" (strings_.TrimPrefix authorization "Bearer ")
      else if decide (email = "") then mkServed db (challenge "Basic") [] false
      else if decide (Path (rURL r) = "/_auth/login") then login_branch db r
      else if decide (Path (rURL r) = "/_auth/callback") then callback_branch db r
      else if decide (Path (rURL r) = "/_auth/logout") then logout_branch db r
      else session_branch db r
  end.

End Wrap.

(** ** The [up] command: dispatcher and cron driver ([NewCmdUp]) *)

Record CronJob : Type := mkCronJob {
  Schedule : string;
  Args : list string;
}.

Record Config : Type := mkConfig {
  Private : bool;
  PublicRoutes : list string;
  PrivateRoutes : list string;
  Crons : list CronJob;
}.

Record App : Type := mkApp {
  aEntrypoint : string;
  aRoot : string;
  aConfig : Config;
}.

(** The handler the [switch a.Entrypoint()] selects. *)
Inductive handler : Type :=
  | webdavHandler
  | cliHandler
  | docsHandler
  | staticHandler (root : string)
  | editorHandler
  | workerHandler (a : App).

Section Privacy.

(** Package [glob]: compiled patterns, [glob.Compile] and [Glob.Match]. *)
Variable Glob : Type.
Variable glob_Compile : string → result Glob.
Variable glob_Match : Glob → string → bool.

(** [glob.MustCompile(pattern)] panics when the pattern does not compile. *)
Definition glob_MustCompile (pattern : string) : result Glob :=
  match glob_Compile pattern with
  | Ok g => Ok g
  | Err e | Panic e => Panic e
  end.

(** [for _, route := range routes { glob := glob.MustCompile(route); if
    glob.Match(r.URL.Path) { isPrivateRoute = value } }] *)
Fixpoint route_loop (value : bool) (routes : list string) (urlPath : string)
    (isPrivateRoute : bool) : result bool :=
  match routes with
  | [] => Ok isPrivateRoute
  | route :: routes' =>
      g ← glob_MustCompile route;
      route_loop value routes' urlPath
        (if glob_Match g urlPath then value else isPrivateRoute)
  end.

Definition isPrivateRoute (c : Config) (urlPath : string) : result bool :=
  p ← route_loop false (PublicRoutes c) urlPath (Private c);
  route_loop true (PrivateRoutes c) urlPath p.

(** The condition under which the selected handler is wrapped in the
    authentication middleware. *)
Definition wrapped (c : Config) (urlPath : string) : result bool :=
  p ← isPrivateRoute c urlPath;
  Ok (p || strings_.HasPrefix urlPath "/_auth").

(** [route] compiles and matches [urlPath]. *)
Definition route_matches (urlPath route : string) : bool :=
  match glob_Compile route with
  | Ok g => glob_Match g urlPath
  | _ => false
  end.

(** Some pattern of [routes] matches [urlPath]. *)
Definition any_match (routes : list string) (urlPath : string) : bool :=
  existsb (route_matches urlPath) routes.

Definition all_compile (routes : list string) : Prop :=
  ∀ route, route ∈ routes → ∃ g, glob_Compile route = Ok g.

End Privacy.

Arguments glob_MustCompile {Glob} glob_Compile pattern.
Arguments route_loop {Glob} glob_Compile glob_Match value routes urlPath isPrivateRoute.
Arguments isPrivateRoute {Glob} glob_Compile glob_Match c urlPath.
Arguments wrapped {Glob} glob_Compile glob_Match c urlPath.
Arguments route_matches {Glob} glob_Compile glob_Match urlPath route.
Arguments any_match {Glob} glob_Compile glob_Match routes urlPath.
Arguments all_compile {Glob} glob_Compile routes.

(** The configuration, the apps on disk, the built-in handlers and the
    libraries, as the [up] command sees them. *)
Record UpEnv : Type := mkUpEnv {
  cfg_dir : string;            (* [utils.ExpandTilde(k.String("dir"))] *)
  cfg_domain : string;
  cfg_email : string;
  u_auth : AuthEnv;
  u_EscapedPath : URL → string;
  u_EscapedFragment : URL → string;
  u_escapeHost : string → string;
  u_Glob : Type;
  u_glob_Compile : string → result u_Glob;
  u_glob_Match : u_Glob → string → bool;
  (** [app.ListApps(rootDir)]: the names found, and the error if any *)
  ListApps : string → list string * option string;
  (** [app.LoadApp(dir, domain)] *)
  LoadApp : string → string → result App;
  (** [wk.StartServer()] of a fresh worker for the app *)
  StartServer : App → option string;
  (** what the selected handler does with the request *)
  serve : handler → Request → list wop;
  (** package [cron]: [parser.Parse] and [Schedule.Next] *)
  u_Sched : Type;
  cron_Parse : string → result u_Sched;
  cron_Next : u_Sched → Z → Z;
  (** [wk.Command(args...)] and [command.Run()] *)
  Command : App → list string → result Cmd;
  Run : Cmd → option string;
}.

Definition appname_of (e : UpEnv) (r : Request) : string :=
  appname_of_host (rHost r) (cfg_domain e).

(** The [switch] on the entrypoint; the worker of the default case is
    started at once and a failure to start ends the request. *)
Definition select_handler (e : UpEnv) (a : App) : result handler :=
  if decide (aEntrypoint a = "smallweb:webdav") then Ok webdavHandler
  else if decide (aEntrypoint a = "smallweb:cli") then Ok cliHandler
  else if decide (aEntrypoint a = "smallweb:docs") then Ok docsHandler
  else if decide (aEntrypoint a = "smallweb:static") then Ok (staticHandler (aRoot a))
  else if decide (aEntrypoint a = "smallweb:editor") then Ok editorHandler
  else
    match StartServer e a with
    | Some err => Err err
    | None => Ok (workerHandler a)
    end.

(** The selected handler itself: the WebDAV and the static handler first
    allow every origin and answer [OPTIONS] themselves. *)
Definition run_handler (e : UpEnv) (h : handler) (r : Request) : list wop :=
  match h with
  | webdavHandler =>
      [ HeaderSet "Access-Control-Allow-Origin" "*";
        HeaderSet "Access-Control-Allow-Methods" "*";
        HeaderSet "Access-Control-Allow-Headers" "*" ]
      ++ (if decide (Method r = "OPTIONS") then [] else serve e h r)
  | staticHandler _ =>
      [ HeaderSet "Access-Control-Allow-Origin" "*";
        HeaderSet "Access-Control-Allow-Methods" "GET, OPTIONS";
        HeaderSet "Access-Control-Allow-Headers" "Content-Type, Authorization" ]
      ++ (if decide (Method r = "OPTIONS") then [] else serve e h r)
  | _ => serve e h r
  end.

(** The handler of the server, inside the logging middleware: the store
    it leaves and its calls on the response writer, or the panic of
    [glob.MustCompile]. *)
Definition up_handler (e : UpEnv) (db : DB) (r : Request) : result (DB * list wop) :=
  if decide (rHost r = cfg_domain e) then
    let u := rURL r in
    let target :=
      mkURL "https" (Opaque u) (User u) ("www." +:+ cfg_domain e) (Path u)
            (OmitHost u) (ForceQuery u) (RawQuery u) (Fragment u) in
    Ok (db, [Redirect (URL_String (u_EscapedPath e) (u_EscapedFragment e)
                         (u_escapeHost e) target) StatusTemporaryRedirect])
  else
    let appname := appname_of e r in
    match LoadApp e (path.Join [cfg_dir e; appname]) (cfg_domain e) with
    | Ok a =>
        match select_handler e a with
        | Ok h =>
            match wrapped (u_glob_Compile e) (u_glob_Match e) (aConfig a)
                    (Path (rURL r)) with
            | Ok true =>
                let s := Wrap (u_auth e) (cfg_email e) db r in
                Ok (out_db s,
                    out_ops s ++ (if out_next s then run_handler e h r else []))
            | Ok false => Ok (db, run_handler e h r)
            | Err m | Panic m => Panic m
            end
        | Err m | Panic m => Ok (db, http_Error m StatusInternalServerError)
        end
    | _ => Ok (db, [WriteHeader StatusNotFound])
    end.

(** One run of the function registered with [c.AddFunc("* * * * *", ...)]. *)

Inductive cron_event : Type :=
  | Printed (msg : string)             (* [fmt.Println(err)] *)
  | Fired (name : string) (job : nat)  (* [worker.NewWorker] for job number [job] of the app *)
  | Ran (c : Cmd).                     (* [command.Run()] *)

Section Cron.

Variable e : UpEnv.

(** The body of the loop over [a.Config.Crons] for the job at index [i]. *)
Definition run_job (rounded : Z) (name : string) (a : App) (i : nat) (job : CronJob)
    : list cron_event :=
  match cron_Parse e (Schedule job) with
  | Ok sched =>
      if decide (cron_Next e sched (time.Add rounded (-1 * time.Second)) ≠ rounded)
      then []
      else
        Fired name i ::
        match Command e a (Args job) with
        | Ok command =>
            Ran command ::
            match Run e command with
            | Some err => [Printed err]
            | None => []
            end
        | Err err | Panic err => [Printed err]
        end
  | Err err | Panic err => [Printed err]
  end.

Definition run_app (rounded : Z) (name : string) : list cron_event :=
  match LoadApp e (path.Join [cfg_dir e; name]) (cfg_domain e) with
  | Ok a => mjoin (imap (run_job rounded name a) (Crons (aConfig a)))
  | Err err | Panic err => [Printed err]
  end.

(** [now] is the reading of [time.Now()] when the function starts. *)
Definition tick (now : Z) : list cron_event :=
  let rootDir := cfg_dir e in
  let rounded := time.Truncate now time.Minute in
  let '(apps, err) := ListApps e rootDir in
  match err with Some m => [Printed m] | None => [] end
  ++ mjoin (run_app rounded <$> apps).

(** The entry at index [i] of app [name] is due at the minute [t]:
    the app is listed and loads, the schedule parses, and its next
    activation after [t - 1s] is [t]. *)
Definition due (t : Z) (name : string) (i : nat) : Prop :=
  name ∈ (ListApps e (cfg_dir e)).1 ∧
  ∃ a job sched,
    LoadApp e (path.Join [cfg_dir e; name]) (cfg_domain e) = Ok a ∧
    Crons (aConfig a) !! i = Some job ∧
    cron_Parse e (Schedule job) = Ok sched ∧
    cron_Next e sched (t - time.Second) = t.

(** The schedule of [job] parses and its next activation after
    [t - 1s] is [t]. *)
Definition job_due (t : Z) (job : CronJob) : Prop :=
  ∃ sched,
    cron_Parse e (Schedule job) = Ok sched ∧ cron_Next e sched (t - time.Second) = t.

(** The entries that fire in a run, in order. *)
Definition fired (evs : list cron_event) : list (string * nat) :=
  omap (λ ev, match ev with Fired name i => Some (name, i) | _ => None end) evs.

End Cron.

(** ** Observations on what a handler did *)

(** The directories removed, the calls of [writeLog] and the panics. *)
Fixpoint removals (evs : list event) : list string :=
  match evs with
  | [] => []
  | RemoveAll dir :: evs' => dir :: removals evs'
  | _ :: evs' => removals evs'
  end.

Fixpoint log_writes (evs : list event) : list (string * Log) :=
  match evs with
  | [] => []
  | LogWrite logPath l :: evs' => (logPath, l) :: log_writes evs'
  | _ :: evs' => log_writes evs'
  end.

(** The records that reach the log file: those of the calls of
    [writeLog] that return no error. *)
Definition log_records (w : World) (evs : list event) : list (string * Log) :=
  filter (λ c, w_writeLog w c.1 c.2 = None) (log_writes evs).

Fixpoint panics (evs : list event) : list string :=
  match evs with
  | [] => []
  | PanicEv msg :: evs' => msg :: panics evs'
  | _ :: evs' => panics evs'
  end.

(** The codes passed to [w.WriteHeader], by the handler itself or by
    [http.Redirect] on its behalf, in order. *)
Fixpoint status_codes (ops : list wop) : list Z :=
  match ops with
  | [] => []
  | WriteHeader code :: ops' => code :: status_codes ops'
  | Redirect _ code :: ops' => code :: status_codes ops'
  | _ :: ops' => status_codes ops'
  end.

(** The events of a request that gets as far as creating its temporary
    directory. *)
Definition after_MkdirTemp (w : World) (rootDir alias entrypoint : string)
    (env : gmap string string) (req : SerializedRequest) (tempdir : string)
    : list event :=
  try (w_denoExecutable w) (λ deno,
  try (w_Encode w (mkCommandInput req entrypoint env
                     (path.Join [tempdir; "response.json"]))) (λ stdin,
    evaluate w (path.Join [rootDir; ".logs"; alias +:+ ".jsonl"]) entrypoint req
      (path.Join [tempdir; "response.json"]) (evaluator_cmd w entrypoint deno stdin))).

(** [pre] is empty or ends with a slash. *)
Definition dir_prefix (pre : string) : Prop := pre = "" ∨ ∃ q, pre = q +:+ "/".

(** ** The logging middleware ([responseWriter], [loggingMiddleware]) *)

(** [responseWriter] embeds the writer of the server and remembers the
    code of the latest [WriteHeader]: [statusCode] is the field, [ops]
    are the calls the wrapped handler makes. *)
Fixpoint recorded_status (statusCode : Z) (ops : list wop) : Z :=
  match ops with
  | [] => statusCode
  | WriteHeader code :: ops' => recorded_status code ops'
  | Redirect _ code :: ops' => recorded_status code ops'
  | _ :: ops' => recorded_status statusCode ops'
  end.

(** The attributes of the line [Request completed]. *)
Record Completed : Type := mkCompleted {
  logMethod : string;
  logHost : string;
  logPath : string;
  logStatus : Z;
  logDuration : Z;
}.

(** Every call of [ops] returns: none is a [WriteHeader] that panics in
    the writer of the server.  [wroteHeader] tells whether the header is
    already written, after which [WriteHeader] checks nothing. *)
Fixpoint returns (wroteHeader : bool) (ops : list wop) : bool :=
  match ops with
  | [] => true
  | WriteHeader code :: ops' | Redirect _ code :: ops' =>
      if wroteHeader then returns true ops'
      else
        match write_header code with
        | Some (Some _) => returns true ops'
        | Some None => returns false ops'
        | None => false
        end
  | Write _ :: ops' => returns true ops'
  | _ :: ops' => returns wroteHeader ops'
  end.

(** [loggingMiddleware(next, logger)]: [next] runs on a [responseWriter]
    that starts at 200 and hands every call on to the writer of the
    server; the line is logged when [next] returns.  The middleware
    defers nothing, so a panic inside [next] passes through it and
    nothing is logged.  [ops] are the calls of [next], [panic] is the
    panic that ends [next] when it panics by itself, [duration] is
    [time.Since(start)]. *)
Definition loggingMiddleware (duration : Z) (r : Request) (ops : list wop)
    (panic : option string) : option Completed :=
  match panic with
  | Some _ => None
  | None =>
      if returns false ops then
        Some (mkCompleted (Method r) (rHost r) (Path (rURL r))
                (recorded_status StatusOK ops) duration)
      else None
  end.

(** The line logged for a request to the server of [up]: its handler
    runs inside the logging middleware. *)
Definition up_logged (e : UpEnv) (db : DB) (r : Request) (duration : Z)
    : option Completed :=
  match up_handler e db r with
  | Ok (_, ops) => loggingMiddleware duration r ops None
  | Err m | Panic m => loggingMiddleware duration r [] (Some m)
  end.

(** The handler sets the status at most once, and not after it has
    started to write the body. *)
Fixpoint sets_status_once (ops : list wop) : bool :=
  match ops with
  | [] => true
  | WriteHeader _ :: ops' => bool_decide (status_codes ops' = [])
  | Redirect _ _ :: ops' => bool_decide (status_codes ops' = [])
  | Write _ :: ops' => bool_decide (status_codes ops' = [])
  | _ :: ops' => sets_status_once ops'
  end.

(** ** Starting the server ([NewCmdUp]) *)

(** [port == 0]: 443 when a certificate or a key is configured, 7777
    otherwise. *)
Definition effective_port (port : Z) (cert key : string) : Z :=
  if decide (port = 0) then
    if bool_decide (cert ≠ "") || bool_decide (key ≠ "") then 443 else 7777
  else port.

Inductive listener : Type :=
  | ListenAndServeTLS (port : Z) (cert key : string)
  | ListenAndServe (port : Z).

(** The end of [RunE]: which listener is started, on which port.
    [ExpandTilde] is [utils.ExpandTilde]. *)
Definition start_server (ExpandTilde : string → string) (port : Z) (cert key : string)
    : result listener :=
  let port := effective_port port cert key in
  if bool_decide (cert ≠ "") || bool_decide (key ≠ "") then
    if decide (cert = "") then Err "TLS certificate file is required"
    else if decide (key = "") then Err "TLS key file is required"
    else Ok (ListenAndServeTLS port (ExpandTilde cert) (ExpandTilde key))
  else Ok (ListenAndServe port).

(** ** The root page of the forwarding server ([server/root.go]) *)

Record Link : Type := mkLink {
  Href : string;
  Text : string;
}.

Record RootEnv : Type := mkRootEnv {
  (** [me.db.GetUserWithEmail(email)]: the name of the user *)
  GetUserWithEmail : string → result string;
  (** [me.forwarder.SendRequest(user.Name, "list-apps", nil)]: the
      reply flag and the payload, or the error *)
  SendRequest : string → string → result (bool * bytes);
  (** [ssh.Unmarshal(payload, &resp)]: the apps of the reply *)
  ssh_Unmarshal : bytes → result (list string);
  (** what [frontend.Layout(title, frontend.LinkList(links)).Render]
      writes *)
  render : string → list Link → bytes;
}.

(** The function [RootHandler.ServeHTTP] registers for the pattern [/]
    of its [ServeMux], which runs for every request the mux does not
    redirect to a canonical path.  [email] is the value of the context
    under [ContextKeyEmail] when it is a string.  The first [http.Error]
    is not followed by a [return]. *)
Definition root_page (e : RootEnv) (email : option string) (r : Request) : list wop :=
  (match email with
   | Some _ => []
   | None => unauthorized
   end)
  ++
  match GetUserWithEmail e (default "" email) with
  | Ok userName =>
      match SendRequest e userName "list-apps" with
      | Ok (true, payload) =>
          match ssh_Unmarshal e payload with
          | Ok apps =>
              let links :=
                (λ app, mkLink ("https://" +:+ app +:+ "-" +:+ userName +:+ "." +:+ rHost r)
                               app) <$> apps in
              [WriteHeader StatusOK; Write (render e "Smallweb" links)]
          | _ => internal_error
          end
      | _ => unauthorized
      end
  | _ => unauthorized
  end.

(** ** Who may pass the authentication middleware *)

(** [credential] is a token of the store: it parses, its public id is
    stored, and its secret matches the stored hash. *)
Definition token_valid (env : AuthEnv) (db : DB) (credential : string) : Prop :=
  ∃ public secret token,
    parseToken credential = Ok (public, secret) ∧
    tokens db !! public = Some token ∧
    bcrypt_Compare env (tHash token) secret = true.

(** The request presents a token, as Basic username or as Bearer
    credential. *)
Definition presents_token (env : AuthEnv) (db : DB) (r : Request) : Prop :=
  (∃ username password,
     BasicAuth (base64_DecodeString env) r = Some (username, password) ∧
     token_valid env db username)
  ∨ (BasicAuth (base64_DecodeString env) r = None ∧
     strings_.HasPrefix (Header_Get (Header r) "Authorization") "Bearer " = true ∧
     token_valid env db (strings_.TrimPrefix (Header_Get (Header r) "Authorization")
                           "Bearer ")).

(** The request carries neither Basic credentials nor a Bearer
    credential. *)
Definition no_credentials (env : AuthEnv) (r : Request) : Prop :=
  BasicAuth (base64_DecodeString env) r = None ∧
  strings_.HasPrefix (Header_Get (Header r) "Authorization") "Bearer " = false.

(** The request carries the cookie of a session of its host and of the
    account [email], which at the readings of the clock has not expired
    and has 7 days or more to live. *)
Definition presents_session (env : AuthEnv) (email : string) (db : DB) (r : Request)
    : Prop :=
  ∃ id s,
    req_Cookie env r sessionCookieName = Ok id ∧
    sessions db !! id = Some s ∧
    sDomain s = rHost r ∧
    sEmail s = email ∧
    clock env 0 ≤ sExpiresAt s ∧
    clock env 1 + days 7 ≤ sExpiresAt s.

Definition auth_page (urlPath : string) : Prop :=
  urlPath = "/_auth/login" ∨ urlPath = "/_auth/callback" ∨ urlPath = "/_auth/logout".

(** ** What a request may do to the store *)

(** The session named by the cookie of the request is deleted. *)
Definition session_deleted (env : AuthEnv) (r : Request) (db db' : DB) : Prop :=
  ∃ id,
    req_Cookie env r sessionCookieName = Ok id ∧
    sessions db' = delete id (sessions db).

(** The session named by the cookie of the request gets the expiry
    [clock 2 + 14 days]. *)
Definition session_extended (env : AuthEnv) (r : Request) (db db' : DB) : Prop :=
  ∃ id s,
    req_Cookie env r sessionCookieName = Ok id ∧
    sessions db !! id = Some s ∧
    sessions db' = <[id := with_expiry s (clock env 2 + days 14)]> (sessions db).

(** A session is created on the callback page, under a fresh id, for
    the host of the request, expiring 14 days later. *)
Definition session_created (env : AuthEnv) (r : Request) (db db' : DB) : Prop :=
  ∃ id mail,
    Path (rURL r) = "/_auth/callback" ∧
    gonanoid_New env = Ok id ∧
    sessions db' = <[id := mkSession id mail (rHost r) (clock env 0)
                             (clock env 1 + days 14)]> (sessions db).

(** The request passes every check of the callback page: the oauth
    cookie decodes to [store], the state of the query is the stored one,
    the code is exchanged for a token, and the provider reports the
    email [mail] for it. *)
Definition callback_checked (env : AuthEnv) (r : Request) (store : oauthStore)
    (mail : string) : Prop :=
  ∃ oauthCookie value accessToken body,
    req_Cookie env r oauthCookieName = Ok oauthCookie ∧
    url_QueryUnescape env oauthCookie = Ok value ∧
    json_Unmarshal_store env value = Ok store ∧
    query_Get env (rURL r) "state" = oState store ∧
    query_Get env (rURL r) "code" ≠ "" ∧
    oauth_Exchange env (rHost r) (query_Get env (rURL r) "code") = Ok accessToken ∧
    userinfo_Do env accessToken = Ok (StatusOK, body) ∧
    userinfo_Decode env body = Ok mail.

(** What a request may do to the store: the table of tokens and the
    rule that a session is stored under its own id are kept, and the
    sessions change in one of three ways at most. *)
Definition store_step (env : AuthEnv) (r : Request) (db db' : DB) : Prop :=
  db_wf db' ∧ tokens db' = tokens db ∧
  (db' = db ∨ session_deleted env r db db' ∨ session_extended env r db db'
   ∨ session_created env r db db').

(** No call sets a cookie. *)
Definition sets_no_cookie (ops : list wop) : Prop := ∀ c, SetCookie c ∉ ops.

(** ** The replies of the dispatcher that do not involve the app *)

(** The dispatcher answers by itself: with the redirect of the apex
    domain, 404 for an app that does not load, 500 for a worker that
    does not start, or the reply of the authentication middleware. *)
Definition answered_without_app (e : UpEnv) (db : DB) (r : Request) : Prop :=
  (∃ url, up_handler e db r = Ok (db, [Redirect url StatusTemporaryRedirect]))
  ∨ up_handler e db r = Ok (db, [WriteHeader StatusNotFound])
  ∨ (∃ m, up_handler e db r = Ok (db, http_Error m StatusInternalServerError))
  ∨ (out_next (Wrap (u_auth e) (cfg_email e) db r) = false ∧
     up_handler e db r
     = Ok (out_db (Wrap (u_auth e) (cfg_email e) db r),
           out_ops (Wrap (u_auth e) (cfg_email e) db r))).

(** The request is authenticated for the middleware. *)
Definition authenticated (env : AuthEnv) (email : string) (db : DB) (r : Request)
    : Prop :=
  presents_token env db r
  ∨ (no_credentials env r ∧ email ≠ "" ∧ ¬ auth_page (Path (rURL r)) ∧
     presents_session env email db r).

(** The commands run by the cron driver, in order. *)
Definition ran (evs : list cron_event) : list Cmd :=
  omap (λ ev, match ev with Ran c => Some c | _ => None end) evs.

(** The command the driver builds for an entry: the worker command of
    the app for the arguments of the entry. *)
Definition command_of (e : UpEnv) (entry : string * nat) : option Cmd :=
  match LoadApp e (path.Join [cfg_dir e; entry.1]) (cfg_domain e) with
  | Ok a =>
      match Crons (aConfig a) !! entry.2 with
      | Some job =>
          match Command e a (Args job) with
          | Ok command => Some command
          | _ => None
          end
      | None => None
      end
  | _ => None
  end.

(** ** Sample inputs *)

Module sample.

(** A root directory [/www] with the app [blog]: [/www/.env] holds
    [A=1], [B=2]; [/www/blog/.env] holds [B=3], [C=4]. *)
Definition rootEnv : gmap string string := {[ "A" := "1"; "B" := "2" ]}.
Definition dirEnv : gmap string string := {[ "B" := "3"; "C" := "4" ]}.

Definition files : list string :=
  ["/www/.env"; "/www/blog/.env"; "/www/blog/mod.ts"; "/www/blog/index.html"].

Definition exists_ (p : string) : bool := bool_decide (p ∈ files).

Definition godotenv_Read (p : string) : result (gmap string string) :=
  if decide (p = "/www/.env") then Ok rootEnv
  else if decide (p = "/www/blog/.env") then Ok dirEnv
  else Err "open: no such file or directory".

(** [GET http://blog.example.test/hello?x=1] with two headers, one of
    them with two values, and a body of three bytes. *)
Definition body : bytes := String.list_byte_of_string "abc".

Definition request : Request :=
  mkRequest "GET"
    (mkURL "" "" None "" "/hello" false false "x=1" "")
    {[ "Accept" := ["text/html"; "*/*"]; "User-Agent" := ["curl"] ]}
    (Ok body) "blog.example.test" false.

Definition visit : list string := ["User-Agent"; "Accept"].

(** The same request for a host without an app. *)
Definition request_nosuch : Request :=
  mkRequest "GET"
    (mkURL "" "" None "" "/hello" false false "x=1" "")
    {[ "Accept" := ["text/html"; "*/*"]; "User-Agent" := ["curl"] ]}
    (Ok body) "nosuch.example.test" false.

(** A world in which the child exits as [run] tells and the artifact is
    [artifact], decoded as [decoded]. *)
Definition response : SerializedResponse :=
  mkSerializedResponse 200 [["Content-Type"; "text/plain"]]
    (Some (String.list_byte_of_string "hello")).

Definition world_with (writeLog : string → Log → option string)
    (run : bytes * option string) (artifact : result bytes)
    (decoded : result SerializedResponse) : World :=
  mkWorld exists_ godotenv_Read (λ _ _, []) Path Fragment id visit
    "/home/user/.local/share" (Ok "/tmp/smallweb1") (Ok "/usr/bin/deno")
    (λ _, Ok "input") 0 5 (λ _, "1970-01-01T00:00:00Z")
    (λ _, run)
    (λ p, if decide (p = "/tmp/smallweb1/response.json") then artifact
          else Err "open: no such file or directory")
    (λ _, decoded) writeLog.

(** The directory [/www/.logs] exists and can be written. *)
Definition world : bytes * option string → result bytes → result SerializedResponse → World :=
  world_with (λ _ _, None).

Definition output : bytes := String.list_byte_of_string "log line".
Definition decode_error : string := "invalid character 'o' looking for beginning of value".

(** The child exits with status 0 and leaves an artifact that is not
    JSON. *)
Definition world_undecodable : World :=
  world (output, None) (Ok (String.list_byte_of_string "oops")) (Err decode_error).

(** The child exits with status 1. *)
Definition world_exit1 : World :=
  world (output, Some "exit status 1") (Err "open: no such file or directory")
        (Err decode_error).

(** The child exits with status 0 and the response it leaves has a
    header with a name and no value. *)
Definition world_bad_header : World :=
  world (output, None) (Ok (String.list_byte_of_string "json"))
        (Ok (mkSerializedResponse 200 [["Content-Type"; "text/plain"]; ["X-Broken"]]
               (Some (String.list_byte_of_string "hello")))).

(** The app [blog] holds nothing but [index.html]; the file server
    answers with the directory it serves. *)
Definition world_static : World :=
  mkWorld (λ p, bool_decide (p = "/www/blog/index.html")) godotenv_Read
    (λ dir _, [WriteHeader 200; Write (String.list_byte_of_string dir)])
    Path Fragment id visit
    "/home/user/.local/share" (Ok "/tmp/smallweb1") (Ok "/usr/bin/deno")
    (λ _, Ok "input") 0 5 (λ _, "1970-01-01T00:00:00Z")
    (λ _, (output, None)) (λ _, Err "open: no such file or directory")
    (λ _, Err decode_error) (λ _ _, None).

(** [/www/.env] cannot be parsed. *)
Definition godotenv_Read_bad (p : string) : result (gmap string string) :=
  if decide (p = "/www/.env") then Err "unexpected character in variable name"
  else godotenv_Read p.

Definition world_ok : World :=
  world (output, None) (Ok (String.list_byte_of_string "json")) (Ok response).

(** The same, but there is no directory [/www/.logs]. *)
Definition world_no_logs : World :=
  world_with (λ _ _, Some "open /www/.logs/blog.jsonl: no such file or directory")
    (output, None) (Ok (String.list_byte_of_string "json"))
    (Ok (mkSerializedResponse 200 [["Content-Type"; "text/plain"]; ["X-Broken"]]
           (Some (String.list_byte_of_string "hello")))).

(** The child leaves the artifact [{}]: no status, no headers, no
    body. *)
Definition world_empty_artifact : World :=
  world (output, None) (Ok (String.list_byte_of_string "{}"))
        (Ok (mkSerializedResponse 0 [] None)).

(** The child asks for early hints and a body. *)
Definition world_early_hints : World :=
  world (output, None) (Ok (String.list_byte_of_string "json"))
        (Ok (mkSerializedResponse 103 [] (Some (String.list_byte_of_string "hello")))).

(** There is no [deno] on the path. *)
Definition world_no_deno : World :=
  mkWorld exists_ godotenv_Read (λ _ _, []) Path Fragment id visit
    "/home/user/.local/share" (Ok "/tmp/smallweb1")
    (Err "exec: deno: executable file not found in $PATH")
    (λ _, Ok "input") 0 5 (λ _, "1970-01-01T00:00:00Z")
    (λ _, (output, None)) (λ _, Err "open: no such file or directory")
    (λ _, Err decode_error) (λ _ _, None).

(** The standard base64 alphabet, and the decoding of padded quads. *)
Definition b64_value (c : ascii) : option N :=
  let n := N_of_ascii c in
  if (65 <=? n)%N && (n <=? 90)%N then Some (n - 65)%N
  else if (97 <=? n)%N && (n <=? 122)%N then Some (n - 71)%N
  else if (48 <=? n)%N && (n <=? 57)%N then Some (n + 4)%N
  else if (n =? 43)%N then Some 62%N
  else if (n =? 47)%N then Some 63%N
  else None.

Definition b64_byte (hi lo : N) : ascii := ascii_of_N ((hi + lo) `mod` 256)%N.

Fixpoint b64_quads (l : list ascii) : option string :=
  match l with
  | [] => Some ""
  | a :: b :: c :: d :: rest =>
      va ← b64_value a; vb ← b64_value b;
      let b0 := b64_byte (va * 4) (vb / 16) in
      if decide (c = "="%char ∧ d = "="%char ∧ rest = []) then Some (String b0 "")
      else
        vc ← b64_value c;
        let b1 := b64_byte (vb * 16) (vc / 4) in
        if decide (d = "="%char ∧ rest = []) then Some (String b0 (String b1 ""))
        else
          vd ← b64_value d;
          let b2 := b64_byte (vc * 64) vd in
          tail ← b64_quads rest;
          Some (String b0 (String b1 (String b2 tail)))
  | _ => None
  end.

Definition base64_DecodeString (s : string) : option string :=
  b64_quads (filter (λ c, c ≠ ascii_of_nat 10 ∧ c ≠ ascii_of_nat 13)
               (list_ascii_of_string s)).

(** A stand-in for bcrypt: the hash of the secret [s] is [bcrypt:s]. *)
Definition bcrypt_Compare (hash secret : string) : bool :=
  bool_decide (hash = "bcrypt:" +:+ secret).

(** A request carries at most one cookie, [name=value]. *)
Definition req_Cookie (r : Request) (name : string) : result string :=
  match strings_.Cut (Header_Get (Header r) "Cookie") "=" with
  | Some (n, v) => if decide (n = name) then Ok v else Err "http: named cookie not present"
  | None => Err "http: named cookie not present"
  end.

(** The clock reads [t], [t + 1ms], [t + 2ms], ... *)
Definition auth_env (t : Z) : AuthEnv :=
  mkAuthEnv base64_DecodeString bcrypt_Compare (Ok "sid") (λ _, Ok "state")
    (λ n, t + Z.of_nat n * 1000000) req_Cookie (λ _ _, "")
    (λ _, Ok "store") (λ _, Ok (mkOauthStore "state" "/")) id Ok
    (λ host state, "https://lastlogin.net/auth?state=" +:+ state)
    (λ _ _, Ok "access") (λ _, Ok (200, [])) (λ _, Ok "me@example.test").

Definition email : string := "me@example.test".

(** The store after a login on [blog.example.test] at time 0: one
    session, which expires after 14 days, and the token [pub] whose
    secret is [secret]. *)
Definition session : Session :=
  mkSession "sid" email "blog.example.test" 0 (days 14).

Definition db : DB :=
  mkDB {[ "sid" := session ]} {[ "pub" := mkToken "bcrypt:secret" ]}.

(** A fetch that returns the rows of [db] which have not expired at
    [now]. *)
Definition fetch_at (now : Z) (id : string) : result Session :=
  match sessions db !! id with
  | Some s =>
      if decide (now < sExpiresAt s) then Ok s else Err "sql: no rows in result set"
  | None => Err "sql: no rows in result set"
  end.

Definition get (headers : gmap string (list string)) : Request :=
  mkRequest "GET" (mkURL "" "" None "" "/page" false false "" "") headers (Ok [])
    "blog.example.test" true.

(** [pub.secret:x] and [pub.secret:hunter2] as Basic credentials. *)
Definition basic_x : Request := get {[ "Authorization" := ["Basic cHViLnNlY3JldDp4"] ]}.
Definition basic_hunter2 : Request :=
  get {[ "Authorization" := ["Basic cHViLnNlY3JldDpodW50ZXIy"] ]}.

Definition with_cookie : Request := get {[ "Cookie" := ["smallweb-session=sid"] ]}.

(** The provider comes back with the state [state] and the code [abc];
    the browser still has the oauth cookie. *)
Definition auth_env_callback : AuthEnv :=
  mkAuthEnv base64_DecodeString bcrypt_Compare (Ok "sid2") (λ _, Ok "state")
    (λ n, days 1 + Z.of_nat n * 1000000) req_Cookie
    (λ _ key, if decide (key = "state") then "state"
              else if decide (key = "code") then "abc" else "")
    (λ _, Ok "store") (λ _, Ok (mkOauthStore "state" "/")) id Ok
    (λ host state, "https://lastlogin.net/auth?state=" +:+ state)
    (λ _ _, Ok "access") (λ _, Ok (200, [])) (λ _, Ok "me@example.test").

Definition callback : Request :=
  mkRequest "GET" (mkURL "" "" None "" "/_auth/callback" false false
                     "state=state&code=abc" "")
    {[ "Cookie" := ["smallweb-oauth-store=store"] ]} (Ok []) "blog.example.test" true.

Definition logout : Request :=
  mkRequest "GET" (mkURL "" "" None "" "/_auth/logout" false false "" "")
    {[ "Cookie" := ["smallweb-session=sid"] ]} (Ok []) "other.example.test" true.

(** The session cookie of [blog.example.test], presented to another
    host. *)
Definition with_cookie_elsewhere : Request :=
  mkRequest "GET" (mkURL "" "" None "" "/page" false false "" "")
    {[ "Cookie" := ["smallweb-session=sid"] ]} (Ok []) "other.example.test" true.

(** [GET https://blog.example.test/_auth/login], without credentials. *)
Definition login : Request :=
  mkRequest "GET" (mkURL "" "" None "" "/_auth/login" false false "" "") ∅ (Ok [])
    "blog.example.test" true.

(** Patterns of literal bytes, [?] (any byte) and [*] (any bytes);
    brackets, braces and escapes are not supported. *)
Fixpoint wildcard (p s : list ascii) : bool :=
  match p with
  | [] => bool_decide (s = [])
  | c :: p' =>
      if decide (c = "*"%char) then
        (fix star (s : list ascii) : bool :=
           wildcard p' s || match s with [] => false | _ :: s' => star s' end) s
      else
        match s with
        | [] => false
        | d :: s' => (bool_decide (c = "?"%char) || bool_decide (c = d)) && wildcard p' s'
        end
  end.

Definition glob_Compile (pattern : string) : result (list ascii) :=
  let p := list_ascii_of_string pattern in
  if existsb (λ c, bool_decide (c ∈ list_ascii_of_string "[]{}\")) p
  then Err "unsupported pattern"
  else Ok p.

Definition glob_Match (g : list ascii) (s : string) : bool :=
  wildcard g (list_ascii_of_string s).

(** A public app with a private corner. *)
Definition config : Config :=
  mkConfig false ["/public/*"] ["/public/admin*"]
    [mkCronJob "* * * * *" ["refresh"]; mkCronJob "*/5 * * * *" ["report"]].

(** Schedules [* * * * *] and [*/5 * * * *]: every [n] minutes. *)
Definition cron_Parse (spec : string) : result Z :=
  if decide (spec = "* * * * *") then Ok 1
  else if decide (spec = "*/5 * * * *") then Ok 5
  else Err "unsupported schedule".

(** The first multiple of the period after [t]. *)
Definition cron_Next (minutes t : Z) : Z :=
  let period := minutes * time.Minute in
  (t / period + 1) * period.

Definition up_env : UpEnv :=
  mkUpEnv "/www" "example.test" email (auth_env 0) Path Fragment id
    (list ascii) glob_Compile glob_Match
    (λ _, (["blog"], None))
    (λ dir _, if decide (dir = "/www/blog")
              then Ok (mkApp "/www/blog/mod.ts" "/www/blog" config)
              else Err "app not found")
    (λ _, None)
    (λ _ _, [WriteHeader 200])
    Z cron_Parse cron_Next
    (λ a args, Ok (mkCmd "deno" args (aRoot a) ""))
    (λ _, None).

End sample.

(** * Properties *)

(** ** Strings *)

Section StringFacts.

Implicit Types s t acc : string.

Lemma append_nil_l s : "" +:+ s = s.
Proof. reflexivity. Qed.

Lemma append_cons c s t : String c s +:+ t = String c (s +:+ t).
Proof. reflexivity. Qed.

Lemma rev_app_append s t acc :
  String.rev_app (s +:+ t) acc = String.rev_app t (String.rev_app s acc).
Proof.
  revert acc. induction s as [|c s IH]; intros acc; [done |].
  rewrite append_cons. apply IH.
Qed.

Lemma rev_app_acc s acc t :
  String.rev_app s (acc +:+ t) = String.rev_app s acc +:+ t.
Proof.
  revert acc. induction s as [|c s IH]; intros acc; [done |].
  apply (IH (String c acc)).
Qed.

Lemma rev_append s t : String.rev (s +:+ t) = String.rev t +:+ String.rev s.
Proof.
  unfold String.rev. rewrite rev_app_append.
  rewrite <- (append_nil_l (String.rev_app s "")).
  by rewrite rev_app_acc.
Qed.

Lemma prefix_append s t : String.prefix s (s +:+ t) = true.
Proof.
  induction s as [|c s IH]; [by destruct t |].
  rewrite append_cons. simpl.
  destruct (ascii_dec c c); [apply IH | done].
Qed.

Lemma length_append s t :
  String.length (s +:+ t) = (String.length s + String.length t)%nat.
Proof.
  induction s as [|c s IH]; [done |].
  rewrite append_cons. simpl. by rewrite IH.
Qed.

Lemma substring_append_l s t :
  String.substring 0 (String.length s) (s +:+ t) = s.
Proof.
  induction s as [|c s IH].
  - by destruct t.
  - rewrite append_cons. simpl. by rewrite IH.
Qed.

Lemma HasSuffix_append s suf : strings_.HasSuffix (s +:+ suf) suf = true.
Proof. unfold strings_.HasSuffix. rewrite rev_append. apply prefix_append. Qed.

Lemma TrimSuffix_append s suf : strings_.TrimSuffix (s +:+ suf) suf = s.
Proof.
  unfold strings_.TrimSuffix. rewrite HasSuffix_append, length_append.
  replace (String.length s + String.length suf - String.length suf)%nat
    with (String.length s) by lia.
  apply substring_append_l.
Qed.

Lemma TrimSuffix_none s suf :
  strings_.HasSuffix s suf = false → strings_.TrimSuffix s suf = s.
Proof. unfold strings_.TrimSuffix. by intros ->. Qed.

(** The first piece of a split at dots is the text before the first dot. *)
Lemma split_go_dot_head s cur :
  strings_.split_go "." 0 cur s !! 0%nat
  = Some (String.rev_app cur (leftmost_label s)).
Proof.
  revert cur. induction s as [|c s IH]; intros cur; [done |].
  cbn [strings_.split_go leftmost_label String.prefix].
  destruct (ascii_dec "." c) as [<-|Hne].
  - destruct s; reflexivity.
  - rewrite decide_False by congruence. rewrite IH. reflexivity.
Qed.

Lemma leftmost_label_no_dot host :
  strings_.Contains_byte "." (leftmost_label host) = false.
Proof.
  induction host as [|c s IH]; [done |]. simpl.
  destruct (decide (c = "."%char)) as [->|Hne]; [done |].
  simpl. by rewrite decide_False.
Qed.

Lemma leftmost_label_split host :
  ∃ rest, host = leftmost_label host +:+ rest ∧ (rest = "" ∨ ∃ r, rest = String "." r).
Proof.
  induction host as [|c s [rest [Heq Hrest]]].
  - exists "". by split; [|left].
  - simpl. destruct (decide (c = "."%char)) as [->|Hne].
    + exists (String "." s). split; [done | right; eauto].
    + exists rest. split; [by rewrite append_cons, <- Heq | done].
Qed.

Lemma leftmost_label_id host :
  strings_.Contains_byte "." host = false → leftmost_label host = host.
Proof.
  induction host as [|c s IH]; [done |]. simpl.
  destruct (decide (c = "."%char)); [done |].
  intros H. by rewrite IH.
Qed.

End StringFacts.

(** ** The alias of a request *)

(** C8 (as amended).  In the standalone handler the alias is the
    leftmost label of the host, which is the whole host when it has no
    dot.  In the dispatcher of the [up] command the app name is the host
    without its suffix [.<domain>]: for the host [<label>.<domain>] it is
    [<label>], and a host that does not end in [.<domain>] is taken
    whole. *)
Theorem alias_leftmost_label_or_host_without_domain :
  (∀ host, alias_of_host host = Some (leftmost_label host)) ∧
  (∀ host, strings_.Contains_byte "." host = false → alias_of_host host = Some host) ∧
  (∀ label domain, appname_of_host (label +:+ "." +:+ domain) domain = label) ∧
  (∀ host domain,
     strings_.HasSuffix host ("." +:+ domain) = false →
     appname_of_host host domain = host).
Proof.
  assert (Halias : ∀ host, alias_of_host host = Some (leftmost_label host)).
  { intros host. unfold alias_of_host, strings_.Split.
    by rewrite split_go_dot_head. }
  split_and!.
  - exact Halias.
  - intros host Hdot. by rewrite Halias, leftmost_label_id.
  - intros label domain. unfold appname_of_host. apply TrimSuffix_append.
  - intros host domain. unfold appname_of_host. apply TrimSuffix_none.
Qed.

(** C8 fails in the dispatcher of the [up] command: with the domain
    [example.test], the host [a.b.example.test] selects the app [a.b],
    not its leftmost label [a]. *)
Lemma appname_not_leftmost_label :
  appname_of_host "a.b.example.test" "example.test" = "a.b" ∧
  leftmost_label "a.b.example.test" = "a" ∧
  appname_of_host "a.b.example.test" "example.test"
    ≠ leftmost_label "a.b.example.test".
Proof. split_and!; [reflexivity | reflexivity | discriminate]. Qed.

(** ** Entrypoint resolution *)

Section ResolverFacts.

Variable exists_ : string → bool.

(** A loop over the extensions is a search for the first candidate that
    exists. *)
Lemma try_extensions_find mk exts :
  try_extensions exists_ mk exts = List.find exists_ (map mk exts).
Proof.
  induction exts as [|ext exts IH]; [done |]. simpl.
  destruct (exists_ (mk ext)); [done | apply IH].
Qed.

Lemma find_app_first (l1 l2 : list string) :
  List.find exists_ (l1 ++ l2)
  = match List.find exists_ l1 with
    | Some p => Some p
    | None => List.find exists_ l2
    end.
Proof.
  induction l1 as [|x l1 IH]; [done |]. simpl.
  destruct (exists_ x); [done | apply IH].
Qed.

Lemma candidates_by_group rootDir alias :
  entrypoint_candidates rootDir alias
  = map (λ ext, path.Join [rootDir; alias +:+ ext]) extensions
    ++ map (λ ext, path.Join [rootDir; alias; "mod" +:+ ext]) extensions
    ++ map (λ ext, path.Join [rootDir; alias; alias +:+ ext]) extensions
    ++ [path.Join [rootDir; alias; "index.html"]].
Proof. reflexivity. Qed.

Lemma inferEntrypoint_find rootDir alias :
  inferEntrypoint exists_ rootDir alias
  = match List.find exists_ (entrypoint_candidates rootDir alias) with
    | Some p => Ok p
    | None => Err "entrypoint not found"
    end.
Proof.
  rewrite candidates_by_group. unfold inferEntrypoint.
  rewrite !find_app_first, !try_extensions_find.
  repeat (match goal with
          | |- context [List.find exists_ (map ?f extensions)] =>
              destruct (List.find exists_ (map f extensions)); [reflexivity |]
          end).
  cbn [List.find]. by destruct (exists_ _).
Qed.

Lemma find_first_existing (cands : list string) (p : string) :
  List.find exists_ cands = Some p ↔ first_existing exists_ cands p.
Proof.
  unfold first_existing. induction cands as [|x cands IH]; simpl.
  - split; [done | by intros (i & ? & _)].
  - destruct (exists_ x) eqn:Hx.
    + split.
      * intros [= ->]. exists 0%nat. split_and!; [done | done | intros; lia].
      * intros ([|i] & Hi & Hp & Hbefore).
        -- by simplify_eq/=.
        -- specialize (Hbefore 0%nat x). simpl in Hbefore.
           rewrite Hbefore in Hx by (done || lia). done.
    + rewrite IH. split.
      * intros (i & Hi & Hp & Hbefore). exists (S i). split_and!; [done | done |].
        intros [|j] q Hj Hq; simplify_eq/=; [done |]. apply (Hbefore j); [lia | done].
      * intros ([|i] & Hi & Hp & Hbefore); simplify_eq/=; [congruence |].
        exists i. split_and!; [done | done |].
        intros j q Hj Hq. apply (Hbefore (S j)); [lia | done].
Qed.

Lemma find_none_all (cands : list string) :
  List.find exists_ cands = None ↔ ∀ q, q ∈ cands → exists_ q = false.
Proof.
  induction cands as [|x cands IH]; simpl.
  - split; [intros _ q Hq; by apply elem_of_nil in Hq | done].
  - destruct (exists_ x) eqn:Hx.
    + split; [done |]. intros H. rewrite H in Hx by left. done.
    + rewrite IH. split.
      * intros H q [->|Hq]%elem_of_cons; [done | by apply H].
      * intros H q Hq. apply H. by right.
Qed.

End ResolverFacts.

(** C5.  Entrypoint resolution is a function of the root directory, the
    alias and the files that exist.  It returns the first candidate that
    exists, in the order: [rootDir/alias] with the extensions [.js],
    [.ts], [.jsx], [.tsx]; [rootDir/alias/mod] with the same extensions;
    [rootDir/alias/alias] with the same extensions; then
    [rootDir/alias/index.html].  When no candidate exists it fails with
    "entrypoint not found". *)
Theorem inferEntrypoint_first_existing_candidate
    (exists_ : string → bool) (rootDir alias : string) :
  (∀ p, inferEntrypoint exists_ rootDir alias = Ok p
        ↔ first_existing exists_ (entrypoint_candidates rootDir alias) p) ∧
  (inferEntrypoint exists_ rootDir alias = Err "entrypoint not found"
   ↔ ∀ q, q ∈ entrypoint_candidates rootDir alias → exists_ q = false) ∧
  ((∃ p, inferEntrypoint exists_ rootDir alias = Ok p)
   ∨ inferEntrypoint exists_ rootDir alias = Err "entrypoint not found").
Proof.
  rewrite inferEntrypoint_find.
  split_and!.
  - intros p. rewrite <- find_first_existing.
    destruct (List.find _ _); split; congruence.
  - rewrite <- find_none_all. destruct (List.find _ _); split; congruence.
  - destruct (List.find _ _); eauto.
Qed.

(** ** Environment composition *)

Lemma overlay_union (env dirEnv : gmap string string) :
  overlay env dirEnv = dirEnv ∪ env.
Proof.
  unfold overlay.
  apply (map_fold_weak_ind (λ r m, r = m ∪ env)).
  - by rewrite (left_id_L ∅ (∪)).
  - intros k v m r _ ->. by rewrite insert_union_l.
Qed.

Lemma lookup_layers (dirEnv rootEnv : gmap string string) (k : string) :
  (dirEnv ∪ rootEnv) !! k
  = match dirEnv !! k with
    | Some v => Some v
    | None => rootEnv !! k
    end.
Proof.
  rewrite lookup_union. destruct (dirEnv !! k), (rootEnv !! k); reflexivity.
Qed.

Lemma Ext_index_html dir : path.Ext (dir +:+ "/index.html") = ".html".
Proof.
  unfold path.Ext. generalize (@None string).
  induction dir as [|c dir IH]; intros cur; [reflexivity |].
  rewrite append_cons. cbn [path.ext_go].
  repeat case_decide; apply IH.
Qed.

Section EnvFacts.

Variable exists_ : string → bool.
Variable godotenv_Read : string → result (gmap string string).

Lemma loadEnv_html root entrypoint :
  path.Ext entrypoint = ".html" →
  loadEnv exists_ godotenv_Read root entrypoint = Ok ∅.
Proof. intros H. unfold loadEnv. by rewrite decide_True. Qed.

Lemma loadEnv_union root entrypoint rootEnv dirEnv :
  path.Ext entrypoint ≠ ".html" →
  env_of_file exists_ godotenv_Read (path.Join [root; ".env"]) = Ok rootEnv →
  env_of_file exists_ godotenv_Read (path.Join [path.Dir entrypoint; ".env"]) = Ok dirEnv →
  loadEnv exists_ godotenv_Read root entrypoint = Ok (dirEnv ∪ rootEnv).
Proof.
  intros Hext Hroot Hdir. unfold loadEnv. rewrite decide_False by done.
  unfold env_of_file in Hroot, Hdir.
  set (rootEnvPath := path.Join [root; ".env"]) in *.
  set (envPath := path.Join [path.Dir entrypoint; ".env"]) in *.
  assert (Hfirst :
    (if exists_ rootEnvPath then godotenv_Read rootEnvPath else Ok ∅) = Ok rootEnv)
    by exact Hroot.
  rewrite Hfirst. cbn [mbind result_bind].
  destruct (exists_ envPath) eqn:Hex; simpl.
  - case_bool_decide as Hsame.
    + rewrite Hsame in Hdir, Hex. rewrite Hex, Hdir in Hfirst.
      injection Hfirst as <-. by rewrite (idemp_L (∪)).
    + rewrite Hdir. cbn [mbind result_bind]. by rewrite overlay_union.
  - injection Hdir as <-. by rewrite (left_id_L ∅ (∪)).
Qed.

End EnvFacts.

(** C6.  When both [.env] files can be read (an absent file counts as
    empty and is no error), the environment of an entrypoint that is not
    an [.html] file is the app-local file laid over the one of the root
    directory: a key of both files has the app-local value, a key of one
    file has that file's value.  An entrypoint named [index.html] has
    the empty environment. *)
Theorem loadEnv_app_local_over_root
    (exists_ : string → bool) (godotenv_Read : string → result (gmap string string))
    (root entrypoint : string) (rootEnv dirEnv : gmap string string) :
  env_of_file exists_ godotenv_Read (path.Join [root; ".env"]) = Ok rootEnv →
  env_of_file exists_ godotenv_Read (path.Join [path.Dir entrypoint; ".env"]) = Ok dirEnv →
  (path.Ext entrypoint ≠ ".html" →
   ∃ env, loadEnv exists_ godotenv_Read root entrypoint = Ok env ∧
     (∀ k v, dirEnv !! k = Some v → env !! k = Some v) ∧
     (∀ k, dirEnv !! k = None → env !! k = rootEnv !! k)) ∧
  (exists_ (path.Join [root; ".env"]) = false →
   exists_ (path.Join [path.Dir entrypoint; ".env"]) = false →
   loadEnv exists_ godotenv_Read root entrypoint = Ok ∅) ∧
  (∀ dir, loadEnv exists_ godotenv_Read root (dir +:+ "/index.html") = Ok ∅) ∧
  loadEnv exists_ godotenv_Read root "index.html" = Ok ∅.
Proof.
  intros Hroot Hdir. split_and!.
  - intros Hext. exists (dirEnv ∪ rootEnv). split_and!.
    + by apply loadEnv_union.
    + intros k v Hk. by rewrite lookup_layers, Hk.
    + intros k Hk. by rewrite lookup_layers, Hk.
  - intros Hr Hd. unfold env_of_file in Hroot, Hdir. rewrite Hr in Hroot.
    rewrite Hd in Hdir. injection Hroot as <-. injection Hdir as <-.
    destruct (decide (path.Ext entrypoint = ".html")) as [Hext|Hext].
    + by apply loadEnv_html.
    + rewrite (loadEnv_union _ _ _ _ ∅ ∅ Hext).
      * by rewrite (left_id_L ∅ (∪)).
      * unfold env_of_file. by rewrite Hr.
      * unfold env_of_file. by rewrite Hd.
  - intros dir. apply loadEnv_html, Ext_index_html.
  - by apply loadEnv_html.
Qed.

Lemma loadEnv_app_local_over_root_witness :
  (path.Ext "/www/blog/mod.ts" ≠ ".html" →
   ∃ env, loadEnv sample.exists_ sample.godotenv_Read "/www" "/www/blog/mod.ts" = Ok env ∧
     (∀ k v, sample.dirEnv !! k = Some v → env !! k = Some v) ∧
     (∀ k, sample.dirEnv !! k = None → env !! k = sample.rootEnv !! k)) ∧
  (sample.exists_ (path.Join ["/www"; ".env"]) = false →
   sample.exists_ (path.Join [path.Dir "/www/blog/mod.ts"; ".env"]) = false →
   loadEnv sample.exists_ sample.godotenv_Read "/www" "/www/blog/mod.ts" = Ok ∅) ∧
  (∀ dir, loadEnv sample.exists_ sample.godotenv_Read "/www" (dir +:+ "/index.html")
          = Ok ∅) ∧
  loadEnv sample.exists_ sample.godotenv_Read "/www" "index.html" = Ok ∅.
Proof.
  apply (loadEnv_app_local_over_root sample.exists_ sample.godotenv_Read
           "/www" "/www/blog/mod.ts" sample.rootEnv sample.dirEnv).
  - reflexivity.
  - reflexivity.
Defined.

(** The environment of [/www/blog/mod.ts]: [A=1], [B=3], [C=4]. *)
Example loadEnv_sample :
  loadEnv sample.exists_ sample.godotenv_Read "/www" "/www/blog/mod.ts"
  = Ok {[ "A" := "1"; "B" := "3"; "C" := "4" ]}.
Proof. vm_compute. reflexivity. Qed.

Example inferEntrypoint_sample :
  inferEntrypoint sample.exists_ "/www" "blog" = Ok "/www/blog/mod.ts".
Proof. vm_compute. reflexivity. Qed.

(** ** Request serialization *)

Lemma append_assoc (s t u : string) : (s +:+ t) +:+ u = s +:+ t +:+ u.
Proof.
  induction s as [|c s IH]; [done |].
  rewrite !append_cons. by rewrite IH.
Qed.

Lemma append_nil_r (s : string) : s +:+ "" = s.
Proof. induction s as [|c s IH]; [done |]. rewrite append_cons. by rewrite IH. Qed.

Lemma header_pairs_visit (m : gmap string (list string)) (visit : list string)
    (acc : list (list string)) :
  (∀ k, k ∈ visit → ∃ v0 vs, m !! k = Some (v0 :: vs)) →
  ∃ hs, header_pairs (range_map m visit) acc = Ok (acc ++ hs)
        ∧ Forall2 (first_value_pair m) visit hs.
Proof.
  revert acc. induction visit as [|k visit IH]; intros acc Hall.
  - exists []. split; [by rewrite app_nil_r | constructor].
  - destruct (Hall k) as (v0 & vs & Hk); [by left |].
    destruct (IH (acc ++ [[k; v0]])) as (hs & Hhs & Hrel).
    { intros k' Hk'. apply Hall. by right. }
    exists ([k; v0] :: hs). split.
    + unfold range_map in *. cbn [omap list_omap]. rewrite Hk. cbn.
      rewrite Hhs. by rewrite <- app_assoc.
    + constructor; [by exists v0, vs | done].
Qed.

Section SerializeFacts.

Variable EscapedPath : URL → string.
Variable EscapedFragment : URL → string.
Variable escapeHost : string → string.

(** The text of a URL with a scheme and a host, no opaque part, no user
    and no fragment, whose escaped path is empty or starts with a slash. *)
Lemma URL_String_origin_form (u : URL) :
  Scheme u ≠ "" → Opaque u = "" → User u = None → Host u ≠ "" → Fragment u = "" →
  (EscapedPath u = "" ∨ strings_.HasPrefix (EscapedPath u) "/" = true) →
  URL_String EscapedPath EscapedFragment escapeHost u
  = Scheme u +:+ "://" +:+ escapeHost (Host u) +:+ EscapedPath u
    +:+ (if ForceQuery u || bool_decide (RawQuery u ≠ "")
         then "?" +:+ RawQuery u else "").
Proof.
  intros Hscheme Hopaque Huser Hhost Hfrag Hpath. unfold URL_String.
  rewrite Hopaque, Huser, Hfrag.
  rewrite (decide_False (P := Scheme u = "")) by done.
  rewrite (decide_True (P := "" = "")) by done.
  rewrite (decide_False (P := Host u = "")) by done.
  rewrite (bool_decide_eq_true_2 (Scheme u ≠ "" ∨ Host u ≠ "" ∨ None ≠ None)) by auto.
  rewrite (bool_decide_eq_false_2 (Host u = "")) by done.
  rewrite andb_false_r. cbn [andb].
  rewrite (bool_decide_eq_true_2 (Host u ≠ "" ∨ Path u ≠ "" ∨ None ≠ None)) by auto.
  assert (Hslash : bool_decide (EscapedPath u ≠ "")
                   && negb (strings_.HasPrefix (EscapedPath u) "/")
                   && bool_decide (Host u ≠ "") = false).
  { destruct Hpath as [-> | ->]; [done |]. by rewrite andb_false_r. }
  rewrite Hslash.
  match goal with
  | |- context [bool_decide (?buf = "")] => rewrite (bool_decide_eq_false_2 (buf = ""))
  end.
  2:{ destruct (Scheme u); [done |]. rewrite !append_cons. discriminate. }
  cbn [andb]. rewrite append_nil_l.
  repeat case_decide; try done;
    destruct (ForceQuery u || bool_decide (RawQuery u ≠ ""));
    rewrite ?append_nil_r, ?append_assoc; reflexivity.
Qed.

End SerializeFacts.

(** C7.  For a request in origin form (a Host, no opaque part, user or
    fragment, a path that is empty or starts with a slash) whose body
    can be read and whose headers each have a value, serialization
    succeeds: the body is the whole body; the url is the scheme, [://],
    the host, the path and, when there is a query, [?] and the query,
    with the scheme [https] when the transport is TLS and [http]
    otherwise; the headers are one pair per header name, in the order in
    which the [range] over the header map visits the names, each with
    the first value of that name. *)
Theorem serializeRequest_body_url_first_values
    (EscapedPath EscapedFragment : URL → string) (escapeHost : string → string)
    (visit : list string) (req : Request) (body : bytes) :
  visit ≡ₚ elements (dom (Header req)) →
  (∀ k v, Header req !! k = Some v → v ≠ []) →
  Body req = Ok body →
  Opaque (rURL req) = "" → User (rURL req) = None → Fragment (rURL req) = "" →
  rHost req ≠ "" →
  (∀ u, Path u = Path (rURL req) →
        EscapedPath u = "" ∨ strings_.HasPrefix (EscapedPath u) "/" = true) →
  ∃ res url,
    serializeRequest EscapedPath EscapedFragment escapeHost visit req
    = (Ok res,
       mkRequest (Method req) url (Header req) (Body req) (rHost req) (TLS req)) ∧
    sBody res = body ∧
    sMethod res = Method req ∧
    Url res
    = (if TLS req then "https" else "http") +:+ "://" +:+ escapeHost (rHost req)
      +:+ EscapedPath url
      +:+ (if ForceQuery (rURL req) || bool_decide (RawQuery (rURL req) ≠ "")
           then "?" +:+ RawQuery (rURL req) else "") ∧
    Forall2 (first_value_pair (Header req)) visit (sHeaders res) ∧
    length (sHeaders res) = size (Header req).
Proof.
  intros Hvisit Hvalues Hbody Hopaque Huser Hfrag Hhost Hpath.
  destruct (header_pairs_visit (Header req) visit []) as (hs & Hhs & Hrel).
  { intros k Hk. rewrite Hvisit in Hk. apply elem_of_elements, elem_of_dom in Hk.
    destruct Hk as [[|v0 vs] Hk]; [by destruct (Hvalues _ _ Hk) | eauto]. }
  set (url := mkURL (if TLS req then "https" else "http") (Opaque (rURL req))
                (User (rURL req)) (rHost req) (Path (rURL req)) (OmitHost (rURL req))
                (ForceQuery (rURL req)) (RawQuery (rURL req)) (Fragment (rURL req))).
  eexists _, url. split_and!.
  - unfold serializeRequest. fold url. rewrite Hhs, Hbody. reflexivity.
  - reflexivity.
  - reflexivity.
  - cbn [Url]. rewrite URL_String_origin_form; try done.
    + by destruct (TLS req).
    + by apply Hpath.
  - exact Hrel.
  - cbn [sHeaders app]. rewrite <- (Forall2_length _ _ _ Hrel), Hvisit.
    rewrite <- size_dom. reflexivity.
Qed.

Lemma serializeRequest_body_url_first_values_witness :
  ∃ res url,
    serializeRequest Path Fragment id sample.visit sample.request
    = (Ok res,
       mkRequest "GET" url (Header sample.request) (Ok sample.body)
         "blog.example.test" false) ∧
    sBody res = sample.body ∧
    sMethod res = "GET" ∧
    Url res
    = "http" +:+ "://" +:+ "blog.example.test" +:+ Path url +:+ "?" +:+ "x=1" ∧
    Forall2 (first_value_pair (Header sample.request)) sample.visit (sHeaders res) ∧
    length (sHeaders res) = size (Header sample.request).
Proof.
  apply (serializeRequest_body_url_first_values Path Fragment id
           sample.visit sample.request sample.body).
  - vm_compute. first [reflexivity | apply perm_swap].
  - intros k v Hk. destruct (decide (k = "Accept")) as [->|Hne1].
    + vm_compute in Hk. by injection Hk as <-.
    + destruct (decide (k = "User-Agent")) as [->|Hne2].
      * vm_compute in Hk. by injection Hk as <-.
      * unfold sample.request in Hk. cbn [Header] in Hk.
        rewrite lookup_insert_ne in Hk by done.
        by rewrite lookup_singleton_ne in Hk.
  - reflexivity.
  - reflexivity.
  - reflexivity.
  - reflexivity.
  - discriminate.
  - intros u Hu. right. cbn in Hu. by rewrite Hu.
Defined.

Example serializeRequest_sample :
  (serializeRequest Path Fragment id sample.visit sample.request).1
  = Ok (mkSerializedRequest "http://blog.example.test/hello?x=1" "GET"
          [["User-Agent"; "curl"]; ["Accept"; "text/html"]] sample.body).
Proof. vm_compute. reflexivity. Qed.

(** ** The evaluator boundary *)

Lemma writes_W (ops : list wop) : writes (W <$> ops) = ops.
Proof.
  induction ops as [|op ops IH]; [done |].
  rewrite fmap_cons. cbn [writes]. by rewrite IH.
Qed.

Lemma writes_app (evs1 evs2 : list event) :
  writes (evs1 ++ evs2) = writes evs1 ++ writes evs2.
Proof.
  induction evs1 as [|ev evs1 IH]; [done |].
  destruct ev; simpl; by rewrite IH.
Qed.

Lemma list_byte_of_string_append (s t : string) :
  String.list_byte_of_string (s +:+ t)
  = String.list_byte_of_string s ++ String.list_byte_of_string t.
Proof.
  unfold String.list_byte_of_string.
  induction s as [|c s IH]; [done |].
  rewrite append_cons. simpl. by rewrite IH.
Qed.

Lemma status_of_http_Error msg code :
  write_header code = Some (Some code) →
  status_of (http_Error msg code) = Some code.
Proof. intros Hcode. unfold http_Error. cbn [status_of]. by rewrite Hcode. Qed.

Lemma body_of_http_Error msg code :
  body_of (http_Error msg code)
  = String.list_byte_of_string msg ++ String.list_byte_of_string LF.
Proof.
  unfold http_Error. cbn [body_of]. by rewrite list_byte_of_string_append, app_nil_r.
Qed.

Lemma write_response_headers_ok (hs : list (list string)) (k : list event) :
  Forall (λ h : list string, (2 ≤ length h)%nat) hs →
  status_of (writes (write_response_headers hs k)) = status_of (writes k) ∧
  body_of (writes (write_response_headers hs k)) = body_of (writes k).
Proof.
  induction 1 as [|h hs Hh _ IH]; [done |].
  destruct h as [|name [|value h]]; simpl in Hh; [lia | lia |].
  exact IH.
Qed.

Section EvaluateFacts.

Variable w : World.
Variables (logPath entrypoint : string) (req : SerializedRequest).
Variables (output : string) (cmd : Cmd).

Lemma evaluate_run_failed out e :
  w_CombinedOutput w cmd = (out, Some e) →
  status_of (writes (evaluate w logPath entrypoint req output cmd))
  = Some StatusInternalServerError ∧
  body_of (writes (evaluate w logPath entrypoint req output cmd))
  = out ++ String.list_byte_of_string LF.
Proof.
  intros Hrun. unfold evaluate. rewrite Hrun. cbn [writes].
  rewrite writes_W, status_of_http_Error, body_of_http_Error by done.
  by rewrite String.list_byte_of_string_of_list_byte.
Qed.

Lemma evaluate_open_failed out e :
  w_CombinedOutput w cmd = (out, None) →
  w_Open w output = Err e →
  status_of (writes (evaluate w logPath entrypoint req output cmd))
  = Some StatusInternalServerError ∧
  body_of (writes (evaluate w logPath entrypoint req output cmd))
  = String.list_byte_of_string e ++ String.list_byte_of_string LF.
Proof.
  intros Hrun Hopen. unfold evaluate. rewrite Hrun, Hopen. cbn [try].
  by rewrite writes_W, status_of_http_Error, body_of_http_Error by done.
Qed.

Lemma evaluate_decode_failed out f e :
  w_CombinedOutput w cmd = (out, None) →
  w_Open w output = Ok f →
  w_Decode w f = Err e →
  status_of (writes (evaluate w logPath entrypoint req output cmd))
  = Some StatusInternalServerError ∧
  body_of (writes (evaluate w logPath entrypoint req output cmd))
  = String.list_byte_of_string e ++ String.list_byte_of_string LF.
Proof.
  intros Hrun Hopen Hdec. unfold evaluate. rewrite Hrun, Hopen. cbn [try].
  rewrite Hdec. cbn [try].
  by rewrite writes_W, status_of_http_Error, body_of_http_Error by done.
Qed.

Lemma evaluate_decoded out f res :
  w_CombinedOutput w cmd = (out, None) →
  w_Open w output = Ok f →
  w_Decode w f = Ok res →
  Forall (λ h : list string, (2 ≤ length h)%nat) (Headers res) →
  status_of (writes (evaluate w logPath entrypoint req output cmd))
  = (if valid_code (Status res)
     then Some (if informational (Status res) then StatusOK else Status res)
     else None) ∧
  body_of (writes (evaluate w logPath entrypoint req output cmd))
  = (if valid_code (Status res) then default [] (Body_ res) else []).
Proof.
  intros Hrun Hopen Hdec Hwf. unfold evaluate. rewrite Hrun, Hopen. cbn [try].
  rewrite Hdec. cbn [try writes]. unfold write_response.
  match goal with
  | |- context [write_response_headers _ ?k] =>
      destruct (write_response_headers_ok (Headers res) k Hwf) as [-> ->]
  end.
  cbn [writes status_of body_of]. unfold write_header.
  destruct (valid_code (Status res)); [| done].
  destruct (informational (Status res)), (Body_ res); cbn; by rewrite ?app_nil_r.
Qed.

End EvaluateFacts.

(** When the handler gets as far as the evaluator, its reply is the one
    of [evaluate]. *)
Lemma ServeHTTP_evaluate w rootDir r alias entrypoint env req tempdir deno stdin :
  alias_of_host (rHost r) = Some alias →
  inferEntrypoint (w_exists w) rootDir alias = Ok entrypoint →
  path.Base entrypoint ≠ "index.html" →
  loadEnv (w_exists w) (w_godotenv_Read w) rootDir entrypoint = Ok env →
  (serializeRequest (w_EscapedPath w) (w_EscapedFragment w) (w_escapeHost w)
     (w_visit w) r).1 = Ok req →
  w_MkdirTemp w = Ok tempdir →
  w_denoExecutable w = Ok deno →
  w_Encode w (mkCommandInput req entrypoint env (path.Join [tempdir; "response.json"]))
  = Ok stdin →
  writes (ServeHTTP w rootDir r)
  = writes (evaluate w (path.Join [rootDir; ".logs"; alias +:+ ".jsonl"]) entrypoint req
              (path.Join [tempdir; "response.json"])
              (evaluator_cmd w entrypoint deno stdin)).
Proof.
  intros Halias Hentry Hbase Henv Hreq Htmp Hdeno Hstdin. unfold ServeHTTP.
  rewrite Halias, Hentry. cbn [try]. rewrite decide_False by done.
  rewrite Henv. cbn [try]. rewrite Hreq. cbn [try]. rewrite Htmp. cbn [try].
  rewrite Hdeno. cbn [try]. rewrite Hstdin. cbn [try].
  rewrite writes_app. cbn [writes]. by rewrite app_nil_r.
Qed.

(** When the executable of the evaluator cannot be located or the
    input cannot be encoded, the reply is the one of [http.Error]. *)
Lemma ServeHTTP_before_run w rootDir r alias entrypoint env req tempdir e :
  alias_of_host (rHost r) = Some alias →
  inferEntrypoint (w_exists w) rootDir alias = Ok entrypoint →
  path.Base entrypoint ≠ "index.html" →
  loadEnv (w_exists w) (w_godotenv_Read w) rootDir entrypoint = Ok env →
  (serializeRequest (w_EscapedPath w) (w_EscapedFragment w) (w_escapeHost w)
     (w_visit w) r).1 = Ok req →
  w_MkdirTemp w = Ok tempdir →
  w_denoExecutable w = Err e
  ∨ (∃ deno, w_denoExecutable w = Ok deno ∧
       w_Encode w (mkCommandInput req entrypoint env
                     (path.Join [tempdir; "response.json"])) = Err e) →
  writes (ServeHTTP w rootDir r) = http_Error e StatusInternalServerError.
Proof.
  intros Halias Hentry Hbase Henv Hreq Htmp Hfail. unfold ServeHTTP.
  rewrite Halias, Hentry. cbn [try]. rewrite decide_False by done.
  rewrite Henv. cbn [try]. rewrite Hreq. cbn [try]. rewrite Htmp. cbn [try].
  destruct Hfail as [-> | (deno & -> & Hstdin)]; cbn [try]; [| rewrite Hstdin; cbn [try]];
    rewrite writes_app, writes_W; cbn [writes]; by rewrite app_nil_r.
Qed.

(** C1 (as amended).  Once the handler has its temporary directory, it
    replies with the decoded response only when the executable of the
    evaluator is found, the input is encoded, the child runs without
    error and the artifact file can be opened and decoded.  When the run
    fails (the child cannot be started or exits with a non-zero status)
    the reply is 500 and its body is the combined output of the child
    and a line feed.  When the executable cannot be located, the input
    cannot be encoded or the artifact cannot be opened or decoded, the
    reply is 500 and its body is the message of that error and a line
    feed.  The decoded response is replied with its own status when that
    is a final one; an informational status is followed by 200, and a
    status outside 100..999 gives no reply at all. *)
Theorem evaluator_failure_replies
    (w : World) (rootDir : string) (r : Request)
    (alias entrypoint : string) (env : gmap string string) (req : SerializedRequest)
    (tempdir : string) :
  alias_of_host (rHost r) = Some alias →
  inferEntrypoint (w_exists w) rootDir alias = Ok entrypoint →
  path.Base entrypoint ≠ "index.html" →
  loadEnv (w_exists w) (w_godotenv_Read w) rootDir entrypoint = Ok env →
  (serializeRequest (w_EscapedPath w) (w_EscapedFragment w) (w_escapeHost w)
     (w_visit w) r).1 = Ok req →
  w_MkdirTemp w = Ok tempdir →
  (∀ e,
     w_denoExecutable w = Err e
     ∨ (∃ deno, w_denoExecutable w = Ok deno ∧
          w_Encode w (mkCommandInput req entrypoint env
                        (path.Join [tempdir; "response.json"])) = Err e) →
     status_of (writes (ServeHTTP w rootDir r)) = Some StatusInternalServerError ∧
     body_of (writes (ServeHTTP w rootDir r))
     = String.list_byte_of_string e ++ String.list_byte_of_string LF) ∧
  (∀ deno stdin,
     w_denoExecutable w = Ok deno →
     w_Encode w (mkCommandInput req entrypoint env (path.Join [tempdir; "response.json"]))
     = Ok stdin →
     (∀ out e,
        w_CombinedOutput w (evaluator_cmd w entrypoint deno stdin) = (out, Some e) →
        status_of (writes (ServeHTTP w rootDir r)) = Some StatusInternalServerError ∧
        body_of (writes (ServeHTTP w rootDir r))
        = out ++ String.list_byte_of_string LF) ∧
     (∀ out e,
        w_CombinedOutput w (evaluator_cmd w entrypoint deno stdin) = (out, None) →
        w_Open w (path.Join [tempdir; "response.json"]) = Err e →
        status_of (writes (ServeHTTP w rootDir r)) = Some StatusInternalServerError ∧
        body_of (writes (ServeHTTP w rootDir r))
        = String.list_byte_of_string e ++ String.list_byte_of_string LF) ∧
     (∀ out f e,
        w_CombinedOutput w (evaluator_cmd w entrypoint deno stdin) = (out, None) →
        w_Open w (path.Join [tempdir; "response.json"]) = Ok f →
        w_Decode w f = Err e →
        status_of (writes (ServeHTTP w rootDir r)) = Some StatusInternalServerError ∧
        body_of (writes (ServeHTTP w rootDir r))
        = String.list_byte_of_string e ++ String.list_byte_of_string LF) ∧
     (∀ out f res,
        w_CombinedOutput w (evaluator_cmd w entrypoint deno stdin) = (out, None) →
        w_Open w (path.Join [tempdir; "response.json"]) = Ok f →
        w_Decode w f = Ok res →
        Forall (λ h : list string, (2 ≤ length h)%nat) (Headers res) →
        status_of (writes (ServeHTTP w rootDir r))
        = (if valid_code (Status res)
           then Some (if informational (Status res) then StatusOK else Status res)
           else None) ∧
        body_of (writes (ServeHTTP w rootDir r))
        = (if valid_code (Status res) then default [] (Body_ res) else []))).
Proof.
  intros Halias Hentry Hbase Henv Hreq Htmp. split.
  - intros e Hfail.
    rewrite (ServeHTTP_before_run w rootDir r alias entrypoint env req tempdir e)
      by done.
    by rewrite status_of_http_Error, body_of_http_Error.
  - intros deno stdin Hdeno Hstdin.
    rewrite (ServeHTTP_evaluate w rootDir r alias entrypoint env req tempdir deno stdin)
      by done.
    split_and!.
    + intros out e. apply evaluate_run_failed.
    + intros out e. apply evaluate_open_failed.
    + intros out f e. apply evaluate_decode_failed.
    + intros out f res. apply evaluate_decoded.
Qed.

Lemma evaluator_failure_replies_witness :
  status_of (writes (ServeHTTP sample.world_exit1 "/www" sample.request))
  = Some StatusInternalServerError ∧
  body_of (writes (ServeHTTP sample.world_exit1 "/www" sample.request))
  = sample.output ++ String.list_byte_of_string LF.
Proof.
  refine (proj1 (proj2 (evaluator_failure_replies sample.world_exit1 "/www"
                          sample.request "blog" "/www/blog/mod.ts"
                          {[ "A" := "1"; "B" := "3"; "C" := "4" ]}
                          (mkSerializedRequest "http://blog.example.test/hello?x=1" "GET"
                             [["User-Agent"; "curl"]; ["Accept"; "text/html"]]
                             sample.body)
                          "/tmp/smallweb1" _ _ _ _ _ _)
                   "/usr/bin/deno" "input" _ _) sample.output "exit status 1" _).
  - reflexivity.
  - vm_compute. reflexivity.
  - vm_compute. discriminate.
  - vm_compute. reflexivity.
  - vm_compute. reflexivity.
  - reflexivity.
  - reflexivity.
  - reflexivity.
  - reflexivity.
Defined.

(** Without [deno] on the path the reply is 500 with the message of the
    lookup. *)
Example ServeHTTP_sample_no_deno :
  status_of (writes (ServeHTTP sample.world_no_deno "/www" sample.request))
  = Some StatusInternalServerError ∧
  body_of (writes (ServeHTTP sample.world_no_deno "/www" sample.request))
  = String.list_byte_of_string
      ("exec: deno: executable file not found in $PATH" +:+ LF).
Proof. by vm_compute. Qed.

(** C1 fails for an artifact that cannot be decoded: the child exits
    with status 0 after writing [log line], the artifact holds [oops],
    and the body of the 500 reply is the message of the decoder, not the
    output of the child. *)
Lemma undecodable_artifact_body_is_decode_error :
  (∀ c, w_CombinedOutput sample.world_undecodable c = (sample.output, None)) ∧
  (∀ b, w_Decode sample.world_undecodable b = Err sample.decode_error) ∧
  status_of (writes (ServeHTTP sample.world_undecodable "/www" sample.request))
  = Some StatusInternalServerError ∧
  body_of (writes (ServeHTTP sample.world_undecodable "/www" sample.request))
  = String.list_byte_of_string (sample.decode_error +:+ LF) ∧
  body_of (writes (ServeHTTP sample.world_undecodable "/www" sample.request))
  ≠ sample.output.
Proof.
  split_and!; [done | done | vm_compute; reflexivity | vm_compute; reflexivity |].
  vm_compute. discriminate.
Qed.

Example ServeHTTP_sample_ok :
  writes (ServeHTTP sample.world_ok "/www" sample.request)
  = [ HeaderSet "Content-Type" "text/plain"; WriteHeader 200;
      Write (String.list_byte_of_string "hello") ].
Proof. vm_compute. reflexivity. Qed.

(** ** The session store *)

Lemma GetSession_Ok (db : DB) (id host : string) (s : Session) :
  GetSession db id host = Ok s ↔ sessions db !! id = Some s ∧ sDomain s = host.
Proof.
  unfold GetSession, GetSession_over, database.GetSession.
  destruct (sessions db !! id) as [s'|]; [| split; [done | by intros [? _]]].
  case_decide as Hdom.
  - split; [done |]. intros [[= ->] Hhost]. done.
  - split.
    + by intros [= ->].
    + by intros [[= ->] _].
Qed.

Lemma GetSession_total (db : DB) (id host : string) :
  (∃ s, GetSession db id host = Ok s) ∨ (∃ e, GetSession db id host = Err e).
Proof.
  unfold GetSession, GetSession_over, database.GetSession.
  destruct (sessions db !! id); [case_decide |]; eauto.
Qed.

Lemma ExtendSession_stored (db : DB) (id : string) (s : Session) (expiresAt : Z) :
  db_wf db →
  sessions db !! id = Some s →
  ExtendSession db id expiresAt
  = Ok (mkDB (<[id := with_expiry s expiresAt]> (sessions db)) (tokens db)).
Proof.
  intros Hwf Hs. unfold ExtendSession, database.GetSession, database.UpdateSession.
  rewrite Hs. replace (sID (with_expiry s expiresAt)) with id
    by (symmetry; exact (Hwf _ _ Hs)).
  by rewrite Hs.
Qed.

(** The operations of the store keep every row under its own id. *)
Lemma db_wf_preserved (db : DB) :
  db_wf db →
  (∀ clock id email domain db',
     CreateSession clock (Ok id) db email domain = Ok (id, db') → db_wf db') ∧
  (∀ id expiresAt db', ExtendSession db id expiresAt = Ok db' → db_wf db') ∧
  (∀ id db', DeleteSession db id = Ok db' → db_wf db').
Proof.
  intros Hwf. split_and!.
  - intros clock id email domain db' [= <-] id' s'. cbn [sessions sID].
    intros [[<- <-]|[_ Hs]]%lookup_insert_Some; [done | by apply Hwf].
  - intros id expiresAt db'. unfold ExtendSession, database.GetSession.
    destruct (sessions db !! id) as [s|] eqn:Hs; [| done].
    unfold database.UpdateSession.
    replace (sID (with_expiry s expiresAt)) with id by (symmetry; exact (Hwf _ _ Hs)).
    rewrite Hs. intros [= <-] id' s'. cbn [sessions].
    intros [[<- <-]|[_ Hs']]%lookup_insert_Some; [exact (Hwf _ _ Hs) | by apply Hwf].
  - intros id db' [= <-] id' s'. cbn [sessions].
    intros [_ Hs]%lookup_delete_Some. by apply Hwf.
Qed.






(** The session created at time 0 for [blog.example.test]: on the second
    day it is returned for its host and refused for another one, and on
    the fifteenth day it is no longer returned. *)
Example GetSession_sample :
  GetSession_over (sample.fetch_at (days 1)) "sid" "blog.example.test"
  = Ok sample.session ∧
  GetSession_over (sample.fetch_at (days 1)) "sid" "other.example.test"
  = Err "session not found" ∧
  GetSession_over (sample.fetch_at (days 15)) "sid" "blog.example.test"
  = Err "failed to get session: sql: no rows in result set".
Proof. by vm_compute. Qed.

(** ** The authentication middleware *)

Section WrapFacts.

Variable env : AuthEnv.
Variable email : string.

(** A request with Basic credentials is handled by the token branch,
    which sees the username only. *)
Lemma Wrap_basic (db : DB) (r : Request) (username password : string) :
  BasicAuth (base64_DecodeString env) r = Some (username, password) →
  Wrap env email db r = token_branch env db "Basic" username.
Proof. intros H. unfold Wrap. by rewrite H. Qed.

Lemma token_branch_outcome (db : DB) (scheme credential : string) :
  token_branch env db scheme credential = mkServed db [] [] true
  ∨ token_branch env db scheme credential = mkServed db (challenge scheme) [] false.
Proof.
  unfold token_branch.
  destruct (parseToken credential) as [[public secret]| |]; [| by right..].
  destruct (database.GetToken db public) as [token| |]; [| by right..].
  destruct (bcrypt_Compare env (tHash token) secret); [by left | by right].
Qed.

(** A request without credentials, outside the three [/_auth/] pages and
    with a login configured, is handled by the session branch. *)
Lemma Wrap_session (db : DB) (r : Request) :
  BasicAuth (base64_DecodeString env) r = None →
  strings_.HasPrefix (Header_Get (Header r) "Authorization") "Bearer " = false →
  email ≠ "" →
  Path (rURL r) ≠ "/_auth/login" →
  Path (rURL r) ≠ "/_auth/callback" →
  Path (rURL r) ≠ "/_auth/logout" →
  Wrap env email db r = session_branch env email db r.
Proof.
  intros Hbasic Hbearer Hemail Hlogin Hcallback Hlogout. unfold Wrap.
  rewrite Hbasic, Hbearer. by rewrite !decide_False.
Qed.

End WrapFacts.

(** C3.  A request that reaches the session branch with the cookie of a
    stored session for its host, not expired and of the required email:
    when the session expires less than 7 days after the reading of the
    clock, the middleware sets its expiry to 14 days after the (next)
    reading of the clock, keeping its id, email, domain and creation
    time and every other session, and returns, writing nothing and
    without calling the next handler; when it expires 7 days after it or
    later, the middleware leaves the store as it is and calls the next
    handler. *)
Theorem Wrap_sliding_expiry
    (env : AuthEnv) (email : string) (db : DB) (r : Request) (id : string) (s : Session) :
  db_wf db →
  BasicAuth (base64_DecodeString env) r = None →
  strings_.HasPrefix (Header_Get (Header r) "Authorization") "Bearer " = false →
  email ≠ "" →
  Path (rURL r) ≠ "/_auth/login" →
  Path (rURL r) ≠ "/_auth/callback" →
  Path (rURL r) ≠ "/_auth/logout" →
  req_Cookie env r sessionCookieName = Ok id →
  GetSession db id (rHost r) = Ok s →
  clock env 0 ≤ sExpiresAt s →
  sEmail s = email →
  (sExpiresAt s - clock env 1 < days 7 →
   Wrap env email db r
   = mkServed
       (mkDB (<[id := mkSession id (sEmail s) (sDomain s) (sCreatedAt s)
                        (clock env 2 + days 14)]> (sessions db))
             (tokens db))
       [] [] false ∧
   ∃ s', sessions (out_db (Wrap env email db r)) !! id = Some s' ∧
         sExpiresAt s' = clock env 2 + days 14) ∧
  (days 7 ≤ sExpiresAt s - clock env 1 →
   Wrap env email db r = mkServed db [] [] true).
Proof.
  intros Hwf Hbasic Hbearer Hemail Hlogin Hcallback Hlogout Hcookie Hget Hvalid Hmail.
  rewrite Wrap_session by done. unfold session_branch.
  rewrite Hcookie, Hget. unfold time.After, time.Add.
  rewrite (bool_decide_eq_false_2 (sExpiresAt s < clock env 0)) by lia.
  rewrite decide_False by (by intros ?).
  apply GetSession_Ok in Hget as [Hstored _].
  split; intros Hnear.
  - rewrite bool_decide_eq_true_2 by lia.
    rewrite (ExtendSession_stored db id s _ Hwf Hstored).
    unfold with_expiry. rewrite (Hwf _ _ Hstored).
    split; [done |]. eexists. cbn [out_db sessions].
    rewrite lookup_insert_eq. done.
  - by rewrite bool_decide_eq_false_2 by lia.
Qed.

Lemma sample_db_wf : db_wf sample.db.
Proof.
  intros id s. unfold sample.db. cbn [sessions].
  by intros [<- <-]%lookup_singleton_Some.
Qed.

Lemma Wrap_sliding_expiry_witness :
  Wrap (sample.auth_env (days 8)) sample.email sample.db sample.with_cookie
  = mkServed
      (mkDB (<["sid" := mkSession "sid" (sEmail sample.session) (sDomain sample.session)
                          (sCreatedAt sample.session)
                          (clock (sample.auth_env (days 8)) 2 + days 14)]>
               (sessions sample.db))
            (tokens sample.db))
      [] [] false ∧
  ∃ s', sessions (out_db (Wrap (sample.auth_env (days 8)) sample.email sample.db
                            sample.with_cookie)) !! "sid" = Some s' ∧
        sExpiresAt s' = clock (sample.auth_env (days 8)) 2 + days 14.
Proof.
  refine (proj1 (Wrap_sliding_expiry (sample.auth_env (days 8)) sample.email sample.db
                   sample.with_cookie "sid" sample.session
                   sample_db_wf _ _ _ _ _ _ _ _ _ _) _).
  - reflexivity.
  - reflexivity.
  - discriminate.
  - discriminate.
  - discriminate.
  - discriminate.
  - reflexivity.
  - reflexivity.
  - by vm_compute.
  - reflexivity.
  - by vm_compute.
Defined.

(** On the second day the same request passes through, and the store
    is as it was. *)
Example Wrap_sample_far_from_expiry :
  Wrap (sample.auth_env (days 1)) sample.email sample.db sample.with_cookie
  = mkServed sample.db [] [] true.
Proof. by vm_compute. Qed.

(** C10.  In the Basic branch the middleware parses and verifies the
    username as the credential and does not look at the password: two
    requests with the same Basic username have the same outcome, which
    is either to call the next handler or the 401 challenge. *)
Theorem Wrap_basic_password_ignored
    (env : AuthEnv) (email : string) (db : DB) (r1 r2 : Request)
    (username password1 password2 : string) :
  BasicAuth (base64_DecodeString env) r1 = Some (username, password1) →
  BasicAuth (base64_DecodeString env) r2 = Some (username, password2) →
  Wrap env email db r1 = token_branch env db "Basic" username ∧
  Wrap env email db r1 = Wrap env email db r2 ∧
  (Wrap env email db r1 = mkServed db [] [] true
   ∨ (Wrap env email db r1 = mkServed db (challenge "Basic") [] false
      ∧ status_of (challenge "Basic") = Some StatusUnauthorized)).
Proof.
  intros H1 H2.
  rewrite (Wrap_basic env email db r1 username password1 H1).
  rewrite (Wrap_basic env email db r2 username password2 H2).
  split_and!; [done | done |].
  destruct (token_branch_outcome env db "Basic" username) as [-> | ->]; auto.
Qed.

Lemma Wrap_basic_password_ignored_witness :
  Wrap (sample.auth_env 0) sample.email sample.db sample.basic_x
  = Wrap (sample.auth_env 0) sample.email sample.db sample.basic_hunter2.
Proof.
  refine (proj1 (proj2 (Wrap_basic_password_ignored (sample.auth_env 0) sample.email
                          sample.db sample.basic_x sample.basic_hunter2
                          "pub.secret" "x" "hunter2" _ _))).
  - by vm_compute.
  - by vm_compute.
Defined.

Example Wrap_sample_basic :
  Wrap (sample.auth_env 0) sample.email sample.db sample.basic_x
  = mkServed sample.db [] [] true.
Proof. by vm_compute. Qed.

(** ** The privacy decision *)

Lemma prefix_append_l (a b p : string) :
  String.prefix (a +:+ b) p = true → String.prefix a p = true.
Proof.
  revert p. induction a as [|c a IH]; intros p; [by destruct p |].
  rewrite append_cons. destruct p as [|d p]; [done |]. simpl.
  destruct (ascii_dec c d); [apply IH | done].
Qed.

Section PrivacyFacts.

Variable Glob : Type.
Variable glob_Compile : string → result Glob.
Variable glob_Match : Glob → string → bool.

(** A loop over routes that all compile assigns [value] when some route
    matches and leaves the flag alone otherwise. *)
Lemma route_loop_any (value : bool) (routes : list string) (urlPath : string) (p : bool) :
  all_compile glob_Compile routes →
  route_loop glob_Compile glob_Match value routes urlPath p
  = Ok (if any_match glob_Compile glob_Match routes urlPath then value else p).
Proof.
  revert p. induction routes as [|route routes IH]; intros p Hall; [done |].
  destruct (Hall route) as [g Hg]; [by left |].
  cbn [route_loop any_match existsb]. unfold glob_MustCompile, route_matches at 1.
  rewrite Hg. cbn [mbind result_bind]. rewrite IH.
  - unfold any_match. destruct (glob_Match g urlPath); simpl; [| done].
    by destruct (existsb _ routes).
  - intros route' Hroute'. apply Hall. by right.
Qed.

End PrivacyFacts.

Section WrappedFacts.

Variable Glob : Type.
Variable glob_Compile : string → result Glob.
Variable glob_Match : Glob → string → bool.
Variables (c : Config) (urlPath : string).
Hypothesis Hpublic : all_compile glob_Compile (PublicRoutes c).
Hypothesis Hprivate : all_compile glob_Compile (PrivateRoutes c).

Lemma isPrivateRoute_routes :
  isPrivateRoute glob_Compile glob_Match c urlPath
  = Ok (if any_match glob_Compile glob_Match (PrivateRoutes c) urlPath then true
        else if any_match glob_Compile glob_Match (PublicRoutes c) urlPath then false
        else Private c).
Proof.
  unfold isPrivateRoute. rewrite route_loop_any by done. cbn [mbind result_bind].
  by rewrite route_loop_any.
Qed.

Lemma wrapped_auth_pages :
  strings_.HasPrefix urlPath "/_auth/" = true →
  wrapped glob_Compile glob_Match c urlPath = Ok true.
Proof.
  intros Hauth. unfold wrapped. rewrite isPrivateRoute_routes.
  cbn [mbind result_bind]. unfold strings_.HasPrefix in *.
  rewrite (prefix_append_l "/_auth" "/" urlPath Hauth). by rewrite orb_true_r.
Qed.

End WrappedFacts.

(** C4.  When the route patterns compile, the privacy of a request is
    the result of starting at [config.private], setting it to false when
    a public route matches the path and then to true when a private
    route matches it: a matching private route makes the request
    private whatever else matches.  The handler is wrapped in the
    authentication middleware when the request is private or its path
    starts with [/_auth], as every path under [/_auth/] does. *)
Theorem privacy_public_then_private_routes
    (Glob : Type) (glob_Compile : string → result Glob) (glob_Match : Glob → string → bool)
    (c : Config) (urlPath : string) :
  all_compile glob_Compile (PublicRoutes c) →
  all_compile glob_Compile (PrivateRoutes c) →
  isPrivateRoute glob_Compile glob_Match c urlPath
  = Ok (if any_match glob_Compile glob_Match (PrivateRoutes c) urlPath then true
        else if any_match glob_Compile glob_Match (PublicRoutes c) urlPath then false
        else Private c) ∧
  (any_match glob_Compile glob_Match (PrivateRoutes c) urlPath = true →
   isPrivateRoute glob_Compile glob_Match c urlPath = Ok true) ∧
  (∃ p, isPrivateRoute glob_Compile glob_Match c urlPath = Ok p ∧
        wrapped glob_Compile glob_Match c urlPath
        = Ok (p || strings_.HasPrefix urlPath "/_auth")) ∧
  (strings_.HasPrefix urlPath "/_auth/" = true →
   wrapped glob_Compile glob_Match c urlPath = Ok true).
Proof.
  intros Hpublic Hprivate.
  pose proof (isPrivateRoute_routes Glob glob_Compile glob_Match c urlPath
                Hpublic Hprivate) as Hp.
  split_and!.
  - exact Hp.
  - intros Hany. by rewrite Hp, Hany.
  - eexists. split; [exact Hp |]. unfold wrapped. by rewrite Hp.
  - by apply wrapped_auth_pages.
Qed.

Lemma privacy_public_then_private_routes_witness :
  isPrivateRoute sample.glob_Compile sample.glob_Match sample.config "/public/admin/x"
  = Ok true.
Proof.
  refine (proj1 (proj2 (privacy_public_then_private_routes _ sample.glob_Compile
                          sample.glob_Match sample.config "/public/admin/x" _ _)) _).
  - intros route Hroute. apply list_elem_of_singleton in Hroute as ->.
    eexists. by vm_compute.
  - intros route Hroute. apply list_elem_of_singleton in Hroute as ->.
    eexists. by vm_compute.
  - by vm_compute.
Defined.

Example privacy_sample :
  isPrivateRoute sample.glob_Compile sample.glob_Match sample.config "/public/x" = Ok false ∧
  wrapped sample.glob_Compile sample.glob_Match sample.config "/public/x" = Ok false ∧
  wrapped sample.glob_Compile sample.glob_Match sample.config "/_auth/login" = Ok true.
Proof. by vm_compute. Qed.

(** In the dispatcher: once the app is loaded and its handler selected,
    a request whose path is under [/_auth/] goes through the
    authentication middleware. *)
Lemma up_handler_auth_pages (e : UpEnv) (db : DB) (r : Request) (a : App) (h : handler) :
  rHost r ≠ cfg_domain e →
  LoadApp e (path.Join [cfg_dir e; appname_of e r]) (cfg_domain e) = Ok a →
  select_handler e a = Ok h →
  all_compile (u_glob_Compile e) (PublicRoutes (aConfig a)) →
  all_compile (u_glob_Compile e) (PrivateRoutes (aConfig a)) →
  strings_.HasPrefix (Path (rURL r)) "/_auth/" = true →
  up_handler e db r
  = Ok (out_db (Wrap (u_auth e) (cfg_email e) db r),
        out_ops (Wrap (u_auth e) (cfg_email e) db r)
        ++ (if out_next (Wrap (u_auth e) (cfg_email e) db r)
            then run_handler e h r else [])).
Proof.
  intros Hhost Hload Hsel Hpublic Hprivate Hauth. unfold up_handler.
  rewrite decide_False by done. rewrite Hload, Hsel.
  by rewrite (wrapped_auth_pages (u_Glob e) (u_glob_Compile e) (u_glob_Match e)
                (aConfig a) (Path (rURL r)) Hpublic Hprivate Hauth).
Qed.

(** The login page of the sample app, which is public, starts the OAuth2
    flow. *)
Example up_handler_sample_login :
  up_handler sample.up_env sample.db sample.login
  = Ok (sample.db,
        [ SetCookie (mkCookie oauthCookieName "store" (5 * time.Minute) "/" true true true);
          Redirect "https://lastlogin.net/auth?state=state" StatusSeeOther ]).
Proof. by vm_compute. Qed.

(** ** The cron driver *)

Lemma fired_app (evs1 evs2 : list cron_event) :
  fired (evs1 ++ evs2) = fired evs1 ++ fired evs2.
Proof. apply omap_app. Qed.

Lemma fired_join (ls : list (list cron_event)) :
  fired (mjoin ls) = mjoin (fired <$> ls).
Proof.
  induction ls as [|l ls IH]; [done |].
  rewrite fmap_cons. change (mjoin (l :: ls)) with (l ++ mjoin ls).
  change (mjoin (fired l :: (fired <$> ls))) with (fired l ++ mjoin (fired <$> ls)).
  by rewrite fired_app, IH.
Qed.

Lemma Truncate_minute (now : Z) :
  time.Truncate now time.Minute `mod` time.Minute = 0 ∧
  time.Truncate now time.Minute ≤ now < time.Truncate now time.Minute + time.Minute.
Proof.
  unfold time.Truncate. assert (0 < time.Minute) by done.
  rewrite decide_False by lia.
  pose proof (Z.mod_pos_bound now time.Minute ltac:(done)).
  split; [| lia].
  rewrite Zminus_mod, Zmod_mod, Z.sub_diag. done.
Qed.

Section CronFacts.

Variable e : UpEnv.
Variable t : Z.

Lemma fired_run_job (name : string) (a : App) (i : nat) (job : CronJob) :
  (job_due e t job ∧ fired (run_job e t name a i job) = [(name, i)])
  ∨ (¬ job_due e t job ∧ fired (run_job e t name a i job) = []).
Proof.
  unfold run_job, job_due, time.Add.
  replace (t + -1 * time.Second) with (t - time.Second) by lia.
  destruct (cron_Parse e (Schedule job)) as [sched| |];
    [| right; split; [by intros (? & ? & _) | done]..].
  case_decide as Hnext.
  - right. split; [| done]. intros (sched' & [= <-] & Hdue). done.
  - left. split.
    { exists sched. split; [done |].
      by destruct (decide (cron_Next e sched (t - time.Second) = t)). }
    cbn [fired omap list_omap].
    destruct (Command e a (Args job)) as [c| |]; [| done..].
    by destruct (Run e c).
Qed.

Lemma fired_jobs (name : string) (a : App) (crons : list CronJob) (k : nat) :
  NoDup (fired (mjoin (imap (λ i, run_job e t name a (k + i)) crons))) ∧
  ∀ n i, (n, i) ∈ fired (mjoin (imap (λ i, run_job e t name a (k + i)) crons))
         ↔ n = name ∧ ∃ j job, i = (k + j)%nat ∧ crons !! j = Some job ∧ job_due e t job.
Proof.
  revert k. induction crons as [|job crons IH]; intros k.
  - split; [constructor |]. intros n i. split.
    + by intros ?%elem_of_nil.
    + by intros (_ & j & job & _ & ? & _).
  - cbn [imap].
    rewrite (imap_ext _ (λ i, run_job e t name a (S k + i)))
      by (intros; cbn; f_equal; lia).
    match goal with
    | |- context [mjoin (?l :: ?ls)] => change (mjoin (l :: ls)) with (l ++ mjoin ls)
    end.
    destruct (IH (S k)) as [IHnodup IHin]. rewrite fired_app.
    replace (k + 0)%nat with k by lia.
    destruct (fired_run_job name a k job) as [[Hdue ->] | [Hdue ->]].
    + split.
      * cbn [app]. constructor; [| done].
        intros (_ & j & _ & Hk & _)%IHin. lia.
      * intros n i. cbn [app]. rewrite elem_of_cons, IHin. split.
        -- intros [[= -> ->] | (-> & j & job' & -> & Hj & Hd)].
           ++ split; [done |]. exists 0%nat, job. split_and!; [lia | done | done].
           ++ split; [done |]. exists (S j), job'. split_and!; [lia | done | done].
        -- intros (-> & [|j] & job' & -> & Hj & Hd).
           ++ left. f_equal. lia.
           ++ right. split; [done |]. exists j, job'. split_and!; [lia | done | done].
    + split; [done |]. intros n i. cbn [app]. rewrite IHin. split.
      * intros (-> & j & job' & -> & Hj & Hd).
        split; [done |]. exists (S j), job'. split_and!; [lia | done | done].
      * intros (-> & [|j] & job' & -> & Hj & Hd).
        -- simplify_eq/=. done.
        -- split; [done |]. exists j, job'. split_and!; [lia | done | done].
Qed.

Lemma fired_run_app (name : string) :
  NoDup (fired (run_app e t name)) ∧
  ∀ n i, (n, i) ∈ fired (run_app e t name)
         ↔ n = name ∧ ∃ a job,
             LoadApp e (path.Join [cfg_dir e; name]) (cfg_domain e) = Ok a ∧
             Crons (aConfig a) !! i = Some job ∧ job_due e t job.
Proof.
  unfold run_app.
  destruct (LoadApp e (path.Join [cfg_dir e; name]) (cfg_domain e)) as [a| |].
  - destruct (fired_jobs name a (Crons (aConfig a)) 0) as [Hnodup Hin].
    split; [exact Hnodup |]. intros n i. rewrite (Hin n i). split.
    + intros (-> & j & job & -> & Hj & Hd). eauto 10.
    + intros (-> & a' & job & [= <-] & Hj & Hd). split; [done |].
      exists i, job. done.
  - split; [constructor |]. intros n i. split; [by intros ?%elem_of_nil |].
    by intros (_ & ? & ? & ? & _).
  - split; [constructor |]. intros n i. split; [by intros ?%elem_of_nil |].
    by intros (_ & ? & ? & ? & _).
Qed.

Lemma fired_apps (apps : list string) :
  (NoDup apps → NoDup (fired (mjoin (run_app e t <$> apps)))) ∧
  ∀ n i, (n, i) ∈ fired (mjoin (run_app e t <$> apps))
         ↔ n ∈ apps ∧ (n, i) ∈ fired (run_app e t n).
Proof.
  induction apps as [|name apps [IHnodup IHin]].
  - split; [constructor |]. intros n i.
    split; [by intros ?%elem_of_nil | by intros [?%elem_of_nil _]].
  - rewrite fmap_cons.
    change (mjoin (run_app e t name :: (run_app e t <$> apps)))
      with (run_app e t name ++ mjoin (run_app e t <$> apps)).
    rewrite fired_app.
    destruct (fired_run_app name) as [Hnodup Hin]. split.
    + intros [Hfresh Happs]%NoDup_cons. apply NoDup_app. split_and!.
      * exact Hnodup.
      * intros [n i] [-> _]%Hin [Hn _]%IHin. done.
      * by apply IHnodup.
    + intros n i. rewrite elem_of_app, IHin, elem_of_cons. split.
      * intros [Hn | [Hn Hi]]; [| by auto].
        pose proof Hn as [-> _]%Hin. auto.
      * intros [[-> | Hn] Hi]; auto.
Qed.

End CronFacts.

(** C9.  In a run of the driver at the time [now], with [t] the time
    truncated to the minute, an entry fires exactly when it is due at
    [t]: its app is listed and loads, its schedule parses, and the next
    activation of the schedule after [t - 1s] is [t].  No entry fires
    twice in one run, and over any sequence of runs an entry fires only
    in a run at whose own minute it is due: a minute without a run is
    not made up for later. *)
Theorem cron_fires_iff_due (e : UpEnv) (now : Z) :
  time.Truncate now time.Minute `mod` time.Minute = 0 ∧
  (∀ name i,
     (name, i) ∈ fired (tick e now) ↔ due e (time.Truncate now time.Minute) name i) ∧
  (NoDup (ListApps e (cfg_dir e)).1 → NoDup (fired (tick e now))) ∧
  (∀ nows name i,
     (name, i) ∈ fired (mjoin (tick e <$> nows)) →
     ∃ now', now' ∈ nows ∧ (name, i) ∈ fired (tick e now')
             ∧ due e (time.Truncate now' time.Minute) name i).
Proof.
  assert (Htick : ∀ now' name i,
    (name, i) ∈ fired (tick e now') ↔ due e (time.Truncate now' time.Minute) name i).
  { intros now' name i. unfold tick, due.
    destruct (ListApps e (cfg_dir e)) as [apps err]. cbn [fst].
    rewrite fired_app.
    assert (Herr : fired match err with Some m => [Printed m] | None => [] end = [])
      by by destruct err.
    rewrite Herr. cbn [app].
    destruct (fired_apps e (time.Truncate now' time.Minute) apps) as [_ ->].
    destruct (fired_run_app e (time.Truncate now' time.Minute) name) as [_ ->].
    unfold job_due. split.
    - intros (Hname & _ & a & job & Ha & Hjob & sched & Hs & Hn). eauto 10.
    - intros (Hname & a & job & sched & Ha & Hjob & Hs & Hn). eauto 10. }
  split_and!.
  - apply Truncate_minute.
  - apply Htick.
  - unfold tick. destruct (ListApps e (cfg_dir e)) as [apps err]. cbn [fst].
    intros Hnodup. rewrite fired_app.
    assert (Herr : fired match err with Some m => [Printed m] | None => [] end = [])
      by by destruct err.
    rewrite Herr. cbn [app]. by apply fired_apps.
  - intros nows name i. rewrite fired_join.
    intros (l & Hin & Hl)%list_elem_of_join.
    apply list_elem_of_fmap in Hl as (evs & -> & Hevs).
    apply list_elem_of_fmap in Hevs as (now' & -> & Hnow').
    exists now'. split_and!; [done | done | by apply Htick].
Qed.

(** At 00:10:17 both entries of the sample app fire, the one for every
    minute and the one for every fifth minute; at 00:11:59 only the
    first one does. *)
Example tick_sample :
  fired (tick sample.up_env (600 * time.Second + 17 * time.Second))
  = [("blog", 0%nat); ("blog", 1%nat)] ∧
  fired (tick sample.up_env (660 * time.Second + 59 * time.Second))
  = [("blog", 0%nat)].
Proof. by vm_compute. Qed.

(** * Further properties of the code *)

(** ** The standalone handler: resources and failures *)

Lemma alias_of_host_leftmost (host : string) :
  alias_of_host host = Some (leftmost_label host).
Proof. unfold alias_of_host, strings_.Split. by rewrite split_go_dot_head. Qed.

Lemma removals_W (ops : list wop) : removals (W <$> ops) = [].
Proof. induction ops as [|op ops IH]; [done |]. by rewrite fmap_cons. Qed.

Lemma log_writes_W (ops : list wop) : log_writes (W <$> ops) = [].
Proof. induction ops as [|op ops IH]; [done |]. by rewrite fmap_cons. Qed.

Lemma removals_app (evs1 evs2 : list event) :
  removals (evs1 ++ evs2) = removals evs1 ++ removals evs2.
Proof.
  induction evs1 as [|ev evs1 IH]; [done |]. destruct ev; simpl; by rewrite IH.
Qed.

Lemma log_writes_app (evs1 evs2 : list event) :
  log_writes (evs1 ++ evs2) = log_writes evs1 ++ log_writes evs2.
Proof.
  induction evs1 as [|ev evs1 IH]; [done |]. destruct ev; simpl; by rewrite IH.
Qed.

Lemma panics_app (evs1 evs2 : list event) :
  panics (evs1 ++ evs2) = panics evs1 ++ panics evs2.
Proof.
  induction evs1 as [|ev evs1 IH]; [done |]. destruct ev; simpl; by rewrite IH.
Qed.

Lemma removals_try {A : Type} (r : result A) (k : A → list event) :
  (∀ a, removals (k a) = []) → removals (try r k) = [].
Proof. intros Hk. destruct r; cbn [try]; [apply Hk | apply removals_W | done]. Qed.

Lemma log_writes_try_failed {A : Type} (r : result A) (k : A → list event) :
  (∀ a, r ≠ Ok a) → log_writes (try r k) = [].
Proof.
  intros Hr. destruct r as [a| |]; cbn [try];
    [by destruct (Hr a) | apply log_writes_W | done].
Qed.

Lemma removals_write_response (res : SerializedResponse) :
  removals (write_response res) = [].
Proof.
  unfold write_response. generalize (Headers res). intros hs.
  induction hs as [|h hs IH]; [by destruct (valid_code (Status res)), (Body_ res) |].
  simpl. by destruct (h !! 0%nat), (h !! 1%nat).
Qed.

Lemma log_writes_write_response (res : SerializedResponse) :
  log_writes (write_response res) = [].
Proof.
  unfold write_response. generalize (Headers res). intros hs.
  induction hs as [|h hs IH]; [by destruct (valid_code (Status res)), (Body_ res) |].
  simpl. by destruct (h !! 0%nat), (h !! 1%nat).
Qed.

Lemma removals_evaluate w logPath entrypoint req output cmd :
  removals (evaluate w logPath entrypoint req output cmd) = [].
Proof.
  unfold evaluate. destruct (w_CombinedOutput w cmd) as [out [e|]].
  - cbn [removals]. apply removals_W.
  - apply removals_try. intros f. apply removals_try. intros res. cbn [removals].
    apply removals_write_response.
Qed.

Lemma ServeHTTP_after_MkdirTemp w rootDir r alias entrypoint env req tempdir :
  alias_of_host (rHost r) = Some alias →
  inferEntrypoint (w_exists w) rootDir alias = Ok entrypoint →
  path.Base entrypoint ≠ "index.html" →
  loadEnv (w_exists w) (w_godotenv_Read w) rootDir entrypoint = Ok env →
  (serializeRequest (w_EscapedPath w) (w_EscapedFragment w) (w_escapeHost w)
     (w_visit w) r).1 = Ok req →
  w_MkdirTemp w = Ok tempdir →
  ServeHTTP w rootDir r
  = after_MkdirTemp w rootDir alias entrypoint env req tempdir ++ [RemoveAll tempdir].
Proof.
  intros Halias Hentry Hbase Henv Hreq Htmp. unfold ServeHTTP.
  rewrite Halias, Hentry. cbn [try]. rewrite decide_False by done.
  rewrite Henv. cbn [try]. rewrite Hreq. cbn [try]. by rewrite Htmp.
Qed.

Lemma removals_after_MkdirTemp w rootDir alias entrypoint env req tempdir :
  removals (after_MkdirTemp w rootDir alias entrypoint env req tempdir) = [].
Proof.
  unfold after_MkdirTemp. apply removals_try. intros deno.
  apply removals_try. intros stdin. apply removals_evaluate.
Qed.

(** A request ends before anything is created (with a reply or a panic),
    or it creates its temporary directory and goes on. *)
Lemma ServeHTTP_shape w rootDir r :
  (∃ ops, ServeHTTP w rootDir r = W <$> ops)
  ∨ (∃ msg, ServeHTTP w rootDir r = [PanicEv msg])
  ∨ (∃ alias entrypoint env req tempdir,
       alias_of_host (rHost r) = Some alias ∧
       inferEntrypoint (w_exists w) rootDir alias = Ok entrypoint ∧
       path.Base entrypoint ≠ "index.html" ∧
       loadEnv (w_exists w) (w_godotenv_Read w) rootDir entrypoint = Ok env ∧
       (serializeRequest (w_EscapedPath w) (w_EscapedFragment w) (w_escapeHost w)
          (w_visit w) r).1 = Ok req ∧
       w_MkdirTemp w = Ok tempdir ∧
       ServeHTTP w rootDir r
       = after_MkdirTemp w rootDir alias entrypoint env req tempdir
         ++ [RemoveAll tempdir]).
Proof.
  destruct (alias_of_host (rHost r)) as [alias|] eqn:Halias.
  2:{ right; left. unfold ServeHTTP. rewrite Halias. eauto. }
  destruct (inferEntrypoint (w_exists w) rootDir alias) as [entrypoint|e|e] eqn:Hentry.
  2,3: unfold ServeHTTP; rewrite Halias, Hentry; cbn [try]; eauto.
  destruct (decide (path.Base entrypoint = "index.html")) as [Hbase|Hbase].
  { left. unfold ServeHTTP. rewrite Halias, Hentry. cbn [try].
    rewrite decide_True by done. eauto. }
  destruct (loadEnv (w_exists w) (w_godotenv_Read w) rootDir entrypoint)
    as [env|e|e] eqn:Henv.
  2,3: unfold ServeHTTP; rewrite Halias, Hentry; cbn [try];
       rewrite decide_False by done; rewrite Henv; cbn [try]; eauto.
  destruct ((serializeRequest (w_EscapedPath w) (w_EscapedFragment w) (w_escapeHost w)
               (w_visit w) r).1) as [req|e|e] eqn:Hreq.
  2,3: unfold ServeHTTP; rewrite Halias, Hentry; cbn [try];
       rewrite decide_False by done; rewrite Henv; cbn [try]; rewrite Hreq;
       cbn [try]; eauto.
  destruct (w_MkdirTemp w) as [tempdir|e|e] eqn:Htmp.
  2,3: unfold ServeHTTP; rewrite Halias, Hentry; cbn [try];
       rewrite decide_False by done; rewrite Henv; cbn [try]; rewrite Hreq;
       cbn [try]; rewrite Htmp; cbn [try]; eauto.
  right; right. exists alias, entrypoint, env, req, tempdir.
  split_and!; try done. by apply ServeHTTP_after_MkdirTemp.
Qed.

(** X1.  The temporary directory of a request is removed on every path
    of the handler: a request that creates the directory ends with its
    removal, whatever happens in between (no executable, a failed child,
    a missing or undecodable artifact, a panic while the response is
    written), and nothing else is ever removed. *)
Theorem ServeHTTP_removes_tempdir (w : World) (rootDir : string) (r : Request) :
  (removals (ServeHTTP w rootDir r) = []
   ∨ ∃ tempdir evs,
       w_MkdirTemp w = Ok tempdir ∧
       ServeHTTP w rootDir r = evs ++ [RemoveAll tempdir] ∧ removals evs = []) ∧
  (∀ alias entrypoint env req tempdir,
     alias_of_host (rHost r) = Some alias →
     inferEntrypoint (w_exists w) rootDir alias = Ok entrypoint →
     path.Base entrypoint ≠ "index.html" →
     loadEnv (w_exists w) (w_godotenv_Read w) rootDir entrypoint = Ok env →
     (serializeRequest (w_EscapedPath w) (w_EscapedFragment w) (w_escapeHost w)
        (w_visit w) r).1 = Ok req →
     w_MkdirTemp w = Ok tempdir →
     removals (ServeHTTP w rootDir r) = [tempdir] ∧
     last (ServeHTTP w rootDir r) = Some (RemoveAll tempdir)).
Proof.
  split.
  - destruct (ServeHTTP_shape w rootDir r)
      as [[ops ->] | [[msg ->] | (alias & entrypoint & env & req & tempdir & H)]].
    + left. apply removals_W.
    + by left.
    + destruct H as (_ & _ & _ & _ & _ & Htmp & ->). right.
      eexists _, _. split_and!; [done | done | apply removals_after_MkdirTemp].
  - intros alias entrypoint env req tempdir Halias Hentry Hbase Henv Hreq Htmp.
    rewrite (ServeHTTP_after_MkdirTemp w rootDir r alias entrypoint env req tempdir)
      by done.
    split; [| apply last_snoc].
    by rewrite removals_app, removals_after_MkdirTemp.
Qed.

Example ServeHTTP_removes_tempdir_sample :
  removals (ServeHTTP sample.world_undecodable "/www" sample.request)
  = ["/tmp/smallweb1"].
Proof. by vm_compute. Qed.

Lemma log_writes_evaluate w logPath entrypoint req output cmd :
  log_writes (evaluate w logPath entrypoint req output cmd)
  = match w_CombinedOutput w cmd with
    | (out, Some _) =>
        [(logPath, mkLog req None (w_FormatRFC3339 w (w_Now w)) entrypoint (w_Since w) out)]
    | (out, None) =>
        match w_Open w output with
        | Ok f =>
            match w_Decode w f with
            | Ok res =>
                [(logPath, mkLog req (Some res) (w_FormatRFC3339 w (w_Now w)) entrypoint
                             (w_Since w) out)]
            | _ => []
            end
        | _ => []
        end
    end.
Proof.
  unfold evaluate. destruct (w_CombinedOutput w cmd) as [out [e|]].
  - cbn [log_writes]. by rewrite log_writes_W.
  - destruct (w_Open w output) as [f|e|e]; cbn [try];
      [| by rewrite log_writes_W | done].
    destruct (w_Decode w f) as [res|e|e]; cbn [try];
      [| by rewrite log_writes_W | done].
    cbn [log_writes]. by rewrite log_writes_write_response.
Qed.

(** X2.  A request writes at most one record to the access log, always
    to [rootDir/.logs/<alias>.jsonl].  A record is written only once the
    child has run: it holds the serialized request, the entrypoint and
    the combined output of the child; it has no response exactly when
    the run failed, and otherwise the response decoded from the
    artifact.  When the artifact cannot be opened or decoded nothing is
    logged. *)
Theorem ServeHTTP_access_log (w : World) (rootDir : string) (r : Request) :
  (length (log_writes (ServeHTTP w rootDir r)) ≤ 1)%nat ∧
  (∀ p l, (p, l) ∈ log_writes (ServeHTTP w rootDir r) →
     p = path.Join [rootDir; ".logs"; leftmost_label (rHost r) +:+ ".jsonl"] ∧
     inferEntrypoint (w_exists w) rootDir (leftmost_label (rHost r)) = Ok (lEntrypoint l) ∧
     (serializeRequest (w_EscapedPath w) (w_EscapedFragment w) (w_escapeHost w)
        (w_visit w) r).1 = Ok (lRequest l) ∧
     ∃ cmd err,
       w_CombinedOutput w cmd = (lLogs l, err) ∧
       match err with
       | Some _ => lResponse l = None
       | None =>
           ∃ tempdir f res,
             w_MkdirTemp w = Ok tempdir ∧
             w_Open w (path.Join [tempdir; "response.json"]) = Ok f ∧
             w_Decode w f = Ok res ∧ lResponse l = Some res
       end).
Proof.
  destruct (ServeHTTP_shape w rootDir r)
    as [[ops ->] | [[msg ->] | (alias & entrypoint & env & req & tempdir & H)]].
  - rewrite log_writes_W. split; [simpl; lia | by intros p l ?%elem_of_nil].
  - split; [simpl; lia | by intros p l ?%elem_of_nil].
  - destruct H as (Halias & Hentry & _ & _ & Hreq & Htmp & ->).
    rewrite alias_of_host_leftmost in Halias. injection Halias as <-.
    rewrite log_writes_app. cbn [log_writes]. rewrite app_nil_r.
    unfold after_MkdirTemp.
    destruct (w_denoExecutable w) as [deno|e|e]; cbn [try];
      [| rewrite log_writes_W; split; [simpl; lia | by intros p l ?%elem_of_nil]
       | split; [simpl; lia | by intros p l ?%elem_of_nil]].
    destruct (w_Encode w _) as [stdin|e|e]; cbn [try];
      [| rewrite log_writes_W; split; [simpl; lia | by intros p l ?%elem_of_nil]
       | split; [simpl; lia | by intros p l ?%elem_of_nil]].
    rewrite log_writes_evaluate.
    destruct (w_CombinedOutput w (evaluator_cmd w entrypoint deno stdin))
      as [out [e|]] eqn:Hrun.
    + split; [simpl; lia |]. intros p l [= -> ->]%list_elem_of_singleton.
      split_and!; [done | done | done |]. exists (evaluator_cmd w entrypoint deno stdin), (Some e).
      by split.
    + destruct (w_Open w _) as [f|e|e] eqn:Hopen;
        [| split; [simpl; lia | by intros p l ?%elem_of_nil]..].
      destruct (w_Decode w f) as [res|e|e] eqn:Hdec;
        [| split; [simpl; lia | by intros p l ?%elem_of_nil]..].
      split; [simpl; lia |]. intros p l [= -> ->]%list_elem_of_singleton.
      split_and!; [done | done | done |].
      exists (evaluator_cmd w entrypoint deno stdin), None.
      split; [done |]. eauto 10.
Qed.

Example ServeHTTP_access_log_sample :
  log_writes (ServeHTTP sample.world_undecodable "/www" sample.request) = [] ∧
  (λ pl, (pl.1, lResponse pl.2, lLogs pl.2))
    <$> log_writes (ServeHTTP sample.world_exit1 "/www" sample.request)
  = [("/www/.logs/blog.jsonl", None, sample.output)].
Proof. by vm_compute. Qed.

Lemma write_response_headers_short (hs : list (list string)) (k : list event) (n : nat) :
  first_short hs = Some n →
  (n < 2)%nat ∧
  panics (write_response_headers hs k) = [index_out_of_range n n] ∧
  status_codes (writes (write_response_headers hs k)) = [] ∧
  body_of (writes (write_response_headers hs k)) = [].
Proof.
  unfold first_short.
  induction hs as [|h hs IH]; intros Hshort; [done |].
  cbn [find list_find] in Hshort. cbn [write_response_headers].
  case_bool_decide as Hlen.
  - injection Hshort as <-. split; [done |].
    destruct h as [|name [|value h]]; [done | done | simpl in Hlen; lia].
  - destruct h as [|name [|value h]]; [simpl in Hlen; lia.. |].
    cbn [lookup list_lookup panics writes status_codes body_of]. by apply IH.
Qed.

(** X3.  A decoded response with a header that is not a pair (fewer
    than two strings) makes the handler panic while it copies the
    headers, with the run-time error of the index that is out of range.
    By then [writeLog] has been called once, with the record that holds
    the response; whether that record reaches the log file is up to the
    call, whose error the handler drops.  No status and no body are
    written, and the temporary directory is still removed. *)
Theorem ServeHTTP_short_header_panics
    (w : World) (rootDir : string) (r : Request)
    (alias entrypoint : string) (env : gmap string string) (req : SerializedRequest)
    (tempdir deno stdin : string) (out f : bytes) (res : SerializedResponse) (n : nat) :
  alias_of_host (rHost r) = Some alias →
  inferEntrypoint (w_exists w) rootDir alias = Ok entrypoint →
  path.Base entrypoint ≠ "index.html" →
  loadEnv (w_exists w) (w_godotenv_Read w) rootDir entrypoint = Ok env →
  (serializeRequest (w_EscapedPath w) (w_EscapedFragment w) (w_escapeHost w)
     (w_visit w) r).1 = Ok req →
  w_MkdirTemp w = Ok tempdir →
  w_denoExecutable w = Ok deno →
  w_Encode w (mkCommandInput req entrypoint env (path.Join [tempdir; "response.json"]))
  = Ok stdin →
  w_CombinedOutput w (evaluator_cmd w entrypoint deno stdin) = (out, None) →
  w_Open w (path.Join [tempdir; "response.json"]) = Ok f →
  w_Decode w f = Ok res →
  first_short (Headers res) = Some n →
  panics (ServeHTTP w rootDir r) = [index_out_of_range n n] ∧
  status_codes (writes (ServeHTTP w rootDir r)) = [] ∧
  body_of (writes (ServeHTTP w rootDir r)) = [] ∧
  (∃ l,
     log_writes (ServeHTTP w rootDir r)
     = [(path.Join [rootDir; ".logs"; alias +:+ ".jsonl"], l)] ∧
     lResponse l = Some res ∧
     log_records w (ServeHTTP w rootDir r)
     = match w_writeLog w (path.Join [rootDir; ".logs"; alias +:+ ".jsonl"]) l with
       | None => [(path.Join [rootDir; ".logs"; alias +:+ ".jsonl"], l)]
       | Some _ => []
       end) ∧
  removals (ServeHTTP w rootDir r) = [tempdir].
Proof.
  intros Halias Hentry Hbase Henv Hreq Htmp Hdeno Hstdin Hrun Hopen Hdec Hshort.
  unfold log_records.
  rewrite (ServeHTTP_after_MkdirTemp w rootDir r alias entrypoint env req tempdir)
    by done.
  rewrite panics_app, writes_app, log_writes_app, removals_app,
    removals_after_MkdirTemp.
  cbn [panics writes log_writes removals]. rewrite !app_nil_r.
  unfold after_MkdirTemp. rewrite Hdeno. cbn [try]. rewrite Hstdin. cbn [try].
  rewrite log_writes_evaluate, Hrun, Hopen, Hdec.
  unfold evaluate. rewrite Hrun, Hopen. cbn [try]. rewrite Hdec. cbn [try].
  cbn [panics writes]. unfold write_response.
  match goal with
  | |- context [write_response_headers _ ?k] =>
      destruct (write_response_headers_short (Headers res) k n Hshort)
        as (_ & -> & -> & ->)
  end.
  split_and!; [done.. | | done].
  eexists. split_and!; [reflexivity | reflexivity |].
  rewrite filter_cons, filter_nil. cbn [fst snd].
  by destruct (w_writeLog w _ _); case_decide.
Qed.

Lemma ServeHTTP_short_header_panics_witness :
  panics (ServeHTTP sample.world_bad_header "/www" sample.request)
  = [index_out_of_range 1 1] ∧
  status_codes (writes (ServeHTTP sample.world_bad_header "/www" sample.request)) = [] ∧
  body_of (writes (ServeHTTP sample.world_bad_header "/www" sample.request)) = [] ∧
  (∃ l,
     log_writes (ServeHTTP sample.world_bad_header "/www" sample.request)
     = [(path.Join ["/www"; ".logs"; "blog" +:+ ".jsonl"], l)] ∧
     lResponse l
     = Some (mkSerializedResponse 200 [["Content-Type"; "text/plain"]; ["X-Broken"]]
               (Some (String.list_byte_of_string "hello"))) ∧
     log_records sample.world_bad_header
       (ServeHTTP sample.world_bad_header "/www" sample.request)
     = match w_writeLog sample.world_bad_header
               (path.Join ["/www"; ".logs"; "blog" +:+ ".jsonl"]) l with
       | None => [(path.Join ["/www"; ".logs"; "blog" +:+ ".jsonl"], l)]
       | Some _ => []
       end) ∧
  removals (ServeHTTP sample.world_bad_header "/www" sample.request) = ["/tmp/smallweb1"].
Proof.
  apply (ServeHTTP_short_header_panics sample.world_bad_header "/www" sample.request
           "blog" "/www/blog/mod.ts" {[ "A" := "1"; "B" := "3"; "C" := "4" ]}
           (mkSerializedRequest "http://blog.example.test/hello?x=1" "GET"
              [["User-Agent"; "curl"]; ["Accept"; "text/html"]] sample.body)
           "/tmp/smallweb1" "/usr/bin/deno" "input" sample.output
           (String.list_byte_of_string "json")).
  - reflexivity.
  - by vm_compute.
  - by vm_compute.
  - by vm_compute.
  - by vm_compute.
  - reflexivity.
  - reflexivity.
  - reflexivity.
  - reflexivity.
  - reflexivity.
  - reflexivity.
  - reflexivity.
Defined.

(** Where the directory [.logs] does not exist the call of [writeLog]
    fails and the log holds no record of the request; the panic is the
    one of Go. *)
Example ServeHTTP_short_header_no_logs :
  length (log_writes (ServeHTTP sample.world_no_logs "/www" sample.request)) = 1%nat ∧
  log_records sample.world_no_logs (ServeHTTP sample.world_no_logs "/www" sample.request)
  = [] ∧
  panics (ServeHTTP sample.world_no_logs "/www" sample.request)
  = ["runtime error: index out of range [1] with length 1"].
Proof. by vm_compute. Qed.

(** X4.  A request for a host without an entrypoint (none of the
    candidates of its leftmost label exists) is answered with 500 and
    the body [entrypoint not found]; the handler does nothing else. *)
Theorem ServeHTTP_no_entrypoint (w : World) (rootDir : string) (r : Request) :
  (∀ q, q ∈ entrypoint_candidates rootDir (leftmost_label (rHost r)) →
        w_exists w q = false) →
  ServeHTTP w rootDir r
  = W <$> http_Error "entrypoint not found" StatusInternalServerError.
Proof.
  intros Hnone. unfold ServeHTTP. rewrite alias_of_host_leftmost.
  rewrite inferEntrypoint_find.
  by rewrite (proj2 (find_none_all (w_exists w) _) Hnone).
Qed.

Lemma ServeHTTP_no_entrypoint_witness :
  ServeHTTP sample.world_ok "/www" sample.request_nosuch
  = W <$> http_Error "entrypoint not found" StatusInternalServerError.
Proof.
  apply ServeHTTP_no_entrypoint. apply find_none_all. by vm_compute.
Defined.

(** ** Paths that end in a file name *)

Lemma append_eq_nil (s t : string) : s +:+ t = "" → t = "".
Proof. destruct s; [done | by rewrite append_cons]. Qed.

Lemma rev_cons (c : ascii) (s : string) :
  String.rev (String c s) = String.rev s +:+ String c "".
Proof. change (String c s) with (String c "" +:+ s). apply rev_append. Qed.

Lemma rev_involutive (s : string) : String.rev (String.rev s) = s.
Proof.
  induction s as [|c s IH]; [done |].
  by rewrite rev_cons, rev_append, IH.
Qed.

Lemma strip_trailing_slashes_rev_cons (c : ascii) (s : string) :
  c ≠ "/"%char →
  path.strip_trailing_slashes_rev (String c s) = String c s.
Proof.
  intros Hc. destruct c as [[] [] [] [] [] [] [] []]; try reflexivity. done.
Qed.

Lemma rev_no_slash_head (s : string) :
  s ≠ "" → strings_.Contains_byte "/" s = false →
  ∃ c t, String.rev s = String c t ∧ c ≠ "/"%char.
Proof.
  induction s as [|c s IH]; intros Hne Hs; [done |].
  cbn [strings_.Contains_byte] in Hs. case_decide as Hc; [done |].
  rewrite rev_cons. destruct s as [|d s'].
  - exists c, "". by split.
  - destruct IH as (c' & s'' & -> & Hc'); [done | done |].
    exists c', (s'' +:+ String c ""). by rewrite append_cons.
Qed.

Lemma split_go_no_slash (s cur : string) :
  strings_.Contains_byte "/" s = false →
  strings_.split_go "/" 0 cur s = [String.rev_app cur s].
Proof.
  revert cur. induction s as [|c s IH]; intros cur Hs; [done |].
  cbn [strings_.Contains_byte] in Hs. case_decide as Hc; [done |].
  cbn [strings_.split_go String.prefix].
  destruct (ascii_dec "/" c) as [<-|_]; [done |]. by rewrite IH.
Qed.

Lemma split_last_go_no_slash (s dir cur : string) :
  strings_.Contains_byte "/" s = false →
  (path.split_last_go dir cur s).2 = String.rev_app cur s.
Proof.
  revert cur. induction s as [|c s IH]; intros cur Hs; [done |].
  cbn [strings_.Contains_byte] in Hs. case_decide as Hc; [done |].
  cbn [path.split_last_go]. rewrite decide_False by done. by rewrite IH.
Qed.

Section LastElement.

(** [x] is a file name: not empty, without a slash, neither [.] nor [..]. *)
Variable x : string.
Hypothesis x_nonempty : x ≠ "".
Hypothesis x_no_slash : strings_.Contains_byte "/" x = false.
Hypothesis x_not_dot : x ≠ ".".
Hypothesis x_not_dotdot : x ≠ "..".

Lemma Join_snoc (es : list string) :
  ∃ pre, dir_prefix pre ∧ strings_.Join (es ++ [x]) "/" = pre +:+ x.
Proof.
  induction es as [|e es (pre & Hpre & IH)].
  - exists "". split; [by left | done].
  - exists (e +:+ "/" +:+ pre). split.
    + right. destruct Hpre as [-> | [q ->]].
      * exists e. by rewrite append_nil_r.
      * exists (e +:+ "/" +:+ q). by rewrite !append_assoc.
    + change ((e :: es) ++ [x]) with (e :: (es ++ [x])).
      destruct (es ++ [x]) as [|e' rest] eqn:Hes; [by destruct es |].
      cbn [strings_.Join]. cbn [strings_.Join] in IH. rewrite IH.
      by rewrite !append_assoc.
Qed.

Lemma split_go_last (q cur : string) :
  ∃ ps, strings_.split_go "/" 0 cur (q +:+ "/" +:+ x) = ps ++ [x].
Proof.
  revert cur. induction q as [|c q IH]; intros cur.
  - exists [String.rev cur]. rewrite append_nil_l, append_cons, append_nil_l.
    cbn [strings_.split_go String.prefix].
    destruct (ascii_dec "/" "/") as [_|Hne]; [| done].
    assert (Hp : String.prefix "" x = true) by by destruct x.
    rewrite Hp. cbn [String.length Nat.sub]. by rewrite split_go_no_slash.
  - rewrite append_cons. cbn [strings_.split_go String.prefix].
    destruct (ascii_dec "/" c) as [<-|_].
    + assert (Hp : String.prefix "" (q +:+ "/" +:+ x) = true)
        by by destruct (q +:+ "/" +:+ x).
      rewrite Hp. cbn [String.length Nat.sub].
      destruct (IH "") as [ps ->]. by exists (String.rev cur :: ps).
    + apply IH.
Qed.

Lemma Split_last (pre : string) :
  dir_prefix pre → ∃ ps, strings_.Split (pre +:+ x) "/" = ps ++ [x].
Proof.
  intros [-> | [q ->]]; unfold strings_.Split.
  - exists []. rewrite append_nil_l. by rewrite split_go_no_slash.
  - rewrite append_assoc. apply split_go_last.
Qed.

Lemma clean_step_name (rooted : bool) (out : list string) :
  path.clean_step rooted out x = x :: out.
Proof.
  unfold path.clean_step. rewrite decide_False by (by intros [? | ?]).
  by rewrite decide_False.
Qed.

Lemma Clean_last (pre : string) :
  dir_prefix pre → ∃ pre', dir_prefix pre' ∧ path.Clean (pre +:+ x) = pre' +:+ x.
Proof.
  intros Hpre. unfold path.Clean.
  rewrite decide_False by (intros ?%append_eq_nil; done).
  cbv zeta. destruct (Split_last pre Hpre) as [ps ->].
  rewrite fold_left_app. cbn [fold_left]. rewrite clean_step_name. cbn [rev].
  generalize (rev (fold_left (path.clean_step (strings_.HasPrefix (pre +:+ x) "/"))
                     ps [])).
  intros st. destruct (Join_snoc st) as (pre' & Hpre' & ->).
  destruct (strings_.HasPrefix (pre +:+ x) "/").
  - exists ("/" +:+ pre'). split; [| by rewrite append_assoc].
    right. destruct Hpre' as [-> | [q ->]]; [by exists "" |].
    exists ("/" +:+ q). by rewrite append_assoc.
  - rewrite decide_False by (intros ?%append_eq_nil; done). eauto.
Qed.

(** A joined path whose last element is a file name ends with that name,
    after a slash unless it is the whole path. *)
Lemma Join_last (elems : list string) :
  ∃ pre, dir_prefix pre ∧ path.Join (elems ++ [x]) = pre +:+ x.
Proof.
  unfold path.Join. rewrite filter_app.
  assert (Hx : filter (λ e : string, e ≠ "") [x] = [x]).
  { rewrite filter_cons_True by done. done. }
  rewrite Hx.
  destruct (Join_snoc (filter (λ e : string, e ≠ "") elems)) as (pre & Hpre & Hjoin).
  destruct (filter (λ e : string, e ≠ "") elems ++ [x]) as [|e es] eqn:Hes.
  { by destruct (filter (λ e : string, e ≠ "") elems). }
  rewrite Hjoin. by apply Clean_last.
Qed.

Lemma split_last_go_last (q dir cur : string) :
  (path.split_last_go dir cur (q +:+ "/" +:+ x)).2 = x.
Proof.
  revert dir cur. induction q as [|c q IH]; intros dir cur.
  - rewrite append_nil_l, append_cons, append_nil_l. cbn [path.split_last_go].
    rewrite decide_True by done. by rewrite split_last_go_no_slash.
  - rewrite append_cons. cbn [path.split_last_go]. case_decide; apply IH.
Qed.

Lemma Base_last (pre : string) : dir_prefix pre → path.Base (pre +:+ x) = x.
Proof.
  intros Hpre. unfold path.Base.
  rewrite decide_False by (intros ?%append_eq_nil; done). cbv zeta.
  assert (Hstrip : path.strip_trailing_slashes_rev (String.rev (pre +:+ x))
                   = String.rev (pre +:+ x)).
  { rewrite rev_append.
    destruct (rev_no_slash_head x x_nonempty x_no_slash) as (c & t & -> & Hc).
    rewrite append_cons. by apply strip_trailing_slashes_rev_cons. }
  rewrite Hstrip, rev_involutive. unfold path.Split.
  destruct Hpre as [-> | [q ->]].
  - rewrite append_nil_l, split_last_go_no_slash by done.
    by rewrite decide_False.
  - rewrite append_assoc, split_last_go_last. by rewrite decide_False.
Qed.

Lemma Base_Join_last (elems : list string) : path.Base (path.Join (elems ++ [x])) = x.
Proof. destruct (Join_last elems) as (pre & Hpre & ->). by apply Base_last. Qed.

End LastElement.

(** ** The standalone handler: static apps *)

(** X5.  When the entrypoint of the host is the [index.html] of its app
    directory, the request is handed to the file server rooted at the
    directory of that file and the handler does nothing else: no
    environment is loaded, no temporary directory is created, no child
    is run and nothing is logged. *)
Theorem ServeHTTP_static_index (w : World) (rootDir : string) (r : Request) :
  inferEntrypoint (w_exists w) rootDir (leftmost_label (rHost r))
  = Ok (path.Join [rootDir; leftmost_label (rHost r); "index.html"]) →
  ServeHTTP w rootDir r
  = W <$> w_FileServer w
            (path.Dir (path.Join [rootDir; leftmost_label (rHost r); "index.html"])) r
  ∧ removals (ServeHTTP w rootDir r) = []
  ∧ log_writes (ServeHTTP w rootDir r) = [].
Proof.
  intros Hentry.
  assert (Hserve : ServeHTTP w rootDir r
    = W <$> w_FileServer w
              (path.Dir (path.Join [rootDir; leftmost_label (rHost r); "index.html"])) r).
  { unfold ServeHTTP. rewrite alias_of_host_leftmost, Hentry. cbn [try].
    rewrite decide_True; [done |].
    apply (Base_Join_last "index.html" ltac:(done) ltac:(done) ltac:(done) ltac:(done)
             [rootDir; leftmost_label (rHost r)]). }
  rewrite Hserve. split_and!; [done | apply removals_W | apply log_writes_W].
Qed.

Lemma ServeHTTP_static_index_witness :
  ServeHTTP sample.world_static "/www" sample.request
  = W <$> w_FileServer sample.world_static
            (path.Dir (path.Join ["/www"; leftmost_label "blog.example.test";
                                  "index.html"])) sample.request
  ∧ removals (ServeHTTP sample.world_static "/www" sample.request) = []
  ∧ log_writes (ServeHTTP sample.world_static "/www" sample.request) = [].
Proof.
  apply (ServeHTTP_static_index sample.world_static "/www" sample.request).
  by vm_compute.
Defined.

Example ServeHTTP_static_sample :
  writes (ServeHTTP sample.world_static "/www" sample.request)
  = [WriteHeader 200; Write (String.list_byte_of_string "/www/blog")].
Proof. by vm_compute. Qed.

(** ** Request serialization: failures and the change of the request *)

Lemma header_pairs_outcome (m : gmap string (list string)) (visit : list string)
    (acc : list (list string)) :
  match header_pairs (range_map m visit) acc with
  | Ok _ => ∀ k, k ∈ visit → m !! k ≠ Some []
  | Panic _ => ∃ k, k ∈ visit ∧ m !! k = Some []
  | Err _ => False
  end.
Proof.
  revert acc. induction visit as [|k visit IH]; intros acc.
  - cbn. by intros k ?%elem_of_nil.
  - unfold range_map in *. cbn [omap list_omap].
    destruct (m !! k) as [v|] eqn:Hk; cbn [fmap option_fmap option_map].
    + destruct v as [|v0 vs]; cbn [header_pairs lookup list_lookup].
      * exists k. split; [by left | done].
      * specialize (IH (acc ++ [[k; v0]])).
        destruct (header_pairs _ _) as [hs|e|e]; [| done |].
        -- intros k' [-> | Hk']%elem_of_cons; [by rewrite Hk | by apply IH].
        -- destruct IH as (k' & Hk' & Hempty). exists k'. split; [by right | done].
    + specialize (IH acc).
      destruct (header_pairs _ _) as [hs|e|e]; [| done |].
      * intros k' [-> | Hk']%elem_of_cons; [by rewrite Hk | by apply IH].
      * destruct IH as (k' & Hk' & Hempty). exists k'. split; [by right | done].
Qed.

(** X6.  Serialization fails in two ways only.  A visited header name
    with an empty list of values makes it panic, before the body is
    looked at; otherwise it returns the error of reading the body.  It
    succeeds exactly when every visited header has a value and the body
    can be read, and then the body of the result is the body read. *)
Theorem serializeRequest_outcome
    (EscapedPath EscapedFragment : URL → string) (escapeHost : string → string)
    (visit : list string) (req : Request) :
  match (serializeRequest EscapedPath EscapedFragment escapeHost visit req).1 with
  | Ok res =>
      (∀ k, k ∈ visit → Header req !! k ≠ Some []) ∧ Body req = Ok (sBody res)
  | Err e =>
      (∀ k, k ∈ visit → Header req !! k ≠ Some []) ∧ Body req = Err e
  | Panic e =>
      (∃ k, k ∈ visit ∧ Header req !! k = Some [])
      ∨ ((∀ k, k ∈ visit → Header req !! k ≠ Some []) ∧ Body req = Panic e)
  end.
Proof.
  unfold serializeRequest. cbn [fst].
  pose proof (header_pairs_outcome (Header req) visit []) as Hheaders.
  destruct (header_pairs (range_map (Header req) visit) []) as [hs|e|e];
    cbn [mbind result_bind]; [| done | by left].
  destruct (Body req) as [body|e|e]; cbn [mbind result_bind]; auto.
Qed.

Example serializeRequest_empty_header_sample :
  (serializeRequest Path Fragment id ["Accept"]
     (mkRequest "GET" (mkURL "" "" None "" "/" false false "" "")
        {[ "Accept" := [] ]} (Err "unexpected EOF") "blog.example.test" false)).1
  = Panic "runtime error: index out of range [0] with length 0".
Proof. by vm_compute. Qed.

(** ** Environment composition: failures *)

(** X7.  The environment fails to load only because an [.env] file that
    exists cannot be read: the one of the root directory, or else the
    one next to the entrypoint when it is another file.  An unreadable
    file of the root fails the load whatever the app-local file holds,
    and an [.html] entrypoint never fails. *)
Theorem loadEnv_fails_iff_unreadable
    (exists_ : string → bool) (godotenv_Read : string → result (gmap string string))
    (root entrypoint e : string) :
  loadEnv exists_ godotenv_Read root entrypoint = Err e
  ↔ path.Ext entrypoint ≠ ".html" ∧
    ((exists_ (path.Join [root; ".env"]) = true ∧
      godotenv_Read (path.Join [root; ".env"]) = Err e)
     ∨ ((∃ rootEnv, env_of_file exists_ godotenv_Read (path.Join [root; ".env"])
                    = Ok rootEnv) ∧
        exists_ (path.Join [path.Dir entrypoint; ".env"]) = true ∧
        path.Join [path.Dir entrypoint; ".env"] ≠ path.Join [root; ".env"] ∧
        godotenv_Read (path.Join [path.Dir entrypoint; ".env"]) = Err e)).
Proof.
  unfold loadEnv, env_of_file.
  set (rootEnvPath := path.Join [root; ".env"]).
  set (envPath := path.Join [path.Dir entrypoint; ".env"]).
  case_decide as Hext.
  { split; [done | by intros [? _]]. }
  destruct (exists_ rootEnvPath) eqn:Hroot.
  - destruct (godotenv_Read rootEnvPath) as [rootEnv|e'|e'] eqn:Hread;
      cbn [mbind result_bind].
    + destruct (exists_ envPath) eqn:Hdir; cbn [negb orb].
      * case_bool_decide as Hsame.
        -- split; [done |]. intros [_ [[_ ?] | (_ & _ & ? & _)]]; done.
        -- destruct (godotenv_Read envPath) as [dirEnv|e''|e''] eqn:Hread';
             cbn [mbind result_bind].
           ++ split; [done |]. intros [_ [[_ ?] | (_ & _ & _ & ?)]]; done.
           ++ split.
              ** intros [= ->]. split; [done |]. right. eauto.
              ** intros [_ [[_ ?] | (_ & _ & _ & [= ->])]]; done.
           ++ split; [done |]. intros [_ [[_ ?] | (_ & _ & _ & ?)]]; done.
      * split; [done |]. intros [_ [[_ ?] | (_ & ? & _)]]; done.
    + split.
      * intros [= ->]. split; [done |]. by left.
      * intros [_ [[_ [= ->]] | ([? ?] & _)]]; done.
    + split; [done |]. intros [_ [[_ ?] | ([? ?] & _)]]; done.
  - cbn [mbind result_bind].
    destruct (exists_ envPath) eqn:Hdir; cbn [negb orb].
    + case_bool_decide as Hsame.
      * split; [done |]. intros [_ [[? _] | (_ & _ & ? & _)]]; done.
      * destruct (godotenv_Read envPath) as [dirEnv|e''|e''] eqn:Hread';
          cbn [mbind result_bind].
        -- split; [done |]. intros [_ [[? _] | (_ & _ & _ & ?)]]; done.
        -- split.
           ++ intros [= ->]. split; [done |]. right. eauto.
           ++ intros [_ [[? _] | (_ & _ & _ & [= ->])]]; done.
        -- split; [done |]. intros [_ [[? _] | (_ & _ & _ & ?)]]; done.
    + split; [done |]. intros [_ [[? _] | (_ & ? & _)]]; done.
Qed.

Example loadEnv_unreadable_root_sample :
  loadEnv sample.exists_ sample.godotenv_Read_bad "/www" "/www/blog/mod.ts"
  = Err "unexpected character in variable name" ∧
  loadEnv sample.exists_ sample.godotenv_Read_bad "/www" "/www/blog/index.html" = Ok ∅.
Proof. by vm_compute. Qed.

(** ** The authentication middleware: who passes *)

Section WrapPasses.

Variable env : AuthEnv.
Variable email : string.

Lemma token_branch_next (db : DB) (scheme credential : string) :
  out_next (token_branch env db scheme credential) = true
  ↔ token_valid env db credential.
Proof.
  unfold token_branch, token_valid, database.GetToken.
  destruct (parseToken credential) as [[public secret]|e|e];
    [| split; [done | by intros (? & ? & ? & ? & _)]..].
  destruct (tokens db !! public) as [token|] eqn:Htoken.
  - destruct (bcrypt_Compare env (tHash token) secret) eqn:Hcmp.
    + split; [| done]. intros _. by exists public, secret, token.
    + split; [done |]. intros (? & ? & ? & [= <- <-] & Ht & Hc). congruence.
  - split; [done |]. intros (? & ? & ? & [= <- <-] & Ht & _). congruence.
Qed.

Lemma token_branch_db (db : DB) (scheme credential : string) :
  out_db (token_branch env db scheme credential) = db.
Proof.
  unfold token_branch.
  destruct (parseToken credential) as [[public secret]| |]; [| done..].
  destruct (database.GetToken db public) as [token| |]; [| done..].
  by destruct (bcrypt_Compare env (tHash token) secret).
Qed.

Lemma login_branch_next (db : DB) (r : Request) :
  out_next (login_branch env db r) = false ∧ out_db (login_branch env db r) = db.
Proof.
  unfold login_branch. destruct (generateBase62String env 16); [| done..].
  by destruct (json_Marshal_store env _).
Qed.

Lemma logout_branch_next (db : DB) (r : Request) :
  out_next (logout_branch env db r) = false.
Proof.
  unfold logout_branch, deny. destruct (req_Cookie env r sessionCookieName); [| done..].
  by destruct (DeleteSession db a).
Qed.

Lemma callback_branch_next (db : DB) (r : Request) :
  out_next (callback_branch env db r) = false.
Proof.
  unfold callback_branch, deny.
  destruct (req_Cookie env r oauthCookieName); [| done..].
  destruct (url_QueryUnescape env _); [| done..].
  destruct (json_Unmarshal_store env _); [| done..].
  case_decide; [done |]. case_decide; [done |].
  destruct (oauth_Exchange env _ _); [| done..].
  destruct (userinfo_Do env _) as [[statusCode body]| |]; [| done..].
  case_decide; [done |].
  destruct (userinfo_Decode env _); [| done..].
  by destruct (CreateSession _ _ _ _ _) as [[? ?]| |].
Qed.

Lemma session_branch_next (db : DB) (r : Request) :
  out_next (session_branch env email db r) = true ↔ presents_session env email db r.
Proof.
  unfold session_branch, presents_session.
  destruct (req_Cookie env r sessionCookieName) as [id|e|e];
    [| split; [done | by intros (? & ? & ? & _)]..].
  destruct (GetSession db id (rHost r)) as [s|e|e] eqn:Hget.
  - apply GetSession_Ok in Hget as [Hs Hdom].
    unfold time.After, time.Add.
    case_bool_decide as Hexp.
    { split; [by destruct (DeleteSession db id) |].
      intros (? & s' & [= <-] & Hs' & _ & _ & ? & _). simplify_eq. lia. }
    case_decide as Hmail.
    { split; [done |]. intros (? & s' & [= <-] & Hs' & _ & ? & _). by simplify_eq. }
    case_bool_decide as Hnear.
    { split; [by destruct (ExtendSession db id _) |].
      intros (? & s' & [= <-] & Hs' & _ & _ & _ & ?). simplify_eq. lia. }
    split; [| done]. intros _. exists id, s. split_and!; try done; lia.
  - split; [done |]. intros (? & s' & [= <-] & Hs' & Hdom & _).
    assert (Hok : GetSession db id (rHost r) = Ok s') by by apply GetSession_Ok.
    congruence.
  - split; [done |]. intros (? & s' & [= <-] & Hs' & Hdom & _).
    assert (Hok : GetSession db id (rHost r) = Ok s') by by apply GetSession_Ok.
    congruence.
Qed.

Lemma session_branch_next_db (db : DB) (r : Request) :
  out_next (session_branch env email db r) = true →
  out_db (session_branch env email db r) = db.
Proof.
  unfold session_branch.
  destruct (req_Cookie env r sessionCookieName) as [id|e|e]; [| done..].
  destruct (GetSession db id (rHost r)) as [s|e|e]; [| done..].
  destruct (time.After (clock env 0) (sExpiresAt s)).
  { by destruct (DeleteSession db id). }
  case_decide; [done |].
  destruct (time.After _ _); [| done]. by destruct (ExtendSession db id _).
Qed.

End WrapPasses.

Lemma Wrap_next_authenticated
    (env : AuthEnv) (email : string) (db : DB) (r : Request) :
  out_next (Wrap env email db r) = true → authenticated env email db r.
Proof.
  unfold Wrap, authenticated, presents_token, no_credentials, auth_page.
  destruct (BasicAuth (base64_DecodeString env) r) as [[username password]|] eqn:Hbasic.
  { rewrite token_branch_next. intros Hvalid. left. left. eauto. }
  destruct (strings_.HasPrefix (Header_Get (Header r) "Authorization") "Bearer ")
    eqn:Hbearer.
  { rewrite token_branch_next. intros Hvalid. left. right. done. }
  case_decide as Hemail; [done |].
  case_decide as Hlogin; [by rewrite (proj1 (login_branch_next env db r)) |].
  case_decide as Hcallback; [by rewrite callback_branch_next |].
  case_decide as Hlogout; [by rewrite logout_branch_next |].
  rewrite session_branch_next. intros Hs. right.
  split_and!; [done | done | done | | done].
  intros [? | [? | ?]]; done.
Qed.

(** X8.  The middleware calls the next handler exactly for an
    authenticated request: one that presents a valid token, as Basic
    username or as Bearer credential, or else, when a login email is
    configured and the path is none of the three [/_auth/] pages, one
    whose cookie names a session of this host and of that email which
    has not expired and has 7 days or more to live.  A request that
    passes leaves the store as it was. *)
Theorem Wrap_passes_iff_authenticated
    (env : AuthEnv) (email : string) (db : DB) (r : Request) :
  (out_next (Wrap env email db r) = true
   ↔ presents_token env db r
     ∨ (no_credentials env r ∧ email ≠ "" ∧ ¬ auth_page (Path (rURL r)) ∧
        presents_session env email db r)) ∧
  (out_next (Wrap env email db r) = true → out_db (Wrap env email db r) = db).
Proof.
  unfold Wrap, presents_token, no_credentials, auth_page.
  destruct (BasicAuth (base64_DecodeString env) r) as [[username password]|] eqn:Hbasic.
  { split; [| intros _; apply token_branch_db]. rewrite token_branch_next. split.
    - intros Hvalid. left. left. eauto.
    - intros [[(u & p & [= <- <-] & Hvalid) | (? & _)] | ((? & _) & _)]; done. }
  destruct (strings_.HasPrefix (Header_Get (Header r) "Authorization") "Bearer ")
    eqn:Hbearer.
  { split; [| intros _; apply token_branch_db]. rewrite token_branch_next. split.
    - intros Hvalid. left. right. done.
    - intros [[(u & p & ? & _) | (_ & _ & Hvalid)] | ((_ & ?) & _)]; done. }
  case_decide as Hemail.
  { split; [| done]. split; [done |].
    intros [[(? & ? & ? & _) | (_ & ? & _)] | (_ & ? & _)]; done. }
  case_decide as Hlogin.
  { split; [| by rewrite (proj1 (login_branch_next env db r))].
    rewrite (proj1 (login_branch_next env db r)). split; [done |].
    intros [[(? & ? & ? & _) | (_ & ? & _)] | (_ & _ & Hpage & _)]; [done | done |].
    destruct Hpage. auto. }
  case_decide as Hcallback.
  { split; [| by rewrite callback_branch_next].
    rewrite callback_branch_next. split; [done |].
    intros [[(? & ? & ? & _) | (_ & ? & _)] | (_ & _ & Hpage & _)]; [done | done |].
    destruct Hpage. auto. }
  case_decide as Hlogout.
  { split; [| by rewrite logout_branch_next].
    rewrite logout_branch_next. split; [done |].
    intros [[(? & ? & ? & _) | (_ & ? & _)] | (_ & _ & Hpage & _)]; [done | done |].
    destruct Hpage. auto. }
  split; [| apply session_branch_next_db].
  rewrite session_branch_next. split.
  - intros Hs. right. split_and!; [done | done | done | | done].
    intros [? | [? | ?]]; done.
  - intros [[(? & ? & ? & _) | (_ & ? & _)] | (_ & _ & _ & ?)]; done.
Qed.

Example Wrap_passes_sample :
  out_next (Wrap (sample.auth_env (days 1)) sample.email sample.db sample.with_cookie)
  = true ∧
  out_next (Wrap (sample.auth_env (days 1)) "" sample.db sample.with_cookie) = false ∧
  out_next (Wrap (sample.auth_env (days 1)) sample.email sample.db sample.login) = false.
Proof. by vm_compute. Qed.

(** ** The authentication middleware: what it does to the store *)

Section WrapStore.

Variable env : AuthEnv.
Variable email : string.

Lemma ExtendSession_Ok (db : DB) (id : string) (expiresAt : Z) :
  db_wf db →
  (∃ s, sessions db !! id = Some s ∧
        ExtendSession db id expiresAt
        = Ok (mkDB (<[id := with_expiry s expiresAt]> (sessions db)) (tokens db)))
  ∨ (sessions db !! id = None ∧ ∃ e, ExtendSession db id expiresAt = Err e).
Proof.
  intros Hwf. destruct (sessions db !! id) as [s|] eqn:Hs.
  - left. exists s. split; [done |]. by apply ExtendSession_stored.
  - right. split; [done |]. unfold ExtendSession, database.GetSession. rewrite Hs. eauto.
Qed.

Lemma wf_insert (db : DB) (id : string) (s : Session) :
  db_wf db → sID s = id → db_wf (mkDB (<[id := s]> (sessions db)) (tokens db)).
Proof.
  intros Hwf Hid id' s'. cbn [sessions].
  intros [[<- <-]|[_ Hs]]%lookup_insert_Some; [done | by apply Hwf].
Qed.

Lemma wf_delete (db : DB) (id : string) :
  db_wf db → db_wf (mkDB (delete id (sessions db)) (tokens db)).
Proof.
  intros Hwf id' s'. cbn [sessions]. intros [_ Hs]%lookup_delete_Some. by apply Hwf.
Qed.


Lemma store_step_refl (r : Request) (db : DB) : db_wf db → store_step env r db db.
Proof. intros Hwf. split_and!; [done | done | by left]. Qed.

Lemma logout_branch_store (db : DB) (r : Request) :
  db_wf db → store_step env r db (out_db (logout_branch env db r)).
Proof.
  intros Hwf. unfold logout_branch, deny.
  destruct (req_Cookie env r sessionCookieName) as [id|e|e] eqn:Hcookie;
    [| by apply store_step_refl..].
  cbn. split_and!; [by apply wf_delete | done |].
  right; left. by exists id.
Qed.

Lemma callback_branch_store (db : DB) (r : Request) :
  db_wf db →
  Path (rURL r) = "/_auth/callback" →
  store_step env r db (out_db (callback_branch env db r)).
Proof.
  intros Hwf Hpath. unfold callback_branch, deny.
  destruct (req_Cookie env r oauthCookieName); [| by apply store_step_refl..].
  destruct (url_QueryUnescape env _); [| by apply store_step_refl..].
  destruct (json_Unmarshal_store env _); [| by apply store_step_refl..].
  case_decide; [by apply store_step_refl |].
  case_decide; [by apply store_step_refl |].
  destruct (oauth_Exchange env _ _); [| by apply store_step_refl..].
  destruct (userinfo_Do env _) as [[statusCode body]| |]; [| by apply store_step_refl..].
  case_decide; [by apply store_step_refl |].
  destruct (userinfo_Decode env _) as [mail| |]; [| by apply store_step_refl..].
  unfold CreateSession.
  destruct (gonanoid_New env) as [id|e|e] eqn:Hid; [| by apply store_step_refl..].
  cbn. split_and!; [by apply wf_insert | done |].
  right; right; right. by exists id, mail.
Qed.

Lemma session_branch_store (db : DB) (r : Request) :
  db_wf db → store_step env r db (out_db (session_branch env email db r)).
Proof.
  intros Hwf. unfold session_branch.
  destruct (req_Cookie env r sessionCookieName) as [id|e|e] eqn:Hcookie;
    [| by apply store_step_refl..].
  destruct (GetSession db id (rHost r)) as [s|e|e] eqn:Hget;
    [| by apply store_step_refl..].
  apply GetSession_Ok in Hget as [Hs _].
  destruct (time.After (clock env 0) (sExpiresAt s)).
  { cbn. split_and!; [by apply wf_delete | done |]. right; left. by exists id. }
  case_decide; [by apply store_step_refl |].
  destruct (time.After _ _); [| by apply store_step_refl].
  rewrite (ExtendSession_stored db id s _ Hwf Hs). cbn.
  split_and!; [| done |].
  - apply wf_insert; [done |]. exact (Hwf _ _ Hs).
  - right; right; left. by exists id, s.
Qed.

End WrapStore.

(** X9.  Whatever the request, the middleware keeps the table of
    tokens and the rule that a session is stored under its own id, and
    it changes the sessions in one of three ways at most: it deletes the
    session named by the cookie, it gives that session the expiry of 14
    days from now, or, on the callback page only, it adds one session
    for the host of the request. *)
Theorem Wrap_store_step (env : AuthEnv) (email : string) (db : DB) (r : Request) :
  db_wf db →
  db_wf (out_db (Wrap env email db r)) ∧
  tokens (out_db (Wrap env email db r)) = tokens db ∧
  (out_db (Wrap env email db r) = db
   ∨ session_deleted env r db (out_db (Wrap env email db r))
   ∨ session_extended env r db (out_db (Wrap env email db r))
   ∨ session_created env r db (out_db (Wrap env email db r))).
Proof.
  intros Hwf. change (store_step env r db (out_db (Wrap env email db r))).
  unfold Wrap.
  destruct (BasicAuth (base64_DecodeString env) r) as [[username password]|].
  { rewrite token_branch_db. by apply store_step_refl. }
  destruct (strings_.HasPrefix _ _).
  { rewrite token_branch_db. by apply store_step_refl. }
  case_decide; [by apply store_step_refl |].
  case_decide.
  { rewrite (proj2 (login_branch_next env db r)). by apply store_step_refl. }
  case_decide; [by apply callback_branch_store |].
  case_decide; [by apply logout_branch_store |].
  by apply session_branch_store.
Qed.

Lemma Wrap_store_step_witness :
  db_wf (out_db (Wrap (sample.auth_env (days 8)) sample.email sample.db
                   sample.with_cookie)) ∧
  tokens (out_db (Wrap (sample.auth_env (days 8)) sample.email sample.db
                    sample.with_cookie)) = tokens sample.db ∧
  (out_db (Wrap (sample.auth_env (days 8)) sample.email sample.db sample.with_cookie)
   = sample.db
   ∨ session_deleted (sample.auth_env (days 8)) sample.with_cookie sample.db
       (out_db (Wrap (sample.auth_env (days 8)) sample.email sample.db
                  sample.with_cookie))
   ∨ session_extended (sample.auth_env (days 8)) sample.with_cookie sample.db
       (out_db (Wrap (sample.auth_env (days 8)) sample.email sample.db
                  sample.with_cookie))
   ∨ session_created (sample.auth_env (days 8)) sample.with_cookie sample.db
       (out_db (Wrap (sample.auth_env (days 8)) sample.email sample.db
                  sample.with_cookie))).
Proof.
  exact (Wrap_store_step (sample.auth_env (days 8)) sample.email sample.db
           sample.with_cookie sample_db_wf).
Defined.

(** ** The authentication middleware: login, use and logout *)

Lemma sets_no_cookie_http_Error (msg : string) (code : Z) :
  sets_no_cookie (http_Error msg code).
Proof.
  intros c Hc. unfold http_Error in Hc.
  repeat (apply elem_of_cons in Hc as [Hc | Hc]; [done |]).
  by apply elem_of_nil in Hc.
Qed.

(** X10.  On the callback page a session is created, and its cookie
    set, only after every check has passed: the oauth cookie decodes,
    the state of the query is the one stored in it, the code is not
    empty and is exchanged for a token, and the provider answers 200
    with an email.  The session is then created for that email,
    whichever it is, and for the host of the request, and the reply is
    the redirect to the stored target.  In every other case the store
    is left as it was, no cookie is set, and the reply is 400, 401 or
    500. *)
Theorem callback_creates_session_after_checks
    (env : AuthEnv) (email : string) (db : DB) (r : Request) :
  no_credentials env r →
  email ≠ "" →
  Path (rURL r) = "/_auth/callback" →
  (∃ store mail id,
     callback_checked env r store mail ∧
     gonanoid_New env = Ok id ∧
     Wrap env email db r
     = mkServed
         (mkDB (<[id := mkSession id mail (rHost r) (clock env 0)
                           (clock env 1 + days 14)]> (sessions db)) (tokens db))
         [ SetCookie (mkCookie oauthCookieName "" (clock env 2 + -1 * time.Hour)
                        "/" true true true);
           SetCookie (mkCookie sessionCookieName id (clock env 3 + days 14)
                        "/" true true true);
           Redirect (oRedirect store) StatusSeeOther ]
         [] false)
  ∨ (out_db (Wrap env email db r) = db ∧
     out_next (Wrap env email db r) = false ∧
     sets_no_cookie (out_ops (Wrap env email db r)) ∧
     status_of (out_ops (Wrap env email db r))
       ∈ [Some StatusBadRequest; Some StatusUnauthorized;
          Some StatusInternalServerError]).
Proof.
  intros [Hbasic Hbearer] Hemail Hpath. unfold Wrap.
  rewrite Hbasic, Hbearer. rewrite decide_False by done.
  rewrite decide_False by (by rewrite Hpath). rewrite decide_True by done.
  unfold callback_branch, callback_checked, deny, unauthorized, internal_error.
  assert (Hrefused : ∀ msg code printed,
    code ∈ [StatusBadRequest; StatusUnauthorized; StatusInternalServerError] →
    out_db (mkServed db (http_Error msg code) printed false) = db ∧
    out_next (mkServed db (http_Error msg code) printed false) = false ∧
    sets_no_cookie (out_ops (mkServed db (http_Error msg code) printed false)) ∧
    status_of (out_ops (mkServed db (http_Error msg code) printed false))
      ∈ [Some StatusBadRequest; Some StatusUnauthorized;
         Some StatusInternalServerError]).
  { intros msg code printed Hcode.
    split_and!; [done | done | apply sets_no_cookie_http_Error |].
    cbn [out_ops]. rewrite !elem_of_cons in Hcode.
    destruct Hcode as [-> | [-> | [-> | []%elem_of_nil]]];
      rewrite !elem_of_cons; auto. }
  assert (H400 : StatusBadRequest
                 ∈ [StatusBadRequest; StatusUnauthorized; StatusInternalServerError])
    by (rewrite !elem_of_cons; auto).
  assert (H401 : StatusUnauthorized
                 ∈ [StatusBadRequest; StatusUnauthorized; StatusInternalServerError])
    by (rewrite !elem_of_cons; auto).
  assert (H500 : StatusInternalServerError
                 ∈ [StatusBadRequest; StatusUnauthorized; StatusInternalServerError])
    by (rewrite !elem_of_cons; auto).
  destruct (req_Cookie env r oauthCookieName) as [oauthCookie| |];
    [| right; by apply Hrefused..].
  destruct (url_QueryUnescape env oauthCookie) as [value| |] eqn:Hvalue;
    [| right; by apply Hrefused..].
  destruct (json_Unmarshal_store env value) as [store| |] eqn:Hstore;
    [| right; by apply Hrefused..].
  case_decide as Hstate; [right; by apply Hrefused |].
  case_decide as Hcode; [right; by apply Hrefused |].
  destruct (oauth_Exchange env (rHost r) _) as [accessToken| |] eqn:Hexchange;
    [| right; by apply Hrefused..].
  destruct (userinfo_Do env accessToken) as [[statusCode body]| |] eqn:Hdo;
    [| right; by apply Hrefused..].
  case_decide as Hstatus; [right; by apply Hrefused |].
  destruct (userinfo_Decode env body) as [mail| |] eqn:Hdecode;
    [| right; by apply Hrefused..].
  unfold CreateSession.
  destruct (gonanoid_New env) as [id| |] eqn:Hid; [| right; by apply Hrefused..].
  left. exists store, mail, id. split_and!; [| done | done].
  subst statusCode.
  exists oauthCookie, value, accessToken, body. by split_and!.
Qed.

Lemma callback_creates_session_after_checks_witness :
  (∃ store mail id,
     callback_checked sample.auth_env_callback sample.callback store mail ∧
     gonanoid_New sample.auth_env_callback = Ok id ∧
     Wrap sample.auth_env_callback sample.email sample.db sample.callback
     = mkServed
         (mkDB (<[id := mkSession id mail (rHost sample.callback)
                           (clock sample.auth_env_callback 0)
                           (clock sample.auth_env_callback 1 + days 14)]>
                  (sessions sample.db)) (tokens sample.db))
         [ SetCookie (mkCookie oauthCookieName ""
                        (clock sample.auth_env_callback 2 + -1 * time.Hour)
                        "/" true true true);
           SetCookie (mkCookie sessionCookieName id
                        (clock sample.auth_env_callback 3 + days 14)
                        "/" true true true);
           Redirect (oRedirect store) StatusSeeOther ]
         [] false)
  ∨ (out_db (Wrap sample.auth_env_callback sample.email sample.db sample.callback)
     = sample.db ∧
     out_next (Wrap sample.auth_env_callback sample.email sample.db sample.callback)
     = false ∧
     sets_no_cookie
       (out_ops (Wrap sample.auth_env_callback sample.email sample.db sample.callback)) ∧
     status_of
       (out_ops (Wrap sample.auth_env_callback sample.email sample.db sample.callback))
       ∈ [Some StatusBadRequest; Some StatusUnauthorized;
          Some StatusInternalServerError]).
Proof.
  apply (callback_creates_session_after_checks sample.auth_env_callback sample.email
           sample.db sample.callback).
  - split; by vm_compute.
  - discriminate.
  - reflexivity.
Defined.

Example callback_sample :
  status_of (out_ops (Wrap sample.auth_env_callback sample.email sample.db
                        sample.callback)) = Some StatusSeeOther ∧
  sDomain <$> sessions (out_db (Wrap sample.auth_env_callback sample.email sample.db
                                  sample.callback)) !! "sid2"
  = Some "blog.example.test".
Proof. by vm_compute. Qed.

(** X11.  A session works on the host it was created for and nowhere
    else.  With the store left by [CreateSession], a request that
    carries the cookie of the new session within its first 7 days
    passes when it is for the same host and the session is of the
    required email, and gets 401 when the email is another one.  On any
    other host it is redirected to the login page with an expired
    cookie.  In all three cases the session stays in the store. *)
Theorem created_session_round_trip
    (clock0 : nat → Z) (id mail host : string) (db db' : DB)
    (env : AuthEnv) (email : string) (r : Request) :
  CreateSession clock0 (Ok id) db mail host = Ok (id, db') →
  no_credentials env r →
  email ≠ "" →
  ¬ auth_page (Path (rURL r)) →
  req_Cookie env r sessionCookieName = Ok id →
  clock env 0 ≤ clock0 1%nat + days 14 →
  clock env 1 + days 7 ≤ clock0 1%nat + days 14 →
  (rHost r = host → mail = email → Wrap env email db' r = mkServed db' [] [] true) ∧
  (rHost r = host → mail ≠ email →
   Wrap env email db' r = mkServed db' unauthorized ["email mismatch"] false) ∧
  (rHost r ≠ host →
   Wrap env email db' r
   = mkServed db' [SetCookie (expired_cookie (clock env 0)); login_redirect r] [] false).
Proof.
  intros [= <-] [Hbasic Hbearer] Hemail Hpage Hcookie Hvalid Hfar.
  assert (Hsession : ∀ db0, Wrap env email db0 r = session_branch env email db0 r).
  { intros db0. apply Wrap_session; try done; intros Hp; apply Hpage; unfold auth_page;
      auto. }
  rewrite Hsession. unfold session_branch. rewrite Hcookie.
  unfold GetSession, GetSession_over, database.GetSession. cbn [sessions].
  rewrite lookup_insert_eq. cbn [sDomain sExpiresAt sEmail].
  unfold time.After, time.Add. split_and!.
  - intros -> ->. rewrite decide_False by (by intros ?).
    cbn [sExpiresAt sEmail]. rewrite bool_decide_eq_false_2 by lia.
    rewrite decide_False by (by intros ?).
    by rewrite bool_decide_eq_false_2 by lia.
  - intros -> Hmail. rewrite decide_False by (by intros ?).
    cbn [sExpiresAt sEmail]. rewrite bool_decide_eq_false_2 by lia.
    by rewrite decide_True.
  - intros Hhost. by rewrite decide_True by (by intros ?).
Qed.

Lemma created_session_round_trip_witness :
  Wrap (sample.auth_env (days 1)) sample.email sample.db sample.with_cookie_elsewhere
  = mkServed sample.db
      [ SetCookie (expired_cookie (clock (sample.auth_env (days 1)) 0));
        login_redirect sample.with_cookie_elsewhere ] [] false.
Proof.
  refine (proj2 (proj2 (created_session_round_trip (λ _, 0) "sid" sample.email
                          "blog.example.test" (mkDB ∅ (tokens sample.db)) sample.db
                          (sample.auth_env (days 1)) sample.email
                          sample.with_cookie_elsewhere _ _ _ _ _ _ _)) _).
  - by vm_compute.
  - split; by vm_compute.
  - discriminate.
  - intros [? | [? | ?]]; discriminate.
  - reflexivity.
  - by vm_compute.
  - by vm_compute.
  - discriminate.
Defined.

(** X12.  Logging out deletes the session named by the cookie, whatever
    the host, the email and the expiry of that session, and answers with
    a redirect.  Afterwards the session is found for no host, and a
    request that carries its cookie passes the middleware only with a
    valid token. *)
Theorem logout_ends_session
    (env : AuthEnv) (email : string) (db : DB) (r : Request) (id : string) :
  no_credentials env r →
  email ≠ "" →
  Path (rURL r) = "/_auth/logout" →
  req_Cookie env r sessionCookieName = Ok id →
  out_db (Wrap env email db r) = mkDB (delete id (sessions db)) (tokens db) ∧
  out_next (Wrap env email db r) = false ∧
  status_of (out_ops (Wrap env email db r)) = Some StatusSeeOther ∧
  (∀ host, ∃ e, GetSession (out_db (Wrap env email db r)) id host = Err e) ∧
  (∀ env' email' r',
     req_Cookie env' r' sessionCookieName = Ok id →
     out_next (Wrap env' email' (out_db (Wrap env email db r)) r') = true →
     presents_token env' (out_db (Wrap env email db r)) r').
Proof.
  intros [Hbasic Hbearer] Hemail Hpath Hcookie.
  assert (Hout : Wrap env email db r
    = mkServed (mkDB (delete id (sessions db)) (tokens db))
        [ SetCookie (mkCookie sessionCookieName "" (time.Add (clock env 0) (-1 * time.Hour))
                       "/" true true true);
          Redirect (if decide (query_Get env (rURL r) "redirect" = "")
                    then "https://" +:+ rHost r +:+ "/"
                    else query_Get env (rURL r) "redirect") StatusSeeOther ] [] false).
  { unfold Wrap. rewrite Hbasic, Hbearer. rewrite decide_False by done.
    rewrite !decide_False by (by rewrite Hpath). rewrite decide_True by done.
    unfold logout_branch. by rewrite Hcookie. }
  rewrite Hout. cbn [out_db out_next out_ops]. split_and!; [done | done | done | |].
  - intros host. unfold GetSession, GetSession_over, database.GetSession. cbn [sessions].
    rewrite lookup_delete_eq. eauto.
  - intros env' email' r' Hcookie' Hnext.
    apply Wrap_next_authenticated in Hnext as [Htoken | (_ & _ & _ & Hsession)];
      [done |].
    destruct Hsession as (id' & s & Hid' & Hs & _). rewrite Hcookie' in Hid'.
    injection Hid' as <-. cbn [sessions] in Hs. by rewrite lookup_delete_eq in Hs.
Qed.

Lemma logout_ends_session_witness :
  out_db (Wrap (sample.auth_env 0) sample.email sample.db sample.logout)
  = mkDB (delete "sid" (sessions sample.db)) (tokens sample.db).
Proof.
  refine (proj1 (logout_ends_session (sample.auth_env 0) sample.email sample.db
                   sample.logout "sid" _ _ _ _)).
  - split; by vm_compute.
  - discriminate.
  - reflexivity.
  - reflexivity.
Defined.

(** ** The dispatcher of the [up] command *)

Lemma Wrap_next_silent (env : AuthEnv) (email : string) (db : DB) (r : Request) :
  out_next (Wrap env email db r) = true →
  Wrap env email db r = mkServed db [] [] true.
Proof.
  unfold Wrap.
  assert (Htoken : ∀ scheme credential,
    out_next (token_branch env db scheme credential) = true →
    token_branch env db scheme credential = mkServed db [] [] true).
  { intros scheme credential.
    destruct (token_branch_outcome env db scheme credential) as [-> | ->]; done. }
  destruct (BasicAuth (base64_DecodeString env) r) as [[username password]|];
    [apply Htoken |].
  destruct (strings_.HasPrefix _ _); [apply Htoken |].
  case_decide; [done |].
  case_decide; [by rewrite (proj1 (login_branch_next env db r)) |].
  case_decide; [by rewrite callback_branch_next |].
  case_decide; [by rewrite logout_branch_next |].
  unfold session_branch.
  destruct (req_Cookie env r sessionCookieName) as [id|e|e]; [| done..].
  destruct (GetSession db id (rHost r)) as [s|e|e]; [| done..].
  destruct (time.After (clock env 0) (sExpiresAt s)).
  { by destruct (DeleteSession db id). }
  case_decide; [done |].
  destruct (time.After _ _); [| done]. by destruct (ExtendSession db id _).
Qed.

(** X13.  The dispatcher lets the handler of an app run only for a
    request that is public or authenticated: either the route is not
    wrapped in the middleware, or the request presents a valid token or
    a valid session.  Then the store is untouched and the reply is the
    one of the handler.  In every other case it panics on a route
    pattern or answers by itself, with the redirect of the apex domain,
    404, 500, or the reply of the middleware. *)
Theorem up_handler_serves_public_or_authenticated
    (e : UpEnv) (db : DB) (r : Request) :
  (∃ a h,
     rHost r ≠ cfg_domain e ∧
     LoadApp e (path.Join [cfg_dir e; appname_of e r]) (cfg_domain e) = Ok a ∧
     select_handler e a = Ok h ∧
     up_handler e db r = Ok (db, run_handler e h r) ∧
     (wrapped (u_glob_Compile e) (u_glob_Match e) (aConfig a) (Path (rURL r)) = Ok false
      ∨ (wrapped (u_glob_Compile e) (u_glob_Match e) (aConfig a) (Path (rURL r))
         = Ok true ∧
         authenticated (u_auth e) (cfg_email e) db r)))
  ∨ (∃ m, up_handler e db r = Panic m)
  ∨ answered_without_app e db r.
Proof.
  unfold answered_without_app.
  destruct (decide (rHost r = cfg_domain e)) as [Hhost|Hhost].
  { right; right; left. unfold up_handler. rewrite decide_True by done. eauto. }
  destruct (LoadApp e (path.Join [cfg_dir e; appname_of e r]) (cfg_domain e))
    as [a|m|m] eqn:Hload.
  2,3: right; right; right; left; unfold up_handler;
       rewrite decide_False by done; by rewrite Hload.
  destruct (select_handler e a) as [h|m|m] eqn:Hsel.
  2,3: right; right; right; right; left; unfold up_handler;
       rewrite decide_False by done; rewrite Hload, Hsel; eauto.
  destruct (wrapped (u_glob_Compile e) (u_glob_Match e) (aConfig a) (Path (rURL r)))
    as [[|]|m|m] eqn:Hwrapped.
  - destruct (out_next (Wrap (u_auth e) (cfg_email e) db r)) eqn:Hnext.
    + left. exists a, h. split_and!; [done | done | done | |].
      * unfold up_handler. rewrite decide_False by done.
        rewrite Hload, Hsel, Hwrapped. cbv zeta.
        by rewrite (Wrap_next_silent _ _ _ _ Hnext).
      * right. split; [done |]. by apply Wrap_next_authenticated.
    + right; right; right; right; right. split; [done |].
      unfold up_handler. rewrite decide_False by done.
      rewrite Hload, Hsel, Hwrapped. cbv zeta. by rewrite Hnext, app_nil_r.
  - left. exists a, h. split_and!; [done | done | done | | by left].
    unfold up_handler. rewrite decide_False by done. by rewrite Hload, Hsel, Hwrapped.
  - right; left. exists m. unfold up_handler. rewrite decide_False by done.
    by rewrite Hload, Hsel, Hwrapped.
  - right; left. exists m. unfold up_handler. rewrite decide_False by done.
    by rewrite Hload, Hsel, Hwrapped.
Qed.

(** The private corner of the sample app: without a cookie the request
    is sent to the login page and the app does not run. *)
Example up_handler_sample_private :
  up_handler sample.up_env sample.db
    (mkRequest "GET" (mkURL "" "" None "" "/public/admin" false false "" "") ∅ (Ok [])
       "blog.example.test" true)
  = Ok (sample.db, [Redirect "/_auth/login?redirect=/public/admin" StatusSeeOther]).
Proof. by vm_compute. Qed.

(** X14.  A request for the apex domain itself is answered with a
    temporary redirect to the same path and query on [www.<domain>] over
    https, before any app is looked up; the store is untouched. *)
Theorem up_handler_apex_redirect (e : UpEnv) (db : DB) (r : Request) :
  rHost r = cfg_domain e →
  Opaque (rURL r) = "" → User (rURL r) = None → Fragment (rURL r) = "" →
  (∀ u, Path u = Path (rURL r) →
        u_EscapedPath e u = "" ∨ strings_.HasPrefix (u_EscapedPath e u) "/" = true) →
  ∃ target,
    Path target = Path (rURL r) ∧
    up_handler e db r
    = Ok (db,
          [Redirect ("https" +:+ "://" +:+ u_escapeHost e ("www." +:+ cfg_domain e)
                     +:+ u_EscapedPath e target
                     +:+ (if ForceQuery (rURL r) || bool_decide (RawQuery (rURL r) ≠ "")
                          then "?" +:+ RawQuery (rURL r) else ""))
             StatusTemporaryRedirect]).
Proof.
  intros Hhost Hopaque Huser Hfrag Hpath. eexists (mkURL _ _ _ _ _ _ _ _ _).
  split; [reflexivity |]. unfold up_handler. rewrite decide_True by done.
  rewrite URL_String_origin_form; try done.
  by apply Hpath.
Qed.

Lemma up_handler_apex_redirect_witness :
  ∃ target,
    Path target = "/x" ∧
    up_handler sample.up_env sample.db
      (mkRequest "GET" (mkURL "" "" None "" "/x" false false "" "") ∅ (Ok [])
         "example.test" true)
    = Ok (sample.db,
          [Redirect ("https" +:+ "://" +:+ "www." +:+ "example.test"
                     +:+ Path target +:+ "")
             StatusTemporaryRedirect]).
Proof.
  apply (up_handler_apex_redirect sample.up_env sample.db
           (mkRequest "GET" (mkURL "" "" None "" "/x" false false "" "") ∅ (Ok [])
              "example.test" true)).
  - reflexivity.
  - reflexivity.
  - reflexivity.
  - reflexivity.
  - intros u Hu. right. cbn in Hu |- *. by rewrite Hu.
Defined.

(** ** The logging middleware *)

Lemma recorded_status_last (statusCode : Z) (ops : list wop) :
  recorded_status statusCode ops = default statusCode (last (status_codes ops)).
Proof.
  revert statusCode. induction ops as [|op ops IH]; intros statusCode; [done |].
  assert (Hcons : ∀ code,
    recorded_status code ops
    = default statusCode (last (code :: status_codes ops))).
  { intros code. rewrite IH, last_cons. by destruct (last (status_codes ops)). }
  destruct op; cbn [recorded_status status_codes]; auto.
Qed.

Lemma recorded_status_no_codes (statusCode : Z) (ops : list wop) :
  status_codes ops = [] → recorded_status statusCode ops = statusCode.
Proof. intros Hcodes. by rewrite recorded_status_last, Hcodes. Qed.

Lemma returns_wrote (ops : list wop) : returns true ops = true.
Proof. induction ops as [|[] ops IH]; done. Qed.

Lemma returns_status_of (ops : list wop) :
  if returns false ops then ∃ status, status_of ops = Some status
  else status_of ops = None.
Proof.
  induction ops as [|op ops IH]; [by eexists |].
  destruct op; cbn [returns status_of]; try done.
  - destruct (write_header code) as [[status|]|]; [| done..].
    rewrite returns_wrote. by eexists.
  - rewrite returns_wrote. by eexists.
  - destruct (write_header code) as [[status|]|]; [| done..].
    rewrite returns_wrote. by eexists.
Qed.

Lemma write_header_final (code : Z) :
  informational code = false →
  write_header code = None ∨ write_header code = Some (Some code).
Proof. unfold write_header. intros ->. destruct (valid_code code); auto. Qed.

Lemma status_of_sets_once (ops : list wop) :
  sets_status_once ops = true →
  Forall (λ code, informational code = false) (status_codes ops) →
  returns false ops = true →
  status_of ops = Some (recorded_status StatusOK ops).
Proof.
  induction ops as [|op ops IH]; intros Honce Hfinal Hreturns; [done |].
  destruct op; cbn [sets_status_once status_codes returns] in Honce, Hfinal, Hreturns;
    cbn [recorded_status status_of]; try (by apply IH).
  - apply bool_decide_eq_true_1 in Honce. apply Forall_cons in Hfinal as [Hcode _].
    rewrite recorded_status_no_codes by done.
    destruct (write_header_final code Hcode) as [Hw | Hw]; rewrite Hw in Hreturns |- *;
      done.
  - apply bool_decide_eq_true_1 in Honce. by rewrite recorded_status_no_codes.
  - apply bool_decide_eq_true_1 in Honce. apply Forall_cons in Hfinal as [Hcode _].
    rewrite recorded_status_no_codes by done.
    destruct (write_header_final code Hcode) as [Hw | Hw]; rewrite Hw in Hreturns |- *;
      done.
Qed.

(** X15.  The logging middleware logs its line exactly when the wrapped
    handler returns: it does not panic by itself and none of its calls
    of [WriteHeader] panics, which is when the server has a status line
    to send.  The status it logs is the code of the last [WriteHeader]
    or redirect of the handler, 200 when there is none.  The status sent
    is the one of the first such call that is not informational, so the
    two agree when the handler sets the status at most once, not after
    it has begun to write the body, and with no informational code. *)
Theorem loggingMiddleware_logs_last_status
    (duration : Z) (r : Request) (ops : list wop) (panic : option string) :
  match loggingMiddleware duration r ops panic with
  | Some l =>
      panic = None ∧
      (∃ status, status_of ops = Some status) ∧
      logStatus l = default StatusOK (last (status_codes ops)) ∧
      (sets_status_once ops = true →
       Forall (λ code, informational code = false) (status_codes ops) →
       status_of ops = Some (logStatus l))
  | None => panic ≠ None ∨ status_of ops = None
  end.
Proof.
  unfold loggingMiddleware. destruct panic as [m|]; [by left |].
  pose proof (returns_status_of ops) as Hsent.
  destruct (returns false ops) eqn:Hreturns; [| by right].
  cbn [logStatus]. split_and!; [done | done | apply recorded_status_last |].
  intros Honce Hfinal. by apply status_of_sets_once.
Qed.

(** The reply [http.Error]: the logged status is the one sent.  Early
    hints followed by a body: 103 is logged and 200 is sent.  A code
    that is no status: the handler panics and nothing is logged.  The
    login page of the sample app behind the server of [up]: 303 is
    logged. *)
Example loggingMiddleware_samples :
  (logStatus <$> loggingMiddleware 0 sample.request unauthorized None
   = Some StatusUnauthorized
   ∧ status_of unauthorized = Some StatusUnauthorized) ∧
  (logStatus <$> loggingMiddleware 0 sample.request [WriteHeader 103; Write []] None
   = Some 103
   ∧ status_of [WriteHeader 103; Write []] = Some StatusOK) ∧
  (loggingMiddleware 0 sample.request [WriteHeader 0] None = None
   ∧ status_of [WriteHeader 0] = None) ∧
  (logStatus <$> up_logged sample.up_env sample.db sample.login 0
   = Some StatusSeeOther).
Proof. by vm_compute. Qed.

(** ** Starting the server *)

(** X16.  The server is started with TLS exactly when a certificate and
    a key are both configured, and without TLS exactly when neither is;
    with only one of the two it is not started.  A configured port is
    kept; the default port is 443 with TLS and 7777 without. *)
Theorem start_server_tls_iff_cert_and_key
    (ExpandTilde : string → string) (port : Z) (cert key : string) :
  let p := if decide (port = 0) then (if decide (cert = "") then 7777 else 443)
           else port in
  (start_server ExpandTilde port cert key
   = Ok (ListenAndServeTLS p (ExpandTilde cert) (ExpandTilde key))
   ↔ cert ≠ "" ∧ key ≠ "")
  ∧ (start_server ExpandTilde port cert key = Ok (ListenAndServe p)
     ↔ cert = "" ∧ key = "")
  ∧ ((∃ m, start_server ExpandTilde port cert key = Err m)
     ↔ (cert = "" ↔ key ≠ "")).
Proof.
  cbv zeta. unfold start_server, effective_port.
  destruct (decide (cert = "")) as [Hcert|Hcert];
    destruct (decide (key = "")) as [Hkey|Hkey];
    repeat case_bool_decide; try done; cbn [orb];
    destruct (decide (port = 0)); split_and!;
    (split; [intros Hs | intros Hs]); try done; try tauto; try (by eexists);
    try (by destruct Hs as [m Hs]); by destruct Hs.
Qed.

(** ** The commands of the cron driver *)

Lemma ran_app (evs1 evs2 : list cron_event) :
  ran (evs1 ++ evs2) = ran evs1 ++ ran evs2.
Proof. apply omap_app. Qed.

Section CronCommands.

Variable e : UpEnv.
Variable t : Z.

Lemma ran_run_job (name : string) (a : App) (i : nat) (job : CronJob) :
  LoadApp e (path.Join [cfg_dir e; name]) (cfg_domain e) = Ok a →
  Crons (aConfig a) !! i = Some job →
  ran (run_job e t name a i job)
  = omap (command_of e) (fired (run_job e t name a i job)).
Proof.
  intros Hload Hjob. unfold run_job.
  destruct (cron_Parse e (Schedule job)) as [sched| |]; [| done..].
  case_decide; [done |].
  cbn [fired ran omap list_omap]. unfold command_of. cbn [fst snd].
  rewrite Hload, Hjob.
  destruct (Command e a (Args job)) as [c| |]; [| done..].
  by destruct (Run e c).
Qed.

Lemma ran_jobs (name : string) (a : App) (crons : list CronJob) (k : nat) :
  LoadApp e (path.Join [cfg_dir e; name]) (cfg_domain e) = Ok a →
  (∀ j job, crons !! j = Some job → Crons (aConfig a) !! (k + j)%nat = Some job) →
  ran (mjoin (imap (λ i, run_job e t name a (k + i)) crons))
  = omap (command_of e)
      (fired (mjoin (imap (λ i, run_job e t name a (k + i)) crons))).
Proof.
  intros Hload. revert k. induction crons as [|job crons IH]; intros k Hcrons; [done |].
  cbn [imap].
  rewrite (imap_ext _ (λ i, run_job e t name a (S k + i)))
    by (intros; cbn; f_equal; lia).
  match goal with
  | |- context [mjoin (?l :: ?ls)] => change (mjoin (l :: ls)) with (l ++ mjoin ls)
  end.
  rewrite ran_app, fired_app, omap_app. f_equal.
  - apply ran_run_job; [done |]. apply (Hcrons 0%nat). done.
  - apply IH. intros j job' Hj.
    replace (S k + j)%nat with (k + S j)%nat by lia. by apply Hcrons.
Qed.

Lemma ran_run_app (name : string) :
  ran (run_app e t name) = omap (command_of e) (fired (run_app e t name)).
Proof.
  unfold run_app.
  destruct (LoadApp e (path.Join [cfg_dir e; name]) (cfg_domain e)) as [a| |] eqn:Hload;
    [| done..].
  by apply (ran_jobs name a (Crons (aConfig a)) 0).
Qed.

Lemma ran_apps (apps : list string) :
  ran (mjoin (run_app e t <$> apps))
  = omap (command_of e) (fired (mjoin (run_app e t <$> apps))).
Proof.
  induction apps as [|name apps IH]; [done |].
  rewrite fmap_cons.
  match goal with
  | |- context [mjoin (?l :: ?ls)] => change (mjoin (l :: ls)) with (l ++ mjoin ls)
  end.
  by rewrite ran_app, fired_app, omap_app, ran_run_app, IH.
Qed.

End CronCommands.

(** X17.  The commands the cron driver runs in a minute are the worker
    commands of the entries that fire, in the order in which they fire:
    one command per fired entry whose command can be built, from the
    arguments of that entry, whether or not an earlier command failed. *)
Theorem cron_runs_commands_of_fired_entries (e : UpEnv) (now : Z) :
  ran (tick e now) = omap (command_of e) (fired (tick e now)).
Proof.
  unfold tick. destruct (ListApps e (cfg_dir e)) as [apps err].
  rewrite ran_app, fired_app, omap_app, ran_apps.
  by destruct err.
Qed.

(** ** The root page of the forwarding server *)

(** X18.  The root page answers 200 exactly when the account of the
    email is known, the forwarder delivers the request [list-apps] and
    the reply can be decoded; the page then has one link per app of the
    reply, in order, to [https://<app>-<user>.<host>].  An undecodable
    reply gives 500 and everything else 401, with the plain-text
    message as body. *)
Theorem root_page_lists_apps (e : RootEnv) (email : string) (r : Request) :
  (∃ userName payload apps,
     GetUserWithEmail e email = Ok userName ∧
     SendRequest e userName "list-apps" = Ok (true, payload) ∧
     ssh_Unmarshal e payload = Ok apps ∧
     status_of (root_page e (Some email) r) = Some StatusOK ∧
     body_of (root_page e (Some email) r)
     = render e "Smallweb"
         ((λ app, mkLink ("https://" +:+ app +:+ "-" +:+ userName +:+ "." +:+ rHost r)
                    app) <$> apps))
  ∨ ((∃ userName payload,
        GetUserWithEmail e email = Ok userName ∧
        SendRequest e userName "list-apps" = Ok (true, payload) ∧
        ¬ (∃ apps, ssh_Unmarshal e payload = Ok apps)) ∧
     root_page e (Some email) r = internal_error)
  ∨ ((∀ userName payload,
        GetUserWithEmail e email = Ok userName →
        SendRequest e userName "list-apps" ≠ Ok (true, payload)) ∧
     root_page e (Some email) r = unauthorized).
Proof.
  unfold root_page. cbn [default from_option id app].
  destruct (GetUserWithEmail e email) as [userName| |] eqn:Huser;
    [| right; right; split; [intros ? ? [=] | done]..].
  destruct (SendRequest e userName "list-apps") as [[[|] payload]| |] eqn:Hsend.
  - destruct (ssh_Unmarshal e payload) as [apps| |] eqn:Hdecode.
    + left. exists userName, payload, apps. split_and!; [done.. |].
      cbn [body_of]. by rewrite app_nil_r.
    + right; left. split; [| done]. exists userName, payload.
      split_and!; [done.. |]. intros [apps Happs]. by rewrite Hdecode in Happs.
    + right; left. split; [| done]. exists userName, payload.
      split_and!; [done.. |]. intros [apps Happs]. by rewrite Hdecode in Happs.
  - right; right. split; [| done]. intros ? ? [= <-]. by rewrite Hsend.
  - right; right. split; [| done]. intros ? ? [= <-]. by rewrite Hsend.
  - right; right. split; [| done]. intros ? ? [= <-]. by rewrite Hsend.
Qed.

(** X19.  A request without an email in its context is answered 401, but
    the handler does not stop there: it goes on as for the empty email,
    sets the status a second time, and whatever that run writes follows
    the message [Unauthorized] in the body. *)
Theorem root_page_without_email_continues (e : RootEnv) (r : Request) :
  status_of (root_page e None r) = Some StatusUnauthorized ∧
  body_of (root_page e None r)
  = String.list_byte_of_string ("Unauthorized" +:+ LF)
    ++ body_of (root_page e (Some "") r) ∧
  ∃ code, status_codes (root_page e None r) = [StatusUnauthorized; code].
Proof.
  split_and!; [done | done |].
  unfold root_page. cbn [default from_option id].
  destruct (GetUserWithEmail e "") as [userName| |]; [| by eexists..].
  destruct (SendRequest e userName "list-apps") as [[[|] payload]| |];
    [| by eexists..].
  destruct (ssh_Unmarshal e payload); by eexists.
Qed.

(** ** The reply of an app that answers *)

Lemma write_response_headers_pairs (hs : list (list string)) (k : list event) :
  Forall (λ h : list string, (2 ≤ length h)%nat) hs →
  write_response_headers hs k
  = (W <$> ((λ h, HeaderSet (default "" (h !! 0%nat)) (default "" (h !! 1%nat))) <$> hs))
    ++ k.
Proof.
  induction 1 as [|h hs Hh _ IH]; [done |].
  cbn [write_response_headers]. destruct h as [|name [|value h]]; [simpl in Hh; lia.. |].
  cbn [lookup list_lookup fmap list_fmap default from_option id app]. by rewrite IH.
Qed.

Lemma status_of_header_sets (hs : list (list string)) (ops : list wop) :
  status_of (((λ h, HeaderSet (default "" (h !! 0%nat)) (default "" (h !! 1%nat))) <$> hs)
             ++ ops)
  = status_of ops.
Proof. by induction hs. Qed.

Lemma body_of_header_sets (hs : list (list string)) (ops : list wop) :
  body_of (((λ h, HeaderSet (default "" (h !! 0%nat)) (default "" (h !! 1%nat))) <$> hs)
           ++ ops)
  = body_of ops.
Proof. by induction hs. Qed.

(** X20.  When the child exits with status 0 and leaves a response all
    of whose headers have a name and a value, the handler sets the
    headers in the order of the response, each with [Set], so that a
    later header replaces an earlier one of the same name, and then
    calls [WriteHeader] with the status of the response.  For a status
    in 100..999 it does not panic and goes on to write the body, unless
    that is absent: the status sent is the one of the response, or 200
    after an informational one.  For any other status [WriteHeader]
    panics: the headers are set, but no status line and no body are
    sent. *)
Theorem ServeHTTP_replies_with_response
    (w : World) (rootDir : string) (r : Request)
    (alias entrypoint : string) (env : gmap string string) (req : SerializedRequest)
    (tempdir deno stdin : string) (out f : bytes) (res : SerializedResponse) :
  alias_of_host (rHost r) = Some alias →
  inferEntrypoint (w_exists w) rootDir alias = Ok entrypoint →
  path.Base entrypoint ≠ "index.html" →
  loadEnv (w_exists w) (w_godotenv_Read w) rootDir entrypoint = Ok env →
  (serializeRequest (w_EscapedPath w) (w_EscapedFragment w) (w_escapeHost w)
     (w_visit w) r).1 = Ok req →
  w_MkdirTemp w = Ok tempdir →
  w_denoExecutable w = Ok deno →
  w_Encode w (mkCommandInput req entrypoint env (path.Join [tempdir; "response.json"]))
  = Ok stdin →
  w_CombinedOutput w (evaluator_cmd w entrypoint deno stdin) = (out, None) →
  w_Open w (path.Join [tempdir; "response.json"]) = Ok f →
  w_Decode w f = Ok res →
  Forall (λ h : list string, (2 ≤ length h)%nat) (Headers res) →
  if valid_code (Status res) then
    panics (ServeHTTP w rootDir r) = [] ∧
    writes (ServeHTTP w rootDir r)
    = ((λ h, HeaderSet (default "" (h !! 0%nat)) (default "" (h !! 1%nat)))
         <$> Headers res)
      ++ WriteHeader (Status res)
         :: match Body_ res with Some b => [Write b] | None => [] end ∧
    status_of (writes (ServeHTTP w rootDir r))
    = Some (if informational (Status res) then StatusOK else Status res) ∧
    body_of (writes (ServeHTTP w rootDir r)) = default [] (Body_ res)
  else
    panics (ServeHTTP w rootDir r) = [invalid_WriteHeader_code (Status res)] ∧
    writes (ServeHTTP w rootDir r)
    = ((λ h, HeaderSet (default "" (h !! 0%nat)) (default "" (h !! 1%nat)))
         <$> Headers res)
      ++ [WriteHeader (Status res)] ∧
    status_of (writes (ServeHTTP w rootDir r)) = None ∧
    body_of (writes (ServeHTTP w rootDir r)) = [].
Proof.
  intros Halias Hentry Hbase Henv Hreq Htmp Hdeno Hstdin Hrun Hopen Hdec Hpairs.
  rewrite (ServeHTTP_after_MkdirTemp w rootDir r alias entrypoint env req tempdir)
    by done.
  rewrite panics_app, writes_app. cbn [panics writes]. rewrite !app_nil_r.
  unfold after_MkdirTemp. rewrite Hdeno. cbn [try]. rewrite Hstdin. cbn [try].
  unfold evaluate. rewrite Hrun, Hopen. cbn [try]. rewrite Hdec. cbn [try].
  cbn [panics writes]. unfold write_response.
  rewrite write_response_headers_pairs by done.
  rewrite panics_app, writes_app, writes_W.
  assert (Hquiet : ∀ ops : list wop, panics (W <$> ops) = []).
  { intros ops. by induction ops. }
  rewrite Hquiet, status_of_header_sets, body_of_header_sets.
  cbn [panics writes status_of body_of app]. unfold write_header.
  destruct (valid_code (Status res)); [| done].
  destruct (informational (Status res)), (Body_ res); cbn; by rewrite ?app_nil_r.
Qed.

Lemma ServeHTTP_replies_with_response_witness :
  panics (ServeHTTP sample.world_ok "/www" sample.request) = [] ∧
  writes (ServeHTTP sample.world_ok "/www" sample.request)
  = [ HeaderSet "Content-Type" "text/plain"; WriteHeader 200;
      Write (String.list_byte_of_string "hello") ] ∧
  status_of (writes (ServeHTTP sample.world_ok "/www" sample.request)) = Some 200 ∧
  body_of (writes (ServeHTTP sample.world_ok "/www" sample.request))
  = String.list_byte_of_string "hello".
Proof.
  apply (ServeHTTP_replies_with_response sample.world_ok "/www" sample.request
           "blog" "/www/blog/mod.ts" {[ "A" := "1"; "B" := "3"; "C" := "4" ]}
           (mkSerializedRequest "http://blog.example.test/hello?x=1" "GET"
              [["User-Agent"; "curl"]; ["Accept"; "text/html"]] sample.body)
           "/tmp/smallweb1" "/usr/bin/deno" "input" sample.output
           (String.list_byte_of_string "json") sample.response).
  - reflexivity.
  - by vm_compute.
  - by vm_compute.
  - by vm_compute.
  - by vm_compute.
  - reflexivity.
  - reflexivity.
  - reflexivity.
  - reflexivity.
  - reflexivity.
  - reflexivity.
  - repeat constructor.
Defined.

(** The artifact [{}] decodes to the status 0: the handler panics in
    [WriteHeader] and the server sends nothing.  Early hints followed by
    a body are answered 200. *)
Example ServeHTTP_status_samples :
  (panics (ServeHTTP sample.world_empty_artifact "/www" sample.request)
   = ["invalid WriteHeader code 0"]
   ∧ status_of (writes (ServeHTTP sample.world_empty_artifact "/www" sample.request))
     = None
   ∧ removals (ServeHTTP sample.world_empty_artifact "/www" sample.request)
     = ["/tmp/smallweb1"]) ∧
  (panics (ServeHTTP sample.world_early_hints "/www" sample.request) = []
   ∧ status_of (writes (ServeHTTP sample.world_early_hints "/www" sample.request))
     = Some StatusOK
   ∧ body_of (writes (ServeHTTP sample.world_early_hints "/www" sample.request))
     = String.list_byte_of_string "hello").
Proof. by vm_compute. Qed.
